(** * CRC16-MODBUS calculator: the cell resolution engine and the row codec

    A shallow embedding of [crc_calc.py]: the CRC16-MODBUS codec, the B-cell
    expression evaluator ([parse_high_low_hex], [parse_b_formula],
    [parse_b_input]) and the cell resolver ([update_all_var_values]) with
    the row and column operations that touch the two dictionaries, and the
    texts a row displays ([calc_single_row], [copy_row_result]).

    Data model.  Python [int] is [Z]; Python [str] is [string], read as
    ASCII text (case mapping, whitespace and digit classes are the ASCII
    ones): a character outside ASCII can only appear as the bytes of its
    UTF-8 encoding, which the model leaves alone, and that is Python's
    behaviour only for characters that are neither whitespace, digits nor
    cased.  Theorems that rest on [strip], [upper], [isdigit], [len] or
    [int] therefore take ASCII text as a hypothesis.  A [dict] keyed by
    cell names is a [gmap string _]; exceptions are an explicit result
    type with the [try]/[except] clauses written out, [SystemExit]
    standing for the errors that [except Exception] lets through. *)

From Stdlib Require Import ZArith String Ascii List Bool Lia Btauto SpecFloat DecimalString.
From stdpp Require Import gmap strings list fin_maps.
Import ListNotations.

Local Open Scope string_scope.
Local Open Scope Z_scope.

(** ** Row codec: [crc16_modbus] *)

Module Crc.

(** One turn of [for _ in range(8)]. *)
Definition crc_shift (crc : Z) : Z :=
  if Z.eqb (Z.land crc 0x0001) 0
  then Z.shiftr crc 1
  else Z.lxor (Z.shiftr crc 1) 0xA001.

(** The body of [for byte in data]. *)
Definition crc_feed (crc byte : Z) : Z :=
  Nat.iter 8 crc_shift (Z.lxor crc (Z.land byte 0xFF)).

Definition crc16_modbus (data : list Z) (order : string) : list Z :=
  let crc := fold_left crc_feed data 0xFFFF in
  let crc := Z.land crc 0xFFFF in
  if String.eqb order "little"
  then [Z.land crc 0x00FF; Z.shiftr crc 8]
  else [Z.shiftr crc 8; Z.land crc 0x00FF].

(** The configured byte order and the argument [calc_single_row] passes
    for it. *)
Inductive crc_byte_order := low_first | high_first.

Definition order_arg (o : crc_byte_order) : string :=
  match o with low_first => "little" | high_first => "big" end.

(** The reference algorithm, in the words of the specification: a 16-bit
    register; a byte is XORed into the low 8 bits; a step halves the
    register and XORs 0xA001 in when the bit shifted out was set. *)
Definition ref_step (reg : Z) : Z :=
  if Z.odd reg then Z.lxor (reg / 2) 0xA001 else reg / 2.

Definition ref_xor_low (reg byte : Z) : Z :=
  256 * (reg / 256) + Z.lxor (reg mod 256) byte.

Definition ref_byte (reg byte : Z) : Z :=
  ref_step (ref_step (ref_step (ref_step
    (ref_step (ref_step (ref_step (ref_step (ref_xor_low reg byte)))))))).

Fixpoint ref_register (reg : Z) (data : list Z) : Z :=
  match data with
  | [] => reg
  | b :: rest => ref_register (ref_byte reg b) rest
  end.

Definition ref_crc16 (data : list Z) (o : crc_byte_order) : list Z :=
  let reg := ref_register 0xFFFF data in
  match o with
  | low_first => [reg mod 256; reg / 256]
  | high_first => [reg / 256; reg mod 256]
  end.

Definition is_byte (b : Z) : Prop := 0 <= b <= 255.

End Crc.

(** ** Python built-ins on text and integers *)

Module Py.

(** Exceptions.  Every kind but the last derives from [Exception];
    [SystemExit] derives from [BaseException] alone.  [except Exception]
    catches the former, [except ValueError] only the first. *)
Inductive exn :=
  | ValueError | TypeError | ZeroDivisionError | OverflowError
  | SyntaxError | NameError | OtherException
  | SystemExit.

(** [isinstance(e, Exception)] *)
Definition is_Exception (e : exn) : bool :=
  match e with
  | SystemExit => false
  | _ => true
  end.

Inductive result (A : Type) :=
  | Ok (a : A)
  | Raise (e : exn).
Arguments Ok {A} a.
Arguments Raise {A} e.

Definition bind {A B} (r : result A) (k : A -> result B) : result B :=
  match r with
  | Ok a => k a
  | Raise e => Raise e
  end.

Notation "'let*' x := r 'in' k" := (bind r (fun x => k))
  (at level 10, x name, r at level 100, k at level 200).

(** [try: body / except Exception: return d]. *)
Definition except_Exception {A} (body : result A) (d : A) : result A :=
  match body with
  | Ok a => Ok a
  | Raise e => if is_Exception e then Ok d else Raise e
  end.

(** A computation all of whose errors derive from [Exception]. *)
Definition catchable {A} (r : result A) : Prop :=
  forall e, r = Raise e -> is_Exception e = true.

(** [try: body / except ValueError: return d]. *)
Definition except_ValueError {A} (body : result A) (d : A) : result A :=
  match body with
  | Ok a => Ok a
  | Raise ValueError => Ok d
  | Raise e => Raise e
  end.

Definition code (c : ascii) : nat := nat_of_ascii c.

(** [str.isspace] on ASCII: TAB..CR, FS..US and the space. *)
Definition is_space (c : ascii) : bool :=
  let n := code c in
  ((9 <=? n) && (n <=? 13) || (28 <=? n) && (n <=? 32))%nat.

Definition is_digit (c : ascii) : bool :=
  let n := code c in ((48 <=? n) && (n <=? 57))%nat.

Definition is_lower (c : ascii) : bool :=
  let n := code c in ((97 <=? n) && (n <=? 122))%nat.

Definition upper_char (c : ascii) : ascii :=
  if is_lower c then ascii_of_nat (code c - 32) else c.

(** [s.upper()] *)
Fixpoint upper (s : string) : string :=
  match s with
  | EmptyString => EmptyString
  | String c r => String (upper_char c) (upper r)
  end.

Fixpoint lstrip (s : string) : string :=
  match s with
  | EmptyString => EmptyString
  | String c r => if is_space c then lstrip r else s
  end.

Fixpoint rstrip (s : string) : string :=
  match s with
  | EmptyString => EmptyString
  | String c r =>
      match rstrip r with
      | EmptyString => if is_space c then EmptyString else String c EmptyString
      | r' => String c r'
      end
  end.

(** [s.strip()] *)
Definition strip (s : string) : string := rstrip (lstrip s).

(** The whitespace [int] skips around a numeral: TAB..CR and the space
    (narrower than [str.isspace]). *)
Definition is_int_space (c : ascii) : bool :=
  let n := code c in
  ((9 <=? n) && (n <=? 13) || (n =? 32))%nat.

Fixpoint int_lstrip (s : string) : string :=
  match s with
  | EmptyString => EmptyString
  | String c r => if is_int_space c then int_lstrip r else s
  end.

Fixpoint int_rstrip (s : string) : string :=
  match s with
  | EmptyString => EmptyString
  | String c r =>
      match int_rstrip r with
      | EmptyString => if is_int_space c then EmptyString else String c EmptyString
      | r' => String c r'
      end
  end.

Fixpoint all_chars (p : ascii -> bool) (s : string) : bool :=
  match s with
  | EmptyString => true
  | String c r => p c && all_chars p r
  end.

Fixpoint any_char (p : ascii -> bool) (s : string) : bool :=
  match s with
  | EmptyString => false
  | String c r => p c || any_char p r
  end.

(** [c in s] for a one-character [c]. *)
Definition contains (s : string) (c : ascii) : bool :=
  any_char (Ascii.eqb c) s.

(** [s.isdigit()] *)
Definition isdigit (s : string) : bool :=
  match s with
  | EmptyString => false
  | _ => all_chars is_digit s
  end.

(** [s.isascii()]: a text of ASCII characters, on which [strip], [upper],
    [isdigit], [len] and [int] are Python's. *)
Definition ascii_text (s : string) : bool :=
  all_chars (fun c => (code c <? 128)%nat) s.

Definition digit_value (c : ascii) : Z := Z.of_nat (code c - 48).

(** [int(s)] on a text for which [s.isdigit()] holds. *)
Definition int_of_digits (s : string) : Z :=
  fold_left (fun acc c => 10 * acc + digit_value c) (list_ascii_of_string s) 0.

(** [str(n)] for an integer. *)
Definition str (n : Z) : string := NilZero.string_of_int (Z.to_int n).

(** The value of a character as a digit in base 16, either case. *)
Definition hex_value (c : ascii) : option Z :=
  let n := code c in
  if ((48 <=? n) && (n <=? 57))%nat then Some (Z.of_nat (n - 48))
  else if ((65 <=? n) && (n <=? 70))%nat then Some (Z.of_nat (n - 55))
  else if ((97 <=? n) && (n <=? 102))%nat then Some (Z.of_nat (n - 87))
  else None.

Definition is_underscore (c : ascii) : bool := Ascii.eqb c "_".

(** The digit part of [int(s, 16)]: a non-empty run of hexadecimal digits
    in which single underscores may separate digits.  [prev_digit] tells
    whether the previous character was a digit. *)
Fixpoint hex_digits (acc : Z) (prev_digit : bool) (s : string) : option Z :=
  match s with
  | EmptyString => if prev_digit then Some acc else None
  | String c r =>
      match hex_value c with
      | Some d => hex_digits (16 * acc + d) true r
      | None =>
          if is_underscore c && prev_digit then hex_digits acc false r else None
      end
  end.

(** After an optional [0x]/[0X] prefix one underscore may come first. *)
Definition hex_body (s : string) : option Z :=
  match s with
  | String "0" (String x r) =>
      if Ascii.eqb x "x" || Ascii.eqb x "X" then
        match r with
        | String "_" r' => hex_digits 0 false r'
        | _ => hex_digits 0 false r
        end
      else hex_digits 0 false s
  | _ => hex_digits 0 false s
  end.

(** [int(s, 16)]: surrounding whitespace, an optional sign, an optional
    prefix, then the digits; [ValueError] otherwise. *)
Definition int_base16 (s : string) : result Z :=
  let body :=
    match int_rstrip (int_lstrip s) with
    | String "+" r => hex_body r
    | String "-" r => option_map Z.opp (hex_body r)
    | t => hex_body t
    end in
  match body with
  | Some v => Ok v
  | None => Raise ValueError
  end.

Definition hex_char (d : Z) : ascii :=
  ascii_of_nat (Z.to_nat (if d <? 10 then 48 + d else 55 + d)).

(** The uppercase hexadecimal digits of a non-negative integer, most
    significant first; [fuel] bounds the number of digits. *)
Fixpoint hex_digits_of (fuel : nat) (n : Z) (acc : string) : string :=
  match fuel with
  | O => acc
  | S f =>
      let acc' := String (hex_char (n mod 16)) acc in
      if n / 16 =? 0 then acc' else hex_digits_of f (n / 16) acc'
  end.

Fixpoint zeros (k : nat) : string :=
  match k with
  | O => EmptyString
  | S k' => String "0" (zeros k')
  end.

(** [f"{n:04X}"] for [n >= 0]. *)
Definition format_04X (n : Z) : string :=
  let d := hex_digits_of (S (Z.to_nat (Z.log2 n))) n EmptyString in
  zeros (4 - String.length d) ++ d.

(** [f"{n:02d}"] for a row or column number. *)
Definition format_02d (n : nat) : string :=
  let d := str (Z.of_nat n) in
  zeros (2 - String.length d) ++ d.

(** [s[:k]] and [s[k:]] *)
Definition slice_to (k : nat) (s : string) : string := substring 0 k s.
Definition slice_from (k : nat) (s : string) : string :=
  substring k (String.length s - k) s.

(** [s.startswith(p)] *)
Definition startswith (s p : string) : bool := String.prefix p s.

End Py.


(** ** The interpreter behind [eval]

    [eval] is Python's own.  Both call sites hand it upper-cased text with
    an empty set of built-ins, so of the two allowed names, [abs] and
    [round], neither can be spelled.  The model commits to a result on the
    arithmetic fragment of the formula grammar: decimal integers,
    [0X] hexadecimal integers, [+ - * /], unary signs, parentheses and
    spaces, in texts of bounded size and nesting.  [/] is true division
    and yields a binary64 float.  On every other text the result is that of
    an arbitrary interpreter, [eval_beyond], which returns a value or
    raises: a [Builtin] may raise anything, [SystemExit] included, as
    Python's [eval] can once a name is spelled with characters that
    [upper] leaves alone and the compiler normalises; an [Interpreter] is
    one whose errors all derive from [Exception], as on ASCII text, where
    after [upper] no name, keyword or attribute can be spelled. *)

Module Eval.
Import Py.

Inductive value :=
  | VInt (z : Z)
  | VFloat (f : spec_float)
  | VOther.

Definition prec : Z := 53.
Definition emax : Z := 1024.

(** [float(z)], rounded to nearest even. *)
Definition float_of_int (z : Z) : result spec_float :=
  match binary_normalize prec emax z 0 false with
  | S754_infinity _ => Raise OverflowError
  | f => Ok f
  end.

Definition exact_int (z : Z) : spec_float :=
  match z with
  | Z0 => S754_zero false
  | Zpos p => S754_finite false p 0
  | Zneg p => S754_finite true p 0
  end.

(** [a / b] on integers: the correctly rounded quotient. *)
Definition int_truediv (a b : Z) : result spec_float :=
  if b =? 0 then Raise ZeroDivisionError
  else match SFdiv prec emax (exact_int a) (exact_int b) with
       | S754_infinity _ => Raise OverflowError
       | f => Ok f
       end.

Definition to_float (v : value) : result spec_float :=
  match v with
  | VInt z => float_of_int z
  | VFloat f => Ok f
  | VOther => Raise TypeError
  end.

Definition is_zero (f : spec_float) : bool :=
  match f with S754_zero _ => true | _ => false end.

Inductive binop := Add | Sub | Mul | Div.

Definition int_binary (op : binop) (x y : Z) : result value :=
  match op with
  | Add => Ok (VInt (x + y))
  | Sub => Ok (VInt (x - y))
  | Mul => Ok (VInt (x * y))
  | Div => let* f := int_truediv x y in Ok (VFloat f)
  end.

Definition float_binary (op : binop) (x y : spec_float) : result value :=
  match op with
  | Add => Ok (VFloat (SFadd prec emax x y))
  | Sub => Ok (VFloat (SFsub prec emax x y))
  | Mul => Ok (VFloat (SFmul prec emax x y))
  | Div => if is_zero y then Raise ZeroDivisionError
           else Ok (VFloat (SFdiv prec emax x y))
  end.

Definition binary (op : binop) (a b : value) : result value :=
  match a, b with
  | VInt x, VInt y => int_binary op x y
  | _, _ =>
      let* x := to_float a in
      let* y := to_float b in
      float_binary op x y
  end.

Definition unary (negate : bool) (a : value) : result value :=
  match a with
  | VInt x => Ok (VInt (if negate then - x else x))
  | VFloat f => Ok (VFloat (if negate then SFopp f else f))
  | VOther => Raise TypeError
  end.

(** [round(f)] on a float: to the nearest integer, ties to even. *)
Definition round_half_even (m e : Z) : Z :=
  if 0 <=? e then m * 2 ^ e
  else
    let d := 2 ^ (- e) in
    let q := m / d in
    match Z.compare (2 * (m mod d)) d with
    | Lt => q
    | Gt => q + 1
    | Eq => if Z.even q then q else q + 1
    end.

Definition round_float (f : spec_float) : result Z :=
  match f with
  | S754_zero _ => Ok 0
  | S754_infinity _ => Raise OverflowError
  | S754_nan => Raise ValueError
  | S754_finite s m e => Ok (cond_Zopp s (round_half_even (Zpos m) e))
  end.

(** [int(round(v))] *)
Definition int_round (v : value) : result Z :=
  match v with
  | VInt z => Ok z
  | VFloat f => round_float f
  | VOther => Raise TypeError
  end.

(** *** Tokens *)

Inductive token :=
  | TNum (z : Z) | TPlus | TMinus | TStar | TSlash | TOpen | TClose.

Inductive lex_state :=
  | LStart | LZero | LDec (acc : Z) | LHexPrefix | LHex (acc : Z).

Definition upper_hex_value (c : ascii) : option Z :=
  if is_lower c then None else hex_value c.

Definition starts_with (c : ascii) (s : string) : bool :=
  match s with
  | String c' _ => Ascii.eqb c c'
  | EmptyString => false
  end.

Definition push (t : token) (r : option (list token)) : option (list token) :=
  option_map (cons t) r.

(** A text outside the alphabet of the fragment, a numeral with a leading
    zero, a numeral that runs into a letter, and the operators [**] and [//]
    are not tokenized.  [fresh] reads the character at a token boundary; it
    is delayed so that only the branch taken is computed. *)
Fixpoint lex (st : lex_state) (s : string) : option (list token) :=
  match s with
  | EmptyString =>
      match st with
      | LStart => Some []
      | LZero => Some [TNum 0]
      | LDec a => Some [TNum a]
      | LHexPrefix => None
      | LHex a => Some [TNum a]
      end
  | String c r =>
      let fresh (_ : unit) :=
        if Ascii.eqb c " " then lex LStart r
        else if Ascii.eqb c "0" then lex LZero r
        else if is_digit c then lex (LDec (digit_value c)) r
        else if Ascii.eqb c "+" then push TPlus (lex LStart r)
        else if Ascii.eqb c "-" then push TMinus (lex LStart r)
        else if Ascii.eqb c "(" then push TOpen (lex LStart r)
        else if Ascii.eqb c ")" then push TClose (lex LStart r)
        else if Ascii.eqb c "*" then
          if starts_with "*" r then None else push TStar (lex LStart r)
        else if Ascii.eqb c "/" then
          if starts_with "/" r then None else push TSlash (lex LStart r)
        else None in
      match st with
      | LStart => fresh tt
      | LZero =>
          if Ascii.eqb c "X" then lex LHexPrefix r
          else if is_digit c then None
          else push (TNum 0) (fresh tt)
      | LDec a =>
          if is_digit c then lex (LDec (10 * a + digit_value c)) r
          else push (TNum a) (fresh tt)
      | LHexPrefix =>
          match upper_hex_value c with
          | Some d => lex (LHex d) r
          | None => None
          end
      | LHex a =>
          match upper_hex_value c with
          | Some d => lex (LHex (16 * a + d)) r
          | None => push (TNum a) (fresh tt)
          end
      end
  end.

(** *** Expressions *)

Inductive expr :=
  | ENum (z : Z)
  | EUnary (negate : bool) (e : expr)
  | EBinary (op : binop) (l r : expr).

Definition parsed := option (expr * list token).

(** Recursive descent: [sum] over [term] over [factor]; binary operators
    associate to the left, a sign binds tighter than [*] and [/]. *)
Fixpoint parse_sum (fuel depth : nat) (ts : list token) : parsed :=
  match fuel with
  | O => None
  | S f =>
      match parse_term f depth ts with
      | Some (e, r) => parse_sum_rest f depth e r
      | None => None
      end
  end
with parse_sum_rest (fuel depth : nat) (acc : expr) (ts : list token) : parsed :=
  match fuel with
  | O => None
  | S f =>
      match ts with
      | TPlus :: r =>
          match parse_term f depth r with
          | Some (e, r') => parse_sum_rest f depth (EBinary Add acc e) r'
          | None => None
          end
      | TMinus :: r =>
          match parse_term f depth r with
          | Some (e, r') => parse_sum_rest f depth (EBinary Sub acc e) r'
          | None => None
          end
      | _ => Some (acc, ts)
      end
  end
with parse_term (fuel depth : nat) (ts : list token) : parsed :=
  match fuel with
  | O => None
  | S f =>
      match parse_factor f depth ts with
      | Some (e, r) => parse_term_rest f depth e r
      | None => None
      end
  end
with parse_term_rest (fuel depth : nat) (acc : expr) (ts : list token) : parsed :=
  match fuel with
  | O => None
  | S f =>
      match ts with
      | TStar :: r =>
          match parse_factor f depth r with
          | Some (e, r') => parse_term_rest f depth (EBinary Mul acc e) r'
          | None => None
          end
      | TSlash :: r =>
          match parse_factor f depth r with
          | Some (e, r') => parse_term_rest f depth (EBinary Div acc e) r'
          | None => None
          end
      | _ => Some (acc, ts)
      end
  end
with parse_factor (fuel depth : nat) (ts : list token) : parsed :=
  match fuel, depth with
  | S f, S d =>
      match ts with
      | TNum z :: r => Some (ENum z, r)
      | TPlus :: r =>
          match parse_factor f d r with
          | Some (e, r') => Some (EUnary false e, r')
          | None => None
          end
      | TMinus :: r =>
          match parse_factor f d r with
          | Some (e, r') => Some (EUnary true e, r')
          | None => None
          end
      | TOpen :: r =>
          match parse_sum f d r with
          | Some (e, TClose :: r') => Some (e, r')
          | _ => None
          end
      | _ => None
      end
  | _, _ => None
  end.

Definition max_text : nat := 1000.
Definition max_depth : nat := 30.

Definition parse (ts : list token) : option expr :=
  match parse_sum (4 * length ts + 4) max_depth ts with
  | Some (e, []) => Some e
  | _ => None
  end.

Definition arithmetic (s : string) : option expr :=
  if (String.length s <=? max_text)%nat then
    match lex LStart s with
    | Some ts => parse ts
    | None => None
    end
  else None.

(** Operands are evaluated left to right. *)
Fixpoint eval_expr (e : expr) : result value :=
  match e with
  | ENum z => Ok (VInt z)
  | EUnary negate e1 => let* v := eval_expr e1 in unary negate v
  | EBinary op l r =>
      let* a := eval_expr l in
      let* b := eval_expr r in
      binary op a b
  end.

Class Builtin := { eval_beyond : string -> result value }.

Class Interpreter := {
  builtin :: Builtin;
  eval_beyond_caught : forall s, catchable (eval_beyond s)
}.

Coercion builtin : Interpreter >-> Builtin.

(** [eval(text, {'__builtins__': None, ...})] on upper-cased text. *)
Definition eval `{Builtin} (s : string) : result value :=
  match arithmetic s with
  | Some e => eval_expr e
  | None => eval_beyond s
  end.

End Eval.

(** ** Expression evaluator: [get_var_value], [parse_high_low_hex],
    [parse_b_formula], [parse_b_input] *)

Module Evaluator.
Import Py Eval.

(** [var_value_dict.get(var_name.strip().upper(), 0) & 0xFF] *)
Definition get_var_value (var_name : string) (var_value_dict : gmap string Z) : Z :=
  Z.land (default 0 (var_value_dict !! upper (strip var_name))) 0xFF.

(** [f"{prefix}{row_num:02d}{col:02d}"] *)
Definition generate_var_name (prefix : string) (row_num col : nat) : string :=
  prefix ++ format_02d row_num ++ format_02d col.

Definition is_AB (c : ascii) : bool := Ascii.eqb c "A" || Ascii.eqb c "B".

(** The look-behind [(?<!0X)]; [before] is the text left of the position,
    nearest character first. *)
Definition preceded_by_0X (before : string) : bool :=
  match before with
  | String "X" (String "0" _) => true
  | _ => false
  end.

(** [re.sub(r'(?<!0X)([AB]\d{4})', var_replace, text)]: leftmost matches,
    left to right, scanning on after each match. *)
Fixpoint sub_vars (var_replace : string -> string) (before s : string) : string :=
  match s with
  | EmptyString => EmptyString
  | String c r =>
      match r with
      | String d1 (String d2 (String d3 (String d4 r'))) =>
          if is_AB c && is_digit d1 && is_digit d2 && is_digit d3 && is_digit d4
             && negb (preceded_by_0X before)
          then var_replace (String c (String d1 (String d2 (String d3 (String d4 EmptyString)))))
               ++ sub_vars var_replace
                    (String d4 (String d3 (String d2 (String d1 (String c before))))) r'
          else String c (sub_vars var_replace (String c before) r)
      | _ => String c (sub_vars var_replace (String c before) r)
      end
  end.

Definition is_symbol (c : ascii) : bool := Ascii.eqb c "#" || Ascii.eqb c "$".

Fixpoint rev_onto (s acc : string) : string :=
  match s with
  | EmptyString => acc
  | String c r => rev_onto r (String c acc)
  end.

(** Group 2 of [([#$])\(([^)]+)\)] read from [t], the text after the
    opening parenthesis: the run of characters up to the first [)].  The
    match fails when that run is empty or never closed.  [inner_rev] is the
    run read so far, last character first. *)
Fixpoint scan_group {A} (no_match : unit -> A) (on_match : string -> string -> A)
    (inner_rev t : string) : A :=
  match t with
  | EmptyString => no_match tt
  | String x t' =>
      if Ascii.eqb x ")" then
        match inner_rev with
        | EmptyString => no_match tt
        | _ => on_match (rev_onto inner_rev EmptyString) t'
        end
      else scan_group no_match on_match (String x inner_rev) t'
  end.

(** [re.sub(r'([#$])\(([^)]+)\)', repl, text)]: at a match the replacement
    is emitted and the scan resumes after the closing parenthesis; else the
    character is kept and the scan moves on by one.  [keep] is delayed so
    that only the branch taken is computed. *)
Fixpoint sub_high_low (repl : ascii -> string -> result string) (s : string)
  : result string :=
  match s with
  | EmptyString => Ok EmptyString
  | String c r =>
      let keep (_ : unit) :=
        let* t := sub_high_low repl r in Ok (String c t) in
      if is_symbol c then
        match r with
        | String "(" r1 =>
            scan_group keep
              (fun inner t' =>
                 let* out := repl c inner in
                 let* t := sub_high_low repl t' in
                 Ok (out ++ t))
              EmptyString r1
        | _ => keep tt
        end
      else keep tt
  end.

Section WithEval.
Context `{Builtin}.

(** [re.sub(r'(?<!0X)([AB]\d{4})', var_replace, text.upper())] with
    [var_replace] returning [str(get_var_value(var, var_value_dict))]. *)
Definition substitute_vars (text : string) (var_value_dict : gmap string Z) : string :=
  sub_vars (fun var => str (get_var_value var var_value_dict)) EmptyString (upper text).

(** [int(round(eval(expr, allowed)))] on the substituted expression. *)
Definition high_low_value (expr : string) (var_value_dict : gmap string Z) : result Z :=
  let expr := substitute_vars expr var_value_dict in
  let* result := eval expr in
  int_round result.

(** The [try] block of [parse_high_low_hex]; [match.group(1)] is [symbol],
    [match.group(2)] is [expr]. *)
Definition high_low_body (symbol : ascii) (expr : string)
    (var_value_dict : gmap string Z) : result string :=
  let* result_int := high_low_value expr var_value_dict in
  let hex_4_str := format_04X (Z.land result_int 0xFFFF) in
  if Ascii.eqb symbol "#"
  then let* v := int_base16 (slice_to 2 hex_4_str) in Ok (str v)
  else let* v := int_base16 (slice_from 2 hex_4_str) in Ok (str v).

Definition parse_high_low_hex (symbol : ascii) (expr : string)
    (var_value_dict : gmap string Z) : result string :=
  except_Exception (high_low_body symbol expr var_value_dict) "0".

(** Pass one of [parse_b_formula]. *)
Definition extract_high_low (formula_text : string)
    (var_value_dict : gmap string Z) : result string :=
  sub_high_low (fun symbol expr => parse_high_low_hex symbol expr var_value_dict)
               formula_text.

(** The text handed to [eval]: pass one, then pass two. *)
Definition formula_text (text : string)
    (var_value_dict : gmap string Z) : result string :=
  let* text := extract_high_low text var_value_dict in
  Ok (substitute_vars text var_value_dict).

(** [int(round(result)) & 0xFF if isinstance(result, float) else
    result & 0xFF] *)
Definition to_byte (v : value) : result Z :=
  match v with
  | VFloat _ => let* r := int_round v in Ok (Z.land r 0xFF)
  | VInt z => Ok (Z.land z 0xFF)
  | VOther => Raise TypeError
  end.

(** The [try] block of [parse_b_formula]. *)
Definition formula_body (text : string) (var_value_dict : gmap string Z) : result Z :=
  let* text := formula_text text var_value_dict in
  let* result := eval text in
  to_byte result.

Definition parse_b_formula (formula_text : string)
    (var_value_dict : gmap string Z) : result Z :=
  except_Exception (formula_body formula_text var_value_dict) 0.

(** [any(op in input_text for op in '+-*/#$')] *)
Definition has_operator (input_text : string) : bool :=
  any_char (contains input_text) "+-*/#$".

Definition parse_b_input (input_text : string)
    (var_value_dict : gmap string Z) : result Z :=
  let input_text := strip input_text in
  if String.eqb input_text EmptyString then Ok 0
  else if has_operator input_text then parse_b_formula input_text var_value_dict
  else if (String.length input_text =? 2)%nat then
    except_ValueError
      (let* v := int_base16 input_text in Ok (Z.land v 0xFF)) 0
  else Ok (get_var_value input_text var_value_dict).

End WithEval.

End Evaluator.

(** ** Cell resolver and grid operations: the two dictionaries of
    [CRC16MODBUSCalculator] *)

Module Calculator.
Import Py Eval Evaluator Crc.

(** The fields of the window object that the resolver reads and writes.
    [row_widgets] keeps the row numbers, in insertion order. *)
Record calculator := Build_calculator {
  total_rows : nat;
  dec_col_count : nat;
  hex_col_count : nat;
  crc_order : crc_byte_order;
  raw_text_dict : gmap string string;
  var_value_dict : gmap string Z;
  row_widgets : list nat
}.

Definition set_dicts (c : calculator) (raw : gmap string string)
    (vals : gmap string Z) : calculator :=
  Build_calculator (total_rows c) (dec_col_count c) (hex_col_count c)
    (crc_order c) raw vals (row_widgets c).

Definition set_values (c : calculator) (vals : gmap string Z) : calculator :=
  set_dicts c (raw_text_dict c) vals.

(** [range(1, count + 1)] *)
Definition columns (count : nat) : list nat := seq 1 count.

(** The names visited by [for row_num in self.row_widgets: for col in
    range(1, count + 1)], in that order. *)
Definition cell_names (prefix : string) (rows : list nat) (count : nat) : list string :=
  flat_map (fun row_num => map (generate_var_name prefix row_num) (columns count)) rows.

(** A loop whose body may raise. *)
Fixpoint for_each {A B} (body : B -> A -> result B) (l : list A) (acc : B) : result B :=
  match l with
  | [] => Ok acc
  | x :: rest => let* acc' := body acc x in for_each body rest acc'
  end.

Definition max_attempts : nat := 5.

(** [sys.int_info.default_max_str_digits]: [int] refuses a decimal text of
    more digits, leading zeros counted, with [ValueError]. *)
Definition int_max_str_digits : Z := 4300.

(** [int(raw_text)] on a text for which [raw_text.isdigit()] holds. *)
Definition int_of_text (raw_text : string) : result Z :=
  if int_max_str_digits <? Z.of_nat (String.length raw_text) then Raise ValueError
  else Ok (int_of_digits raw_text).

(** Step one of [update_all_var_values]: one A cell,
    [int(raw_text) if raw_text.isdigit() else 0]. *)
Definition decimal_value (raw_text : string) : result Z :=
  if isdigit raw_text then int_of_text raw_text else Ok 0.

Definition resolve_a_cell (raw : gmap string string) (vals : gmap string Z)
    (var_name : string) : result (gmap string Z) :=
  let raw_text := default EmptyString (raw !! var_name) in
  let* value := decimal_value raw_text in
  Ok (<[var_name := value]> vals).

(** Step one as a whole; nothing catches the [ValueError] of [int]. *)
Definition resolve_a_cells (c : calculator) : result (gmap string Z) :=
  for_each (resolve_a_cell (raw_text_dict c))
    (cell_names "A" (row_widgets c) (dec_col_count c)) (var_value_dict c).

Section WithEval.
Context `{Builtin}.

(** Step two, the body of the two inner loops: one B cell.  The pair is
    [(self.var_value_dict, has_value_change)]. *)
Definition resolve_b_cell (raw : gmap string string)
    (acc : gmap string Z * bool) (var_name : string) : result (gmap string Z * bool) :=
  let raw_text := default EmptyString (raw !! var_name) in
  let old_value := default 0 (acc.1 !! var_name) in
  let* new_value := parse_b_input raw_text acc.1 in
  if new_value =? old_value then Ok acc
  else Ok (<[var_name := new_value]> acc.1, true).

(** One turn of the [while] loop: [has_value_change = False], then every
    B cell. *)
Definition resolve_round (raw : gmap string string) (cells : list string)
    (vals : gmap string Z) : result (gmap string Z * bool) :=
  for_each (resolve_b_cell raw) cells (vals, false).

(** [while has_value_change and current_attempt < max_attempts]; the
    recursion is on [max_attempts - current_attempt].  The result carries
    the final [current_attempt]. *)
Fixpoint resolve_loop (raw : gmap string string) (cells : list string)
    (remaining : nat) (has_value_change : bool) (current_attempt : nat)
    (vals : gmap string Z) : result (gmap string Z * nat) :=
  match remaining with
  | O => Ok (vals, current_attempt)
  | S remaining' =>
      if has_value_change then
        let* r := resolve_round raw cells vals in
        resolve_loop raw cells remaining' r.2 (S current_attempt) r.1
      else Ok (vals, current_attempt)
  end.

(** The B cells of the grid, in the order the loops visit them. *)
Definition b_cells (c : calculator) : list string :=
  cell_names "B" (row_widgets c) (hex_col_count c).

(** The body of [update_all_var_values], with the number of rounds run. *)
Definition resolve_all (c : calculator) : result (gmap string Z * nat) :=
  let* start := resolve_a_cells c in
  resolve_loop (raw_text_dict c) (b_cells c) max_attempts true 0 start.

Definition update_all_var_values (c : calculator) : result calculator :=
  let* r := resolve_all c in Ok (set_values c r.1).

(** [calc_all_rows], up to what it displays. *)
Definition calc_all_rows (c : calculator) : result calculator :=
  update_all_var_values c.

(** [update_raw_text] *)
Definition update_raw_text (var_name text : string) (raw : gmap string string)
  : gmap string string :=
  <[var_name := strip text]> raw.

(** What [refresh_dec_inputs] and [refresh_hex_inputs] do to the raw
    texts: a fresh input box is filled with the stored text of its cell,
    and the box reports that text back through [update_raw_text]. *)
Definition refresh_inputs (prefix : string) (count : nat)
    (raw : gmap string string) (row_num : nat) : gmap string string :=
  fold_left
    (fun raw col =>
       let var_name := generate_var_name prefix row_num col in
       match raw !! var_name with
       | Some text => update_raw_text var_name text raw
       | None => raw
       end)
    (columns count) raw.

Definition add_calc_row (c : calculator) (row_num : nat) : calculator :=
  let rows := (row_widgets c ++ [row_num])%list in
  let raw := refresh_inputs "A" (dec_col_count c) (raw_text_dict c) row_num in
  let raw := refresh_inputs "B" (hex_col_count c) raw row_num in
  Build_calculator (total_rows c) (dec_col_count c) (hex_col_count c)
    (crc_order c) raw (var_value_dict c) rows.

(** [remove_calc_row]: the names to delete are collected from the raw
    texts alone, then popped from both dictionaries. *)
Definition remove_calc_row (c : calculator) (row_num : nat) : calculator :=
  if existsb (Nat.eqb row_num) (row_widgets c) then
    let del_prefix_a := "A" ++ format_02d row_num in
    let del_prefix_b := "B" ++ format_02d row_num in
    let del_var_list :=
      List.filter (fun k => startswith k del_prefix_a || startswith k del_prefix_b)
             (map fst (map_to_list (raw_text_dict c))) in
    let raw := fold_left (fun d k => delete k d) del_var_list (raw_text_dict c) in
    let vals := fold_left (fun d k => delete k d) del_var_list (var_value_dict c) in
    Build_calculator (total_rows c) (dec_col_count c) (hex_col_count c)
      (crc_order c) raw vals
      (List.filter (fun r => negb (Nat.eqb r row_num)) (row_widgets c))
  else c.

(** [range(old_count, new_count, -1)] *)
Definition rows_down (old_count new_count : nat) : list nat :=
  rev (seq (S new_count) (old_count - new_count)).

Definition on_row_count_change (c : calculator) (value : nat) : result calculator :=
  let new_count := value in
  let old_count := total_rows c in
  let c := fold_left add_calc_row (seq (S old_count) (new_count - old_count)) c in
  let c := fold_left remove_calc_row (rows_down old_count new_count) c in
  calc_all_rows
    (Build_calculator new_count (dec_col_count c) (hex_col_count c)
       (crc_order c) (raw_text_dict c) (var_value_dict c) (row_widgets c)).

Definition on_dec_col_change (c : calculator) (value : nat) : result calculator :=
  let raw := fold_left (refresh_inputs "A" value) (row_widgets c) (raw_text_dict c) in
  calc_all_rows
    (Build_calculator (total_rows c) value (hex_col_count c)
       (crc_order c) raw (var_value_dict c) (row_widgets c)).

Definition on_hex_col_change (c : calculator) (value : nat) : result calculator :=
  let raw := fold_left (refresh_inputs "B" value) (row_widgets c) (raw_text_dict c) in
  calc_all_rows
    (Build_calculator (total_rows c) (dec_col_count c) value
       (crc_order c) raw (var_value_dict c) (row_widgets c)).

End WithEval.

End Calculator.

(** ** The specification's vocabulary *)

Module Spec.
Import Py Eval Evaluator Calculator.

(** An interpreter that refuses every text beyond the arithmetic fragment,
    as Python does for a text that is not an expression.  It serves closed
    examples. *)
Definition refusing : Interpreter :=
  {| builtin := {| eval_beyond := fun _ => Raise SyntaxError |};
     eval_beyond_caught := ltac:(intros s e [= <-]; reflexivity) |}.

(** Input classification, in the priority order of the specification. *)
Inductive cell_class := Blank | Formula | HexByte | Reference.

Definition is_formula_char (c : ascii) : bool :=
  existsb (Ascii.eqb c) ["+"; "-"; "*"; "/"; "#"; "$"]%char.

Definition classify (text : string) : cell_class :=
  let t := strip text in
  match t with
  | EmptyString => Blank
  | _ =>
      if any_char is_formula_char t then Formula
      else match t with
           | String _ (String _ EmptyString) => HexByte
           | _ => Reference
           end
  end.

(** A two-character text read as one hexadecimal byte, either case; 0 when
    a character is not a hexadecimal digit. *)
Definition hex_pair_value (t : string) : Z :=
  match t with
  | String a (String b EmptyString) =>
      match hex_value a, hex_value b with
      | Some x, Some y => 16 * x + y
      | _, _ => 0
      end
  | _ => 0
  end.

(** The value a snapshot gives a name: absent names count as 0. *)
Definition lookup0 (vals : gmap string Z) (name : string) : Z :=
  default 0 (vals !! name).

(** A finite float as a fraction [(n, d)] with [d > 0]. *)
Definition float_fraction (s : bool) (m : positive) (e : Z) : Z * Z :=
  if 0 <=? e then (cond_Zopp s (Zpos m * 2 ^ e), 1)
  else (cond_Zopp s (Zpos m), 2 ^ (- e)).

(** [r] is an integer nearest to [n / d]: [|r - n/d| <= 1/2]. *)
Definition nearest_integer (r : Z) (q : Z * Z) : Prop :=
  2 * Z.abs (r * q.2 - q.1) <= q.2.



Section WithEval.
Context `{Builtin}.

(** Direct substitution: every cell of [order] is evaluated once, in that
    order, against the values found so far. *)
Definition substitute_in_order (raw : gmap string string) (order : list string)
    (vals : gmap string Z) : result (gmap string Z) :=
  for_each
    (fun vals name =>
       let* v := parse_b_input (default EmptyString (raw !! name)) vals in
       Ok (<[name := v]> vals))
    order vals.

(** [k] rounds, whether or not they change anything. *)
Fixpoint after_rounds (raw : gmap string string) (cells : list string)
    (k : nat) (vals : gmap string Z) : result (gmap string Z) :=
  match k with
  | O => Ok vals
  | S k' =>
      let* r := resolve_round raw cells vals in
      after_rounds raw cells k' r.1
  end.

End WithEval.

(** The cells sorted by depth in the dependency graph: depth 0 first. *)
Definition dependency_order (rank : string -> nat) (cells : list string)
    (depth : nat) : list string :=
  flat_map (fun r => List.filter (fun name => Nat.eqb (rank name) r) cells) (seq 0 depth).

(** A depth assignment witnesses an acyclic dependency structure when the
    value of every cell is the same under any two snapshots that agree on
    the names outside the B cells and on the B cells of smaller depth. *)
Definition depends_on_lower `{Builtin} (raw : gmap string string)
    (cells : list string) (rank : string -> nat) : Prop :=
  forall name, In name cells ->
  forall s1 s2 : gmap string Z,
    (forall other, ~ In other cells \/ (rank other < rank name)%nat ->
                   lookup0 s1 other = lookup0 s2 other) ->
    parse_b_input (default EmptyString (raw !! name)) s1
    = parse_b_input (default EmptyString (raw !! name)) s2.

End Spec.

(** ** Decision procedures used by the proofs *)

Module Checks.
Import Py Eval Evaluator Spec.

(** Every character. *)
Definition all_ascii : list ascii := map ascii_of_nat (seq 0 256).

(** [check] on 0, 1, ..., n - 1. *)
Definition check_step (check : Z -> bool) (p : Z * bool) : Z * bool :=
  (p.1 + 1, p.2 && check p.1).

Definition checked_below (check : Z -> bool) (n : positive) : bool :=
  (Pos.iter (check_step check) (0, true) n).2.

Definition result_Z_eqb (a b : result Z) : bool :=
  match a, b with
  | Ok x, Ok y => x =? y
  | _, _ => false
  end.

(** The two-character branch of [parse_b_input] on one pair of characters. *)
Definition hex_pair_checked (a b : ascii) : bool :=
  let t := String a (String b EmptyString) in
  implb (String.eqb (strip t) t && negb (has_operator t))
        (result_Z_eqb
           (except_ValueError (let* v := int_base16 t in Ok (Z.land v 0xFF)) 0)
           (Ok (hex_pair_value t))).

(** [int(s, 16)] on the two digits of a byte. *)
Definition nibbles_checked (k : Z) : bool :=
  result_Z_eqb
    (int_base16 (String (hex_char (k / 16)) (String (hex_char (k mod 16)) EmptyString)))
    (Ok k).

(** The decimal text of a byte is a numeral of the arithmetic fragment. *)
Definition byte_text_checked (v : Z) : bool :=
  all_chars is_digit (str v)
  && negb (any_char is_AB (str v))
  && match arithmetic (str v) with
     | Some (ENum z) => z =? v
     | _ => false
     end.

(** The names [sub_vars] replaces in a text. *)
Fixpoint var_matches (before s : string) : list string :=
  match s with
  | EmptyString => []
  | String c r =>
      match r with
      | String d1 (String d2 (String d3 (String d4 r'))) =>
          if is_AB c && is_digit d1 && is_digit d2 && is_digit d3 && is_digit d4
             && negb (preceded_by_0X before)
          then String c (String d1 (String d2 (String d3 (String d4 EmptyString))))
               :: var_matches
                    (String d4 (String d3 (String d2 (String d1 (String c before))))) r'
          else var_matches (String c before) r
      | _ => var_matches (String c before) r
      end
  end.

End Checks.

(** ** The iteration, for any cell evaluator *)

Module Iteration.
Import Py Spec.

Section Generic.

(** [f name vals] is the value of cell [name] against the snapshot [vals]. *)
Variable f : string -> gmap string Z -> Z.

(** One cell of a round: the store is written when the value changed. *)
Definition step (acc : gmap string Z * bool) (name : string) : gmap string Z * bool :=
  if f name acc.1 =? lookup0 acc.1 name then acc
  else (<[name := f name acc.1]> acc.1, true).

Definition upd (s : gmap string Z) (name : string) : gmap string Z :=
  (step (s, false) name).1.

(** One cell of a direct substitution: the store is always written. *)
Definition write (s : gmap string Z) (name : string) : gmap string Z :=
  <[name := f name s]> s.

(** What both have in common. *)
Definition updates (g : gmap string Z -> string -> gmap string Z) : Prop :=
  forall s name other,
    lookup0 (g s name) other = if decide (other = name) then f name s else lookup0 s other.

Variable cells : list string.
Variable rank : string -> nat.

Definition agree_below (k : nat) (s1 s2 : gmap string Z) : Prop :=
  forall other, ~ In other cells \/ (rank other < k)%nat -> lookup0 s1 other = lookup0 s2 other.

(** The cells of depth below [k], and those of depth [k] in [done], hold
    their own value. *)
Definition settled (k : nat) (done : list string) (s : gmap string Z) : Prop :=
  forall name, In name cells ->
    (rank name < k)%nat \/ (rank name = k /\ In name done) ->
    lookup0 s name = f name s.

Definition round (s : gmap string Z) : gmap string Z := fold_left upd cells s.

(** Every cell holds its own value. *)
Definition fixed (s : gmap string Z) : Prop :=
  forall name, In name cells -> lookup0 s name = f name s.

End Generic.

(** The value of a cell of the grid: what [parse_b_input] returns on its
    raw text. *)
Definition cell_value `{Eval.Builtin} (raw : gmap string string)
    (name : string) (vals : gmap string Z) : Z :=
  match Evaluator.parse_b_input (default EmptyString (raw !! name)) vals with
  | Ok v => v
  | Raise _ => 0
  end.

End Iteration.

(** ** Grids used as examples *)

Module Examples.
Import Py Eval Evaluator Calculator Spec.

(** A chain of depth 4 laid out against the visiting order: each cell
    refers to its right neighbour, the last one is a literal. *)
Definition chain_calculator : calculator :=
  Build_calculator 1 0 5 Crc.low_first
    (list_to_map [("B0101", "B0102+1"); ("B0102", "B0103+1"); ("B0103", "B0104+1");
                  ("B0104", "B0105+1"); ("B0105", "05")])
    ∅ [1%nat].

Definition chain_rank (name : string) : nat :=
  if String.eqb name "B0101" then 4
  else if String.eqb name "B0102" then 3
  else if String.eqb name "B0103" then 2
  else if String.eqb name "B0104" then 1
  else 0.


(** Two A and two B columns; B0101 refers to the second column of each. *)
Definition wide_calculator : calculator :=
  Build_calculator 1 2 2 Crc.low_first
    (list_to_map [("A0102", "7"); ("B0101", "B0102+A0102"); ("B0102", "05")])
    ∅ [1%nat].

End Examples.

(** ** The rest of the pure code: [is_two_hex_char], [calc_single_row],
    [copy_row_result] *)

Module Display.
Import Py Eval Evaluator Calculator Crc.

(** [b & 0xFF] *)
Definition mask (b : Z) : Z := Z.land b 0xFF.

(** The class [[0-9A-F]]. *)
Definition is_upper_hex (c : ascii) : bool :=
  is_digit c || ((65 <=? code c) && (code c <=? 70))%nat.

(** [re.compile(r'^[0-9A-F]{2}$').match(text)]: two characters of the
    class, then the end of the text or one last line feed. *)
Definition matches_two_hex (text : string) : bool :=
  match text with
  | String a (String b rest) =>
      is_upper_hex a && is_upper_hex b
      && match rest with
         | EmptyString => true
         | String c EmptyString => Ascii.eqb c (ascii_of_nat 10)
         | _ => false
         end
  | _ => false
  end.

Definition is_two_hex_char (text : string) : bool :=
  matches_two_hex (upper (strip text)).

(** [f"{n:02X}"] for [n >= 0]. *)
Definition format_02X (n : Z) : string :=
  let d := hex_digits_of (S (Z.to_nat (Z.log2 n))) n EmptyString in
  zeros (2 - String.length d) ++ d.

(** [sep.join(l)] *)
Fixpoint join (sep : string) (l : list string) : string :=
  match l with
  | [] => EmptyString
  | [x] => x
  | x :: rest => x ++ sep ++ join sep rest
  end.

(** [s.replace(" ", "")] *)
Fixpoint remove_spaces (s : string) : string :=
  match s with
  | EmptyString => EmptyString
  | String c r => if Ascii.eqb c " " then remove_spaces r else String c (remove_spaces r)
  end.

(** Step one of [calc_single_row]: the bytes of the row. *)
Definition row_values (c : calculator) (row_num : nat) : list Z :=
  map (fun col => mask (default 0 (var_value_dict c !! generate_var_name "B" row_num col)))
      (columns (hex_col_count c)).

(** The two read-only boxes of every row, [crc_input] and [result_input],
    as the texts they hold.  A row on screen that has no entry has the
    boxes it was created with. *)
Definition row_boxes := gmap nat (string * string).

(** Both boxes are created empty. *)
Definition new_boxes : string * string := (EmptyString, EmptyString).

(** What [add_calc_row] does to the boxes of its row. *)
Definition add_row_boxes (boxes : row_boxes) (row_num : nat) : row_boxes :=
  <[row_num := new_boxes]> boxes.

(** Steps two and three of [calc_single_row]: the text for the CRC box and
    the text for the result box.  Unpacking the checksum raises
    [ValueError] unless it has two elements. *)
Definition row_texts (c : calculator) (row_num : nat) : result (string * string) :=
  let b_col_dec_values := row_values c row_num in
  match crc16_modbus b_col_dec_values (order_arg (crc_order c)) with
  | [crc_byte1; crc_byte2] =>
      let crc_hex_str := format_02X crc_byte1 ++ format_02X crc_byte2 in
      let b_col_hex_list := map format_02X b_col_dec_values in
      let final_hex_list :=
        (b_col_hex_list ++ [format_02X crc_byte1; format_02X crc_byte2])%list in
      Ok (crc_hex_str, join " " final_hex_list)
  | _ => Raise ValueError
  end.

(** [calc_single_row]: [self.row_widgets[row_num]] raises [KeyError] for a
    row that is not there; step four sets the texts of the two boxes. *)
Definition calc_single_row (c : calculator) (boxes : row_boxes) (row_num : nat)
  : result row_boxes :=
  if existsb (Nat.eqb row_num) (row_widgets c) then
    let* texts := row_texts c row_num in
    Ok (<[row_num := texts]> boxes)
  else Raise OtherException.

(** [copy_row_result]: the text put on the clipboard, which is the text
    the result box holds when the button is pressed. *)
Definition copy_row_result (c : calculator) (boxes : row_boxes) (row_num : nat)
  : result string :=
  if existsb (Nat.eqb row_num) (row_widgets c) then
    Ok (remove_spaces (default new_boxes (boxes !! row_num)).2)
  else Raise OtherException.

(** [calc_all_rows]: the pass, then every row on screen. *)
Definition calc_all_rows_shown `{Builtin} (c : calculator) (boxes : row_boxes)
  : result (calculator * row_boxes) :=
  let* c' := update_all_var_values c in
  let* boxes' := for_each (calc_single_row c') (row_widgets c') boxes in
  Ok (c', boxes').

(** [on_crc_order_change]: the new order is stored, then every row is
    computed again. *)
Definition on_crc_order_change `{Builtin} (c : calculator) (boxes : row_boxes)
    (value : crc_byte_order) : result (calculator * row_boxes) :=
  calc_all_rows_shown
    (Build_calculator (total_rows c) (dec_col_count c) (hex_col_count c)
       value (raw_text_dict c) (var_value_dict c) (row_widgets c))
    boxes.

(** A frame read back from its compact text, two hexadecimal digits per
    byte. *)
Fixpoint decode_pairs (fuel : nat) (s : string) : result (list Z) :=
  match fuel, s with
  | _, EmptyString => Ok []
  | S f, String a (String b r) =>
      let* v := int_base16 (String a (String b EmptyString)) in
      let* rest := decode_pairs f r in
      Ok (v :: rest)
  | _, _ => Raise ValueError
  end.

Definition decode_frame (s : string) : result (list Z) :=
  decode_pairs (String.length s) s.

End Display.

(** ** More decision procedures *)

Module MoreChecks.
Import Py Eval Evaluator Spec Checks Display.

(** [f"{n:02d}"] below 100: two digits that spell [n]. *)
Definition format_02d_checked (k : Z) : bool :=
  match format_02d (Z.to_nat k) with
  | String a (String b EmptyString) =>
      is_digit a && is_digit b
      && (int_of_digits (String a (String b EmptyString)) =? k)
  | _ => false
  end.

(** [f"{b:02X}"] on a byte: two characters, neither a space, that
    [int(s, 16)] reads back. *)
Definition format_02X_checked (b : Z) : bool :=
  match format_02X b with
  | String x (String y EmptyString) =>
      negb (Ascii.eqb x " ") && negb (Ascii.eqb y " ")
      && result_Z_eqb (int_base16 (String x (String y EmptyString))) (Ok b)
  | _ => false
  end.

(** Upper-casing does not touch what the classification looks at. *)
Definition upper_char_checked (c : ascii) : bool :=
  Bool.eqb (is_space (upper_char c)) (is_space c)
  && Bool.eqb (is_formula_char (upper_char c)) (is_formula_char c)
  && Bool.eqb (is_symbol (upper_char c)) (is_symbol c)
  && Bool.eqb (Ascii.eqb (upper_char c) "(") (Ascii.eqb c "(")
  && Bool.eqb (Ascii.eqb (upper_char c) ")") (Ascii.eqb c ")")
  && Ascii.eqb (upper_char (upper_char c)) (upper_char c)
  && implb (is_symbol c) (Ascii.eqb (upper_char c) c)
  && match hex_value (upper_char c), hex_value c with
     | Some x, Some y => x =? y
     | None, None => true
     | _, _ => false
     end.

(** The class [[0-9A-F]] after upper-casing is the hexadecimal digits in
    either case, and none of them is an operator or a space. *)
Definition name_char_checked (c : ascii) : bool :=
  Bool.eqb (is_upper_hex (upper_char c))
           (match hex_value c with Some _ => true | None => false end)
  && implb (match hex_value c with Some _ => true | None => false end)
           (negb (is_formula_char c) && negb (is_space c)).

(** Both texts are rewritten, and to the same text up to letter case. *)
Definition same_upper (r1 r2 : result string) : Prop :=
  exists a b, r1 = Ok a /\ r2 = Ok b /\ upper a = upper b.

End MoreChecks.

(** ** Invariants of the grid *)

Module Invariants.
Import Py Eval Evaluator Calculator.

(** The A cells of the grid hold the numbers their texts spell. *)
Definition a_cells_set (c : calculator) (s : gmap string Z) : Prop :=
  forall a, In a (cell_names "A" (row_widgets c) (dec_col_count c)) ->
    exists v, decimal_value (default EmptyString (raw_text_dict c !! a)) = Ok v
              /\ s !! a = Some v.

(** Every raw text is ASCII. *)
Definition ascii_grid (c : calculator) : bool :=
  forallb (fun entry => ascii_text entry.2) (map_to_list (raw_text_dict c)).

(** An ASCII text short enough for [int]. *)
Definition plain_text (text : string) : bool :=
  ascii_text text && (Z.of_nat (String.length text) <=? int_max_str_digits).

(** Every raw text is ASCII and of at most 4300 characters, so that
    step one of the pass converts the A texts, now and after any of them
    is stripped. *)
Definition plain_grid (c : calculator) : bool :=
  forallb (fun entry => plain_text entry.2) (map_to_list (raw_text_dict c)).

(** Every raw text of [raw'] is one of [raw], as it was or stripped. *)
Definition texts_from (raw raw' : gmap string string) : Prop :=
  forall name text', raw' !! name = Some text' ->
    exists text, raw !! name = Some text /\ (text' = text \/ text' = strip text).

(** The rows on screen are the rows 1 to [total_rows], in order. *)
Definition rows_in_order (c : calculator) : Prop :=
  row_widgets c = seq 1 (total_rows c).

(** Every raw text of [raw] is still there in [raw'], as it was or
    stripped. *)
Definition texts_kept (raw raw' : gmap string string) : Prop :=
  forall name text, raw !! name = Some text ->
                    raw' !! name = Some text \/ raw' !! name = Some (strip text).

(** [k.startswith(del_prefix_a) or k.startswith(del_prefix_b)] *)
Definition in_row (row_num : nat) (k : string) : bool :=
  startswith k ("A" ++ format_02d row_num) || startswith k ("B" ++ format_02d row_num).

(** A name of the grid, A or B. *)
Definition in_grid (c : calculator) (name : string) : Prop :=
  In name (cell_names "A" (row_widgets c) (dec_col_count c)) \/ In name (b_cells c).

End Invariants.

(** ** More grids used as examples *)

Module MoreExamples.
Import Py Eval Evaluator Calculator Spec.

(** One A cell above 255 and a B cell that names it, in lower case. *)
Definition reference_calculator : calculator :=
  Build_calculator 1 1 2 Crc.low_first
    (list_to_map [("A0101", "4000"); ("B0101", "a0101"); ("B0102", "0a")])
    ∅ [1%nat].

(** Two rows, resolved. *)
Definition two_row_calculator : calculator :=
  Build_calculator 2 1 1 Crc.low_first
    (list_to_map [("A0101", "1"); ("B0101", "01"); ("A0201", "2"); ("B0201", "A0201")])
    (list_to_map [("A0101", 1); ("B0101", 1); ("A0201", 2); ("B0201", 2)])
    [1%nat; 2%nat].


(** The text [abs.__self__.exit()+0] with every letter written as the
    mathematical bold small letter (U+1D41A for [a], and so on), in UTF-8:
    [upper] and Python's [str.upper] leave it as it is, and the compiler
    normalises the names to ASCII. *)
Definition bold (letter : nat) : list nat := [240; 157; 144; 154 + letter]%nat.

Definition exit_text : string :=
  string_of_list_ascii
    (map ascii_of_nat
       (bold 0 ++ bold 1 ++ bold 18 ++ [46; 95; 95]
        ++ bold 18 ++ bold 4 ++ bold 11 ++ bold 5 ++ [95; 95; 46]
        ++ bold 4 ++ bold 23 ++ bold 8 ++ bold 19 ++ [40; 41; 43; 48])%nat%list).

(** What CPython returns on two texts beyond the fragment: [exit_text]
    reaches the built-in [exit] through [abs.__self__] and raises
    [SystemExit], and [2**3] is 8.  Every other text is refused. *)
Definition observed : Builtin :=
  {| eval_beyond := fun s =>
       if String.eqb s exit_text then Raise SystemExit
       else if String.eqb s "2**3" then Ok (VInt 8)
       else Raise SyntaxError |}.

End MoreExamples.

(** ** Theorems: row codec *)

Module CrcFacts.
Import Crc.

Lemma shift_is_ref_step crc : crc_shift crc = ref_step crc.
Proof.
  unfold crc_shift, ref_step.
  change (Z.land crc 0x0001) with (Z.land crc (Z.ones 1)).
  rewrite Z.land_ones by lia.
  rewrite Z.shiftr_div_pow2 by lia. change (2 ^ 1) with 2.
  rewrite Zmod_odd. destruct (Z.odd crc); reflexivity.
Qed.

Lemma lxor_below a b n :
  0 <= n -> 0 <= a < 2 ^ n -> 0 <= b < 2 ^ n -> 0 <= Z.lxor a b < 2 ^ n.
Proof.
  intros Hn Ha Hb.
  destruct (Z.eq_dec n 0) as [->|Hn0].
  { rewrite Z.pow_0_r in *. assert (a = 0) as -> by lia. assert (b = 0) as -> by lia.
    rewrite Z.lxor_0_l. lia. }
  assert (H0 : 0 <= Z.lxor a b) by (apply Z.lxor_nonneg; lia).
  split; [exact H0|].
  destruct (Z.eq_dec (Z.lxor a b) 0) as [->|Hne]; [apply Z.pow_pos_nonneg; lia|].
  apply Z.log2_lt_pow2; [lia|].
  eapply Z.le_lt_trans; [apply Z.log2_lxor; lia|].
  apply Z.max_lub_lt.
  - destruct (Z.eq_dec a 0) as [->|Hz]; [simpl; lia|apply Z.log2_lt_pow2; lia].
  - destruct (Z.eq_dec b 0) as [->|Hz]; [simpl; lia|apply Z.log2_lt_pow2; lia].
Qed.

Lemma testbit_split h l n :
  0 <= l < 256 -> 0 <= n ->
  Z.testbit (256 * h + l) n = if n <? 8 then Z.testbit l n else Z.testbit h (n - 8).
Proof.
  intros Hl Hn. destruct (Z.ltb_spec n 8).
  - rewrite <- (Z.mod_pow2_bits_low (256 * h + l) 8 n) by lia.
    change (2 ^ 8) with 256.
    replace ((256 * h + l) mod 256) with l; [reflexivity|].
    rewrite Z.add_comm, Z.mul_comm, Z.mod_add by lia. symmetry. apply Z.mod_small. lia.
  - replace n with ((n - 8) + 8) at 1 by lia.
    rewrite <- Z.div_pow2_bits by lia. change (2 ^ 8) with 256.
    replace ((256 * h + l) / 256) with h; [reflexivity|].
    rewrite Z.add_comm, Z.mul_comm, Z.div_add by lia. rewrite Z.div_small by lia. lia.
Qed.

Lemma land_byte byte : is_byte byte -> Z.land byte 0xFF = byte.
Proof.
  intros Hb. unfold is_byte in Hb.
  change (Z.land byte 0xFF) with (Z.land byte (Z.ones 8)).
  rewrite Z.land_ones by lia. apply Z.mod_small. change (2 ^ 8) with 256. lia.
Qed.

Lemma xor_low_is_lxor reg byte :
  is_byte byte -> ref_xor_low reg byte = Z.lxor reg (Z.land byte 0xFF).
Proof.
  intros Hb. rewrite (land_byte _ Hb). unfold ref_xor_low, is_byte in *.
  pose proof (Z.mod_pos_bound reg 256 ltac:(lia)) as Hm.
  assert (Hx : 0 <= Z.lxor (reg mod 256) byte < 256).
  { apply (lxor_below _ _ 8); change (2 ^ 8) with 256; lia. }
  apply Z.bits_inj'. intros n Hn.
  rewrite testbit_split by lia.
  rewrite (Z.lxor_spec reg byte).
  replace (Z.testbit reg n) with (Z.testbit (256 * (reg / 256) + reg mod 256) n)
    by (f_equal; symmetry; apply Z.div_mod; lia).
  rewrite (testbit_split (reg / 256) (reg mod 256)) by lia.
  destruct (Z.ltb_spec n 8).
  - rewrite Z.lxor_spec. reflexivity.
  - replace (Z.testbit byte n) with false; [destruct (Z.testbit _ _); reflexivity|].
    symmetry. apply Z.bits_above_log2; [lia|].
    destruct (Z.eq_dec byte 0) as [->|Hz]; [simpl; lia|].
    assert (Z.log2 byte < 8) by (apply Z.log2_lt_pow2; change (2 ^ 8) with 256; lia). lia.
Qed.

Lemma ref_step_range reg : 0 <= reg < 65536 -> 0 <= ref_step reg < 65536.
Proof.
  intros H. unfold ref_step.
  assert (Hh : 0 <= reg / 2 < 32768).
  { split; [apply Z.div_pos; lia | apply Z.div_lt_upper_bound; lia]. }
  destruct (Z.odd reg); [|lia].
  apply (lxor_below _ _ 16); change (2 ^ 16) with 65536; lia.
Qed.

Lemma ref_xor_low_range reg byte :
  0 <= reg < 65536 -> is_byte byte -> 0 <= ref_xor_low reg byte < 65536.
Proof.
  intros Hr Hb. rewrite xor_low_is_lxor, land_byte by assumption.
  unfold is_byte in Hb.
  apply (lxor_below _ _ 16); change (2 ^ 16) with 65536; lia.
Qed.

Lemma ref_byte_range reg byte :
  0 <= reg < 65536 -> is_byte byte -> 0 <= ref_byte reg byte < 65536.
Proof.
  intros Hr Hb. unfold ref_byte.
  do 8 apply ref_step_range. apply ref_xor_low_range; assumption.
Qed.

Lemma feed_is_ref_byte reg byte : is_byte byte -> crc_feed reg byte = ref_byte reg byte.
Proof.
  intros Hb. unfold crc_feed, ref_byte. rewrite <- xor_low_is_lxor by assumption.
  simpl. rewrite !shift_is_ref_step. reflexivity.
Qed.

Lemma fold_is_ref_register data : forall reg,
  Forall is_byte data -> 0 <= reg < 65536 ->
  fold_left crc_feed data reg = ref_register reg data
  /\ 0 <= ref_register reg data < 65536.
Proof.
  induction data as [|b rest IH]; intros reg Hd Hr; simpl.
  - split; [reflexivity | exact Hr].
  - inversion Hd as [|? ? Hb Hrest]; subst.
    rewrite feed_is_ref_byte by assumption.
    apply IH; [assumption | apply ref_byte_range; assumption].
Qed.

Lemma register_bytes reg :
  0 <= reg < 65536 ->
  Z.land (Z.land reg 0xFFFF) 0x00FF = reg mod 256
  /\ Z.shiftr (Z.land reg 0xFFFF) 8 = reg / 256
  /\ is_byte (reg mod 256) /\ is_byte (reg / 256).
Proof.
  intros Hr.
  assert (Hm : Z.land reg 0xFFFF = reg).
  { change (Z.land reg 0xFFFF) with (Z.land reg (Z.ones 16)).
    rewrite Z.land_ones by lia. apply Z.mod_small. change (2 ^ 16) with 65536. lia. }
  rewrite Hm. repeat split.
  - change (Z.land reg 0x00FF) with (Z.land reg (Z.ones 8)).
    rewrite Z.land_ones by lia. reflexivity.
  - rewrite Z.shiftr_div_pow2 by lia. reflexivity.
  - apply Z.mod_pos_bound; lia.
  - pose proof (Z.mod_pos_bound reg 256); lia.
  - apply Z.div_pos; lia.
  - assert (reg / 256 < 256) by (apply Z.div_lt_upper_bound; lia). lia.
Qed.

(** C1.  On every list of bytes [crc16_modbus] returns the two bytes of the
    reference MODBUS register (initial value 0xFFFF, each byte XORed into
    the low 8 bits, eight shift steps with 0xA001): low byte first under
    [low_first], high byte first under [high_first]; both results are
    bytes.  The empty input gives FF FF, and 01 03 00 00 00 0A gives C5 CD
    low byte first. *)
Theorem crc16_modbus_reference (data : list Z) (o : crc_byte_order) :
  Forall is_byte data ->
  crc16_modbus data (order_arg o) = ref_crc16 data o
  /\ Forall is_byte (crc16_modbus data (order_arg o))
  /\ crc16_modbus [] (order_arg o) = [0xFF; 0xFF]
  /\ crc16_modbus [0x01; 0x03; 0x00; 0x00; 0x00; 0x0A] (order_arg low_first)
     = [0xC5; 0xCD].
Proof.
  intros Hd.
  destruct (fold_is_ref_register data 0xFFFF Hd ltac:(lia)) as [Hf Hr].
  destruct (register_bytes _ Hr) as (Hlo & Hhi & Hblo & Hbhi).
  assert (Heq : crc16_modbus data (order_arg o) = ref_crc16 data o).
  { unfold crc16_modbus, ref_crc16. rewrite Hf, Hlo, Hhi. destruct o; reflexivity. }
  split; [exact Heq|]. split.
  - rewrite Heq. unfold ref_crc16.
    destruct o; (constructor; [assumption | constructor; [assumption | constructor]]).
  - split; [destruct o; reflexivity | reflexivity].
Qed.

Lemma crc16_modbus_reference_witness :
  Forall is_byte [0x01; 0x03; 0x00; 0x00; 0x00; 0x0A]
  /\ crc16_modbus [0x01; 0x03; 0x00; 0x00; 0x00; 0x0A] (order_arg low_first)
     = ref_crc16 [0x01; 0x03; 0x00; 0x00; 0x00; 0x0A] low_first.
Proof.
  assert (H1 : Forall is_byte [0x01; 0x03; 0x00; 0x00; 0x00; 0x0A]).
  { repeat (constructor; [unfold is_byte; lia|]). constructor. }
  split; [exact H1|].
  exact (proj1 (crc16_modbus_reference [0x01; 0x03; 0x00; 0x00; 0x00; 0x0A] low_first H1)).
Defined.

End CrcFacts.

(** ** Theorems: text built-ins *)

Module PyFacts.
Import Py Checks.

Lemma lstrip_head s c r : lstrip s = String c r -> is_space c = false.
Proof.
  induction s as [|x s IH]; simpl; [discriminate|].
  destruct (is_space x) eqn:Hx; [exact IH|].
  intros [= -> _]. exact Hx.
Qed.

Lemma lstrip_fixed s :
  match s with String c _ => is_space c = false | EmptyString => True end ->
  lstrip s = s.
Proof. destruct s as [|c r]; simpl; [reflexivity|]. intros ->. reflexivity. Qed.

Lemma rstrip_head s c t : rstrip s = String c t -> exists r, s = String c r.
Proof.
  destruct s as [|x r]; simpl; [discriminate|].
  destruct (rstrip r); [destruct (is_space x)|]; intros [= -> _]; eauto.
Qed.

Lemma rstrip_rstrip s : rstrip (rstrip s) = rstrip s.
Proof.
  induction s as [|c r IH]; simpl; [reflexivity|].
  destruct (rstrip r) as [|c' r'] eqn:Hr.
  - destruct (is_space c) eqn:Hc; simpl; [reflexivity|]. rewrite Hc. reflexivity.
  - change (rstrip (String c (String c' r'))) with
      (match rstrip (String c' r') with
       | EmptyString => if is_space c then EmptyString else String c EmptyString
       | r0 => String c r0
       end).
    rewrite IH. reflexivity.
Qed.

(** [strip] is idempotent. *)
Lemma strip_strip s : strip (strip s) = strip s.
Proof.
  unfold strip.
  assert (Hl : lstrip (rstrip (lstrip s)) = rstrip (lstrip s)).
  { apply lstrip_fixed. destruct (rstrip (lstrip s)) as [|c t] eqn:Hr; [exact I|].
    destruct (rstrip_head _ _ _ Hr) as [r Hs]. exact (lstrip_head _ _ _ Hs). }
  rewrite Hl. apply rstrip_rstrip.
Qed.

Lemma upper_digits s : all_chars is_digit s = true -> upper s = s.
Proof.
  induction s as [|c r IH]; simpl; [reflexivity|].
  intros Hd. apply andb_prop in Hd as [Hc Hr]. rewrite (IH Hr). f_equal.
  unfold upper_char, is_lower, is_digit in *.
  destruct (97 <=? code c)%nat eqn:Hlo; [|reflexivity].
  apply Nat.leb_le in Hlo. apply andb_prop in Hc as [_ Hhi]. apply Nat.leb_le in Hhi. lia.
Qed.

Lemma in_all_ascii c : In c all_ascii.
Proof.
  unfold all_ascii. rewrite <- (ascii_nat_embedding c).
  apply in_map, in_seq. pose proof (nat_ascii_bounded c). lia.
Qed.

(** A boolean property checked on every character holds of every character. *)
Lemma for_all_ascii (p : ascii -> bool) :
  forallb p all_ascii = true -> forall c, p c = true.
Proof. intros Hall c. rewrite forallb_forall in Hall. apply Hall, in_all_ascii. Qed.

Lemma land_255 x : Z.land x 0xFF = x mod 256.
Proof.
  change (Z.land x 0xFF) with (Z.land x (Z.ones 8)).
  rewrite Z.land_ones by lia. reflexivity.
Qed.

Lemma land_255_range x : 0 <= Z.land x 0xFF <= 255.
Proof. rewrite land_255. pose proof (Z.mod_pos_bound x 256); lia. Qed.

Lemma land_65535 x : Z.land x 0xFFFF = x mod 65536.
Proof.
  change (Z.land x 0xFFFF) with (Z.land x (Z.ones 16)).
  rewrite Z.land_ones by lia. reflexivity.
Qed.

(** *** Errors that [except Exception] catches *)

Lemma catchable_Ok {A} (a : A) : catchable (Ok a).
Proof. intros e He. discriminate. Qed.

Lemma catchable_Raise {A} (e : exn) : is_Exception e = true -> catchable (@Raise A e).
Proof. intros He e' [= <-]. exact He. Qed.

Lemma catchable_bind {A B} (r : result A) (k : A -> result B) :
  catchable r -> (forall a, catchable (k a)) -> catchable (bind r k).
Proof.
  intros Hr Hk e. destruct r as [a|e']; cbn [bind].
  - apply Hk.
  - intros [= <-]. apply Hr. reflexivity.
Qed.

Lemma caught {A} (body : result A) (d : A) e :
  body = Raise e -> is_Exception e = true -> except_Exception body d = Ok d.
Proof. intros -> He. cbn [except_Exception]. rewrite He. reflexivity. Qed.

Lemma except_Exception_ok {A} (body : result A) (d : A) :
  catchable body -> exists a, except_Exception body d = Ok a.
Proof.
  intros Hb. destruct body as [a|e]; cbn [except_Exception]; [eauto|].
  rewrite (Hb e eq_refl). eauto.
Qed.

Lemma int_base16_raises s e : int_base16 s = Raise e -> e = ValueError.
Proof.
  unfold int_base16.
  destruct (match int_rstrip (int_lstrip s) with
            | String "+" r => hex_body r
            | String "-" r => option_map Z.opp (hex_body r)
            | t => hex_body t
            end); [discriminate|]. intros [= <-]. reflexivity.
Qed.

End PyFacts.

(** ** Theorems: hexadecimal text *)

Module HexFacts.
Import Py Checks PyFacts.

Local Ltac div_lia := Z.div_mod_to_equations; lia.

Lemma check_iter check n : forall v ok,
  (Pos.iter (check_step check) (v, ok) n).1 = v + Zpos n
  /\ ((Pos.iter (check_step check) (v, ok) n).2 = true ->
      ok = true /\ forall k, v <= k < v + Zpos n -> check k = true).
Proof.
  induction n as [|n IH] using Pos.peano_ind; intros v ok.
  - simpl. split; [reflexivity|]. intros Hok. apply andb_prop in Hok as [Ho Hc].
    split; [exact Ho|]. intros k Hk. replace k with v by lia. exact Hc.
  - rewrite Pos.iter_succ.
    destruct (IH v ok) as [Hv Hrest].
    destruct (Pos.iter (check_step check) (v, ok) n) as [v' ok'].
    simpl in *. subst v'. split; [lia|].
    intros Hok. apply andb_prop in Hok as [Ho Hc].
    destruct (Hrest Ho) as [Hok0 Hall]. split; [exact Hok0|].
    intros k Hk. destruct (Z.eq_dec k (v + Zpos n)) as [->|Hne]; [exact Hc|].
    apply Hall. lia.
Qed.

Lemma checked_below_sound check n :
  checked_below check n = true -> forall k, 0 <= k < Zpos n -> check k = true.
Proof.
  unfold checked_below. intros Hc k Hk.
  destruct (check_iter check n 0 true) as [_ Hall].
  destruct (Hall Hc) as [_ Hk']. apply Hk'. lia.
Qed.

Lemma nibbles_all : checked_below nibbles_checked 256 = true.
Proof. vm_compute. reflexivity. Qed.

Lemma int_base16_nibbles x y :
  0 <= x < 16 -> 0 <= y < 16 ->
  int_base16 (String (hex_char x) (String (hex_char y) EmptyString)) = Ok (16 * x + y).
Proof.
  intros Hx Hy.
  pose proof (checked_below_sound _ _ nibbles_all (16 * x + y) ltac:(lia)) as Hc.
  unfold nibbles_checked in Hc.
  replace ((16 * x + y) / 16) with x in Hc by div_lia.
  replace ((16 * x + y) mod 16) with y in Hc by div_lia.
  destruct (int_base16 _); [|discriminate].
  apply Z.eqb_eq in Hc. congruence.
Qed.

Lemma hex_digits_of_step f n acc :
  hex_digits_of (S f) n acc
  = if n / 16 =? 0 then String (hex_char (n mod 16)) acc
    else hex_digits_of f (n / 16) (String (hex_char (n mod 16)) acc).
Proof. reflexivity. Qed.

(** The four digits of [f"{v:04X}"] on a 16-bit value. *)
Lemma format_04X_digits v :
  0 <= v < 65536 ->
  format_04X v =
  String (hex_char (v / 4096)) (String (hex_char (v / 256 mod 16))
    (String (hex_char (v / 16 mod 16)) (String (hex_char (v mod 16)) EmptyString))).
Proof.
  intros Hv. unfold format_04X.
  destruct (Z.eqb_spec (v / 16) 0) as [H1|H1].
  { rewrite hex_digits_of_step. rewrite H1. cbn [Z.eqb String.length Nat.sub zeros].
    replace (v / 4096) with 0 by div_lia. replace (v / 256 mod 16) with 0 by div_lia.
    replace (v / 16 mod 16) with 0 by div_lia. reflexivity. }
  assert (Hlog : 4 <= Z.log2 v).
  { change 4 with (Z.log2 16). apply Z.log2_le_mono. div_lia. }
  destruct (Z.to_nat (Z.log2 v)) as [|[|[|[|f]]]] eqn:Hf; try lia.
  rewrite hex_digits_of_step. destruct (Z.eqb_spec (v / 16) 0) as [|_]; [contradiction|].
  rewrite hex_digits_of_step.
  destruct (Z.eqb_spec (v / 16 / 16) 0) as [H2|H2].
  { cbn [String.length Nat.sub zeros].
    replace (v / 4096) with 0 by div_lia. replace (v / 256 mod 16) with 0 by div_lia.
    reflexivity. }
  rewrite hex_digits_of_step.
  destruct (Z.eqb_spec (v / 16 / 16 / 16) 0) as [H3|H3].
  { cbn [String.length Nat.sub zeros].
    replace (v / 4096) with 0 by div_lia. replace (v / 16 / 16 mod 16) with (v / 256 mod 16) by div_lia.
    reflexivity. }
  rewrite hex_digits_of_step.
  replace (v / 16 / 16 / 16 / 16) with 0 by div_lia. cbn [Z.eqb String.length Nat.sub zeros].
  replace (v / 16 / 16 / 16 mod 16) with (v / 4096) by div_lia.
  replace (v / 16 / 16 mod 16) with (v / 256 mod 16) by div_lia.
  reflexivity.
Qed.

Lemma hex_slices v :
  0 <= v < 65536 ->
  String.length (format_04X v) = 4%nat
  /\ int_base16 (slice_to 2 (format_04X v)) = Ok (v / 256)
  /\ int_base16 (slice_from 2 (format_04X v)) = Ok (v mod 256).
Proof.
  intros Hv. rewrite (format_04X_digits v Hv).
  split; [reflexivity|]. split.
  - change (slice_to 2 _) with
      (String (hex_char (v / 4096)) (String (hex_char (v / 256 mod 16)) EmptyString)).
    rewrite int_base16_nibbles by div_lia. f_equal. div_lia.
  - change (slice_from 2 _) with
      (String (hex_char (v / 16 mod 16)) (String (hex_char (v mod 16)) EmptyString)).
    rewrite int_base16_nibbles by div_lia. f_equal. div_lia.
Qed.
End HexFacts.

(** ** Theorems: expression evaluator *)

Module EvaluatorFacts.
Import Py Eval Evaluator Spec Checks PyFacts MoreExamples.

(** *** Totality *)

Lemma scan_group_prop {A} (P : A -> Prop) no_match on_match :
  P (no_match tt) ->
  forall t inner_rev,
    (forall inner t', (String.length t' < String.length t)%nat -> P (on_match inner t')) ->
    P (@scan_group A no_match on_match inner_rev t).
Proof.
  intros Hno. induction t as [|x t IH]; intros inner_rev Hon; simpl; [exact Hno|].
  destruct (Ascii.eqb x ")").
  - destruct inner_rev; [exact Hno|]. apply Hon. simpl. lia.
  - apply IH. intros inner t' Hlt. apply Hon. simpl. lia.
Qed.

Lemma sub_high_low_ok repl :
  (forall c e, exists out, repl c e = Ok out) ->
  forall s, exists out, sub_high_low repl s = Ok out.
Proof.
  intros Hrepl s.
  remember (String.length s) as n eqn:Hn.
  revert s Hn. induction n as [n IH] using lt_wf_ind. intros s Hn.
  destruct s as [|c r]; [simpl; eauto|].
  assert (Hkeep : exists out, (let* t := sub_high_low repl r in Ok (String c t)) = Ok out).
  { destruct (IH (String.length r) ltac:(simpl in Hn; lia) r eq_refl) as [t Ht].
    rewrite Ht. simpl. eauto. }
  simpl. destruct (is_symbol c); [|exact Hkeep].
  destruct r as [|p r1]; [exact Hkeep|].
  destruct (Ascii.eqb_spec p "("%char) as [->|Hp].
  - apply (scan_group_prop (fun x => exists out, x = Ok out)); [exact Hkeep|].
    intros inner t' Hlt.
    destruct (Hrepl c inner) as [out Hout]. rewrite Hout. simpl.
    destruct (IH (String.length t') ltac:(simpl in Hn, Hlt; lia) t' eq_refl) as [t Ht].
    rewrite Ht. simpl. eauto.
  - destruct p as [[] [] [] [] [] [] [] []]; try exact Hkeep. congruence.
Qed.

(** The arithmetic of the fragment raises nothing but what [except
    Exception] catches. *)
Local Ltac catch :=
  repeat first
    [ apply catchable_Ok
    | apply catchable_Raise; reflexivity
    | apply catchable_bind; [|intros ?]
    | match goal with
      | |- catchable (match ?x with _ => _ end) => destruct x
      | |- catchable (if ?b then _ else _) => destruct b
      end ].

Lemma float_of_int_catchable z : catchable (float_of_int z).
Proof. unfold float_of_int. catch. Qed.

Lemma int_truediv_catchable a b : catchable (int_truediv a b).
Proof. unfold int_truediv. catch. Qed.

Lemma to_float_catchable v : catchable (to_float v).
Proof. destruct v; cbn [to_float]; [apply float_of_int_catchable | catch ..]. Qed.

Lemma binary_catchable op a b : catchable (binary op a b).
Proof.
  assert (Hfloat : forall x y, catchable (float_binary op x y))
    by (intros x y; unfold float_binary; catch).
  assert (Hmixed : catchable (let* x := to_float a in
                              let* y := to_float b in float_binary op x y)).
  { apply catchable_bind; [apply to_float_catchable | intros x].
    apply catchable_bind; [apply to_float_catchable | intros y]. apply Hfloat. }
  destruct a as [x|f|], b as [y|g|]; try exact Hmixed.
  cbn [binary]. unfold int_binary. destruct op; try apply catchable_Ok.
  apply catchable_bind; [apply int_truediv_catchable | intros f; apply catchable_Ok].
Qed.

Lemma unary_catchable negate a : catchable (unary negate a).
Proof. unfold unary. catch. Qed.

Lemma eval_expr_catchable e : catchable (eval_expr e).
Proof.
  induction e as [z|negate e1 IH|op l IHl r IHr]; cbn [eval_expr].
  - apply catchable_Ok.
  - apply catchable_bind; [exact IH | intros v; apply unary_catchable].
  - apply catchable_bind; [exact IHl | intros a].
    apply catchable_bind; [exact IHr | intros b]. apply binary_catchable.
Qed.

Lemma int_round_catchable v : catchable (int_round v).
Proof. unfold int_round, round_float. catch. Qed.

Lemma to_byte_catchable v : catchable (to_byte v).
Proof.
  destruct v; cbn [to_byte]; [apply catchable_Ok | | apply catchable_Raise; reflexivity].
  apply catchable_bind; [apply int_round_catchable | intros r; apply catchable_Ok].
Qed.

Lemma int_base16_catchable s : catchable (int_base16 s).
Proof. intros e He. rewrite (int_base16_raises _ _ He). reflexivity. Qed.

Section WithInterpreter.
Context `{Interpreter}.

Lemma eval_catchable s : catchable (eval s).
Proof.
  unfold eval. destruct (arithmetic s); [apply eval_expr_catchable|].
  apply eval_beyond_caught.
Qed.

Lemma high_low_body_catchable symbol expr d : catchable (high_low_body symbol expr d).
Proof.
  unfold high_low_body, high_low_value.
  apply catchable_bind.
  - apply catchable_bind; [apply eval_catchable | intros v; apply int_round_catchable].
  - intros z. destruct (Ascii.eqb symbol "#");
      (apply catchable_bind; [apply int_base16_catchable | intros v; apply catchable_Ok]).
Qed.

Lemma parse_high_low_hex_ok symbol expr d :
  exists out, parse_high_low_hex symbol expr d = Ok out.
Proof. apply except_Exception_ok, high_low_body_catchable. Qed.

Lemma extract_high_low_ok text d : exists out, extract_high_low text d = Ok out.
Proof. apply sub_high_low_ok. intros c e. apply parse_high_low_hex_ok. Qed.

Lemma formula_text_ok text d : exists t, formula_text text d = Ok t.
Proof.
  unfold formula_text. destruct (extract_high_low_ok text d) as [out ->]. simpl. eauto.
Qed.

Lemma to_byte_range v z : to_byte v = Ok z -> 0 <= z <= 255.
Proof.
  destruct v as [x|f|]; simpl; [| |discriminate].
  - intros [= <-]. apply land_255_range.
  - destruct (round_float f); simpl; [|discriminate].
    intros [= <-]. apply land_255_range.
Qed.

Lemma formula_body_catchable text d : catchable (formula_body text d).
Proof.
  unfold formula_body. destruct (formula_text_ok text d) as [t ->]. cbn [bind].
  apply catchable_bind; [apply eval_catchable | intros v; apply to_byte_catchable].
Qed.

Lemma parse_b_formula_ok text d :
  exists v, parse_b_formula text d = Ok v /\ 0 <= v <= 255.
Proof.
  unfold parse_b_formula.
  destruct (formula_body text d) as [z|e] eqn:Hbody; cbn [except_Exception].
  - exists z. split; [reflexivity|]. revert Hbody. unfold formula_body.
    destruct (formula_text text d) as [t|e]; cbn [bind]; [|discriminate].
    destruct (eval t) as [v|e]; cbn [bind]; [|discriminate].
    apply to_byte_range.
  - rewrite (formula_body_catchable text d e Hbody). exists 0. split; [reflexivity|lia].
Qed.

Lemma get_var_value_range name d : 0 <= get_var_value name d <= 255.
Proof. apply land_255_range. Qed.

Lemma parse_b_input_ok text d :
  exists v, parse_b_input text d = Ok v /\ 0 <= v <= 255.
Proof.
  unfold parse_b_input.
  destruct (String.eqb (strip text) EmptyString); [exists 0; split; [reflexivity|lia]|].
  destruct (has_operator (strip text)); [apply parse_b_formula_ok|].
  destruct (String.length (strip text) =? 2)%nat.
  - destruct (int_base16 (strip text)) as [v|e] eqn:Hi; simpl.
    + exists (Z.land v 0xFF). split; [reflexivity | apply land_255_range].
    + rewrite (int_base16_raises _ _ Hi). exists 0. split; [reflexivity|lia].
  - eexists. split; [reflexivity | apply get_var_value_range].
Qed.

End WithInterpreter.

(** *** Classification *)

Lemma has_operator_cons c r :
  has_operator (String c r) = is_formula_char c || has_operator r.
Proof.
  unfold has_operator, is_formula_char, contains. cbn [any_char existsb].
  rewrite !(Ascii.eqb_sym c).
  generalize (Ascii.eqb "+" c), (Ascii.eqb "-" c), (Ascii.eqb "*" c),
             (Ascii.eqb "/" c), (Ascii.eqb "#" c), (Ascii.eqb "$" c),
             (any_char (Ascii.eqb "+") r), (any_char (Ascii.eqb "-") r),
             (any_char (Ascii.eqb "*") r), (any_char (Ascii.eqb "/") r),
             (any_char (Ascii.eqb "#") r), (any_char (Ascii.eqb "$") r).
  intros. btauto.
Qed.

Lemma has_operator_spec t : has_operator t = any_char is_formula_char t.
Proof.
  induction t as [|c r IH]; [reflexivity|].
  rewrite has_operator_cons, IH. reflexivity.
Qed.

Lemma result_Z_eqb_eq a b : result_Z_eqb a b = true -> a = b.
Proof.
  destruct a, b; simpl; try discriminate. intros Heq.
  apply Z.eqb_eq in Heq. congruence.
Qed.

Lemma hex_pairs_checked :
  forallb (fun a => forallb (hex_pair_checked a) all_ascii) all_ascii = true.
Proof. vm_compute. reflexivity. Qed.

Lemma hex_pair_branch a b :
  let t := String a (String b EmptyString) in
  strip t = t -> has_operator t = false ->
  except_ValueError (let* v := int_base16 t in Ok (Z.land v 0xFF)) 0
  = Ok (hex_pair_value t).
Proof.
  intros t Hs Ho.
  pose proof (for_all_ascii _ (for_all_ascii _ hex_pairs_checked a) b) as Hc.
  unfold hex_pair_checked in Hc. fold t in Hc.
  rewrite Hs, String.eqb_refl, Ho in Hc. simpl in Hc.
  apply result_Z_eqb_eq. exact Hc.
Qed.

Section Classification.
Context `{Interpreter}.

Lemma get_var_value_stripped text d :
  get_var_value (strip text) d = lookup0 d (upper (strip text)) mod 256.
Proof. unfold get_var_value, lookup0. rewrite strip_strip. apply land_255. Qed.

Lemma parse_b_input_classified text d :
  parse_b_input text d =
  match classify text with
  | Blank => Ok 0
  | Formula => parse_b_formula (strip text) d
  | HexByte => Ok (hex_pair_value (strip text))
  | Reference => Ok (lookup0 d (upper (strip text)) mod 256)
  end.
Proof.
  unfold parse_b_input, classify.
  pose proof (strip_strip text) as Hidem.
  pose proof (get_var_value_stripped text d) as Hget.
  rewrite <- (has_operator_spec (strip text)).
  destruct (strip text) as [|a [|b [|c r]]] eqn:Hs; [reflexivity| | |].
  - cbn [String.eqb]. destruct (has_operator (String a EmptyString)); [reflexivity|].
    cbn [String.length Nat.eqb]. rewrite Hget. reflexivity.
  - cbn [String.eqb].
    destruct (has_operator (String a (String b EmptyString))) eqn:Ho; [reflexivity|].
    cbn [String.length Nat.eqb]. apply hex_pair_branch; assumption.
  - cbn [String.eqb]. destruct (has_operator (String a (String b (String c r)))); [reflexivity|].
    cbn [String.length Nat.eqb]. rewrite Hget. reflexivity.
Qed.

(** C3.  On ASCII text [parse_b_input] classifies the stripped text in
    priority order: blank text gives 0; text with one of [+ - * / # $] is
    evaluated as a formula; otherwise a text of exactly two characters is
    read as one hexadecimal byte in either case, 0 when it is not
    hexadecimal; any other text is looked up as a cell name, 0 when absent,
    masked to one byte.  So "0a" gives 10, "FF" gives 255, "GG" gives 0,
    and "A0101" gives 20 when A0101 is resolved to 20 and 0 when it is
    unset. *)
Theorem parse_b_input_classification (text : string) (d : gmap string Z) :
  ascii_text text = true ->
  parse_b_input text d =
  match classify text with
  | Blank => Ok 0
  | Formula => parse_b_formula (strip text) d
  | HexByte => Ok (hex_pair_value (strip text))
  | Reference => Ok (lookup0 d (upper (strip text)) mod 256)
  end
  /\ parse_b_input "" d = Ok 0
  /\ parse_b_input "  " d = Ok 0
  /\ parse_b_input "0a" d = Ok 10
  /\ parse_b_input "FF" d = Ok 255
  /\ parse_b_input "GG" d = Ok 0
  /\ parse_b_input "A0101" (<["A0101" := 20]> d) = Ok 20
  /\ parse_b_input "A0101" (delete "A0101" d) = Ok 0.
Proof.
  intros _. split; [apply parse_b_input_classified|].
  repeat split; try reflexivity.
  - rewrite parse_b_input_classified.
    change (classify "A0101") with Reference.
    change (upper (strip "A0101")) with "A0101".
    unfold lookup0. rewrite lookup_insert_eq. reflexivity.
  - rewrite parse_b_input_classified.
    change (classify "A0101") with Reference.
    change (upper (strip "A0101")) with "A0101".
    unfold lookup0. rewrite lookup_delete_eq. reflexivity.
Qed.

(** C10.  A non-blank text without any of [+ - * / # $] whose stripped
    length is not two is looked up as a cell name, stripped and
    upper-cased; when no cell has that name the result is 0, whatever
    number the text spells. *)
Theorem bare_text_is_a_cell_reference (text : string) (d : gmap string Z) :
  strip text <> EmptyString ->
  has_operator (strip text) = false ->
  String.length (strip text) <> 2%nat ->
  parse_b_input text d = Ok (lookup0 d (upper (strip text)) mod 256)
  /\ (d !! upper (strip text) = None -> parse_b_input text d = Ok 0).
Proof.
  intros Hne Hop Hlen.
  assert (Hc : classify text = Reference).
  { unfold classify. rewrite <- has_operator_spec, Hop.
    destruct (strip text) as [|a [|b [|c r]]]; simpl in *; congruence. }
  assert (Hp : parse_b_input text d = Ok (lookup0 d (upper (strip text)) mod 256)).
  { rewrite parse_b_input_classified, Hc. reflexivity. }
  split; [exact Hp|].
  intros Hnone. rewrite Hp. unfold lookup0. rewrite Hnone. reflexivity.
Qed.

End Classification.

Lemma bare_text_is_a_cell_reference_witness :
  strip "5" <> EmptyString
  /\ has_operator (strip "5") = false
  /\ String.length (strip "5") <> 2%nat
  /\ parse_b_input (H := refusing) "5" ∅ = Ok 0.
Proof.
  assert (H1 : strip "5" <> EmptyString) by discriminate.
  assert (H2 : has_operator (strip "5") = false) by reflexivity.
  assert (H3 : String.length (strip "5") <> 2%nat) by discriminate.
  split; [exact H1|]. split; [exact H2|]. split; [exact H3|].
  apply (bare_text_is_a_cell_reference (H := refusing) "5" ∅ H1 H2 H3). reflexivity.
Defined.

Lemma parse_b_input_classification_witness :
  ascii_text "0a" = true /\ parse_b_input (H := refusing) "0a" ∅ = Ok 10.
Proof.
  assert (H1 : ascii_text "0a" = true) by reflexivity.
  split; [exact H1|].
  exact (proj1 (parse_b_input_classification (H := refusing) "0a" ∅ H1)).
Defined.

(** *** What the handlers let through *)

(** C9, on the code as it is.  The [try] blocks answer by 0 every error
    that derives from [Exception], and with an [eval] that raises no other
    error [parse_b_input] returns a byte on every text.  An error that
    does not derive from [Exception] is not caught: raised by [eval], it
    leaves [parse_b_formula] and [parse_b_input].  CPython raises one,
    [SystemExit], on [exit_text], a formula that calls the built-in [exit];
    and a token outside the grammar need not fail at all: [2**3] gives
    8. *)
Theorem unsafe_expression_is_not_caught (text : string) (d : gmap string Z) :
  (forall interpreter : Interpreter,
     exists v, parse_b_input (H := interpreter) text d = Ok v /\ 0 <= v <= 255)
  /\ (forall (python : Builtin) e,
        formula_body (H := python) text d = Raise e ->
        parse_b_formula (H := python) text d
        = if is_Exception e then Ok 0 else Raise e)
  /\ (forall (python : Builtin) e,
        has_operator (strip text) = true ->
        formula_body (H := python) (strip text) d = Raise e ->
        is_Exception e = false ->
        parse_b_input (H := python) text d = Raise e)
  /\ formula_body (H := observed) exit_text d = Raise SystemExit
  /\ parse_b_input (H := observed) exit_text d = Raise SystemExit
  /\ parse_b_input (H := observed) "2**3" d = Ok 8
  /\ parse_b_input (H := refusing) "1/0" d = Ok 0.
Proof.
  split; [intros interpreter; apply parse_b_input_ok|].
  split; [intros python e He; unfold parse_b_formula; rewrite He; reflexivity|].
  split; [|repeat split; reflexivity].
  intros python e Hop He Hbase. unfold parse_b_input. rewrite Hop.
  destruct (String.eqb_spec (strip text) EmptyString) as [Hempty|_].
  { rewrite Hempty in Hop. discriminate. }
  unfold parse_b_formula. rewrite He. cbn [except_Exception]. rewrite Hbase. reflexivity.
Qed.

Lemma unsafe_expression_is_not_caught_witness :
  has_operator (strip exit_text) = true
  /\ formula_body (H := observed) (strip exit_text) ∅ = Raise SystemExit
  /\ is_Exception SystemExit = false
  /\ parse_b_input (H := observed) exit_text ∅ = Raise SystemExit.
Proof.
  assert (H1 : has_operator (strip exit_text) = true) by reflexivity.
  assert (H2 : formula_body (H := observed) (strip exit_text) ∅ = Raise SystemExit)
    by reflexivity.
  assert (H3 : is_Exception SystemExit = false) by reflexivity.
  split; [exact H1|]. split; [exact H2|]. split; [exact H3|].
  exact (proj1 (proj2 (proj2 (unsafe_expression_is_not_caught exit_text ∅)))
               observed SystemExit H1 H2 H3).
Defined.

End EvaluatorFacts.

(** ** Theorems: formulas and the high/low extraction *)

Module FormulaFacts.
Import Py Eval Evaluator Spec Checks PyFacts HexFacts EvaluatorFacts.

Lemma byte_texts_all : checked_below byte_text_checked 256 = true.
Proof. vm_compute. reflexivity. Qed.

Lemma sub_vars_without_AB repl s : forall before,
  any_char is_AB s = false -> sub_vars repl before s = s.
Proof.
  induction s as [|c r IH]; intros before Hs; [reflexivity|].
  simpl in Hs. apply orb_false_elim in Hs as [Hc Hr].
  simpl. rewrite Hc. simpl. rewrite (IH _ Hr).
  destruct r as [|? [|? [|? [|? ?]]]]; reflexivity.
Qed.

Lemma append_cons c r s : String c r ++ s = String c (r ++ s).
Proof. reflexivity. Qed.

Lemma append_empty s : s ++ EmptyString = s.
Proof.
  induction s as [|c r IH]; [reflexivity|]. rewrite append_cons, IH. reflexivity.
Qed.

Section WithInterpreter.
Context `{Interpreter}.

Lemma byte_text v d :
  0 <= v <= 255 ->
  substitute_vars (str v) d = str v /\ eval (str v) = Ok (VInt v).
Proof.
  intros Hv. pose proof (checked_below_sound _ _ byte_texts_all v ltac:(lia)) as Hc.
  unfold byte_text_checked in Hc.
  apply andb_prop in Hc as [Hc H3]. apply andb_prop in Hc as [H1 H2].
  apply negb_true_iff in H2. split.
  - unfold substitute_vars. rewrite (upper_digits _ H1).
    apply sub_vars_without_AB. exact H2.
  - unfold eval. destruct (arithmetic (str v)) as [[z| |]|]; try discriminate.
    apply Z.eqb_eq in H3. subst z. reflexivity.
Qed.

(** A formula whose first pass leaves the decimal text of a byte. *)
Lemma formula_of_byte_text text d v :
  0 <= v <= 255 ->
  extract_high_low text d = Ok (str v) ->
  parse_b_formula text d = Ok v.
Proof.
  intros Hv Hex. destruct (byte_text v d Hv) as [Hsub Hev].
  unfold parse_b_formula, formula_body, formula_text.
  rewrite Hex. simpl. rewrite Hsub, Hev. simpl.
  rewrite land_255, Z.mod_small by lia. reflexivity.
Qed.

End WithInterpreter.

(** *** The match of pass one *)

Lemma rev_onto_app s : forall a b, rev_onto (rev_onto s a) b = rev_onto a (s ++ b).
Proof.
  induction s as [|c r IH]; intros a b; simpl; [reflexivity|].
  rewrite IH. reflexivity.
Qed.

Lemma scan_group_closed {A} (no_match : unit -> A) on_match inner rest :
  forall inner_rev,
  contains inner ")" = false ->
  scan_group no_match on_match inner_rev (inner ++ String ")" rest)
  = match rev_onto inner inner_rev with
    | EmptyString => no_match tt
    | ir => on_match (rev_onto ir EmptyString) rest
    end.
Proof.
  induction inner as [|c r IH]; intros inner_rev Hc.
  - simpl. destruct inner_rev; reflexivity.
  - unfold contains in Hc. cbn [any_char] in Hc. apply orb_false_elim in Hc as [Hx Hr].
    rewrite append_cons. cbn [scan_group rev_onto].
    rewrite Ascii.eqb_sym, Hx. apply IH. exact Hr.
Qed.

Lemma rev_onto_nonempty s a : s <> EmptyString -> rev_onto s a <> EmptyString.
Proof.
  revert a. induction s as [|c r IH]; intros a Hs; [congruence|].
  simpl. destruct r as [|c' r']; [simpl; discriminate|].
  apply IH. discriminate.
Qed.

(** On the text [symbol ( inner )] pass one finds one match, with
    [inner] as group 2, when [inner] is not empty and has no [)]. *)
Lemma sub_high_low_single repl symbol inner :
  is_symbol symbol = true ->
  inner <> EmptyString ->
  contains inner ")" = false ->
  sub_high_low repl (String symbol (String "(" (inner ++ ")")))
  = let* out := repl symbol inner in Ok (out ++ EmptyString).
Proof.
  intros Hsym Hne Hc. cbn [sub_high_low]. rewrite Hsym.
  rewrite scan_group_closed by exact Hc.
  pose proof (rev_onto_nonempty inner EmptyString Hne) as Hir.
  destruct (rev_onto inner EmptyString) as [|c r] eqn:Hrev; [congruence|].
  rewrite <- Hrev, rev_onto_app. cbn [rev_onto]. rewrite append_empty.
  destruct (repl symbol inner); reflexivity.
Qed.

(** *** Rounding *)

Local Ltac div_lia := Z.div_mod_to_equations; lia.

Lemma round_half_even_nearest m e :
  0 < m -> e < 0 ->
  2 * Z.abs (round_half_even m e * 2 ^ (- e) - m) <= 2 ^ (- e).
Proof.
  intros Hm He. unfold round_half_even.
  destruct (Z.leb_spec 0 e) as [|_]; [lia|].
  assert (Hd : 0 < 2 ^ (- e)) by (apply Z.pow_pos_nonneg; lia).
  set (d := 2 ^ (- e)) in *.
  pose proof (Z.div_mod m d ltac:(lia)) as Hdm.
  pose proof (Z.mod_pos_bound m d Hd) as Hr.
  destruct (Z.compare_spec (2 * (m mod d)) d) as [Heq|Hlt|Hgt].
  - destruct (Z.even (m / d)); nia.
  - nia.
  - nia.
Qed.

Lemma round_float_nearest s m e r :
  round_float (S754_finite s m e) = Ok r ->
  nearest_integer r (float_fraction s m e).
Proof.
  simpl. intros [= <-]. unfold nearest_integer, float_fraction.
  destruct (Z.leb_spec 0 e) as [He|He]; cbn [fst snd].
  - unfold round_half_even. destruct (Z.leb_spec 0 e) as [_|]; [|lia].
    replace (cond_Zopp s (Zpos m * 2 ^ e) * 1 - cond_Zopp s (Zpos m * 2 ^ e)) with 0 by lia.
    simpl. lia.
  - pose proof (round_half_even_nearest (Zpos m) e ltac:(lia) He) as Hn.
    destruct s; unfold cond_Zopp; [|exact Hn].
    replace (- round_half_even (Zpos m) e * 2 ^ (- e) - - Zpos m)
      with (- (round_half_even (Zpos m) e * 2 ^ (- e) - Zpos m)) by lia.
    rewrite Z.abs_opp. exact Hn.
Qed.

Section Claims.
Context `{Interpreter}.

Lemma parse_b_formula_eval text d t :
  formula_text text d = Ok t ->
  parse_b_formula text d = except_Exception (let* v := eval t in to_byte v) 0.
Proof. intros Ht. unfold parse_b_formula, formula_body. rewrite Ht. reflexivity. Qed.

(** C4.  The text of a formula, once its cell references are replaced by
    their resolved decimal values, is evaluated; an integer result is
    masked to one byte, a finite float result is first rounded to a nearest
    integer, and anything else gives 0.  "B0106+0XFF*2" with B0106 resolved
    to 10 becomes "10+0XFF*2", evaluates to 520 and gives 8; 7/2 rounds to 4
    and 5/2 to 2. *)
Theorem formula_result_is_rounded_and_masked (text : string) (d : gmap string Z) :
  (exists t, formula_text text d = Ok t /\
     match eval t with
     | Ok (VInt z) => parse_b_formula text d = Ok (z mod 256)
     | Ok (VFloat (S754_finite s m e)) =>
         exists r, nearest_integer r (float_fraction s m e)
                   /\ parse_b_formula text d = Ok (r mod 256)
     | Ok (VFloat (S754_zero _)) => parse_b_formula text d = Ok 0
     | _ => parse_b_formula text d = Ok 0
     end)
  /\ formula_text "B0106+0XFF*2" {["B0106" := 10]} = Ok "10+0XFF*2"
  /\ eval "10+0XFF*2" = Ok (VInt 520)
  /\ parse_b_formula "B0106+0XFF*2" {["B0106" := 10]} = Ok 8
  /\ parse_b_formula "7/2+0" d = Ok 4
  /\ parse_b_formula "5/2+0" d = Ok 2.
Proof.
  split; [|repeat split; reflexivity].
  destruct (formula_text_ok text d) as [t Ht]. exists t. split; [exact Ht|].
  rewrite (parse_b_formula_eval _ _ _ Ht).
  destruct (eval t) as [[z|[sg|sg| |sg m e]|]|err] eqn:Heval;
    cbn [bind to_byte int_round round_float except_Exception is_Exception];
    try reflexivity.
  - rewrite land_255. reflexivity.
  - exists (cond_Zopp sg (round_half_even (Zpos m) e)).
    split; [apply round_float_nearest; reflexivity | rewrite land_255; reflexivity].
  - rewrite (eval_catchable t err Heval). reflexivity.
Qed.

(** C5.  When the inner expression, with its cell references replaced,
    evaluates and rounds to [z], and [v] is [z] masked to 16 bits, the
    extraction [#] yields the decimal text of the high byte of [v] and [$]
    that of the low byte; both are bytes; and a formula that consists of
    one extraction evaluates to that byte.  So [#(0X1234)] gives 18 and
    [$(0X1234)] gives 52. *)
Theorem high_low_extraction (inner : string) (d : gmap string Z) (z : Z) :
  high_low_value inner d = Ok z ->
  let v := z mod 65536 in
  parse_high_low_hex "#" inner d = Ok (str (v / 256))
  /\ parse_high_low_hex "$" inner d = Ok (str (v mod 256))
  /\ String.length (format_04X v) = 4%nat
  /\ 0 <= v / 256 <= 255
  /\ 0 <= v mod 256 <= 255
  /\ (inner <> EmptyString -> contains inner ")" = false ->
      parse_b_formula ("#(" ++ inner ++ ")") d = Ok (v / 256)
      /\ parse_b_formula ("$(" ++ inner ++ ")") d = Ok (v mod 256))
  /\ parse_b_formula "#(0X1234)" d = Ok 18
  /\ parse_b_formula "$(0X1234)" d = Ok 52.
Proof.
  intros Hz v.
  assert (Hv : 0 <= v < 65536) by (apply Z.mod_pos_bound; lia).
  destruct (hex_slices v Hv) as (Hlen & Hhi & Hlo).
  assert (Hbh : 0 <= v / 256 <= 255) by div_lia.
  assert (Hbl : 0 <= v mod 256 <= 255) by div_lia.
  assert (Hh : parse_high_low_hex "#" inner d = Ok (str (v / 256))).
  { unfold parse_high_low_hex, high_low_body. rewrite Hz. cbn [bind].
    rewrite land_65535. fold v. cbn [Ascii.eqb Bool.eqb]. rewrite Hhi. reflexivity. }
  assert (Hl : parse_high_low_hex "$" inner d = Ok (str (v mod 256))).
  { unfold parse_high_low_hex, high_low_body. rewrite Hz. cbn [bind].
    rewrite land_65535. fold v. cbn [Ascii.eqb Bool.eqb]. rewrite Hlo. reflexivity. }
  repeat (split; [assumption|]).
  split; [|split; reflexivity].
  intros Hne Hc. split.
  - apply formula_of_byte_text; [exact Hbh|].
    unfold extract_high_low.
    change ("#(" ++ inner ++ ")") with (String "#" (String "(" (inner ++ ")"))).
    rewrite sub_high_low_single by (try reflexivity; assumption).
    rewrite Hh. cbn [bind]. rewrite append_empty. reflexivity.
  - apply formula_of_byte_text; [exact Hbl|].
    unfold extract_high_low.
    change ("$(" ++ inner ++ ")") with (String "$" (String "(" (inner ++ ")"))).
    rewrite sub_high_low_single by (try reflexivity; assumption).
    rewrite Hl. cbn [bind]. rewrite append_empty. reflexivity.
Qed.

(** C6, on the code as it is.  In [$((1+2)*3)] group 2 of the pattern
    [([#$])\(([^)]+)\)] ends at the first closing parenthesis: the match is
    [$((1+2)] with inner text [(1+2], and [*3)] is left behind.  The inner
    expression [(1+2)*3] itself has low byte 9, but once [eval] rejects the
    two unbalanced texts the formula gives 0. *)
Theorem nested_parentheses_cut_the_group (d : gmap string Z) :
  extract_high_low "$((1+2)*3)" d
  = (let* out := parse_high_low_hex "$" "(1+2" d in Ok (out ++ "*3)"))
  /\ parse_high_low_hex "$" "(1+2)*3" d = Ok "9"
  /\ (forall e1 e2, eval_beyond "(1+2" = Raise e1 -> eval_beyond "0*3)" = Raise e2 ->
        parse_b_formula "$((1+2)*3)" d = Ok 0).
Proof.
  assert (Hex : extract_high_low "$((1+2)*3)" d
                = (let* out := parse_high_low_hex "$" "(1+2" d in Ok (out ++ "*3)"))).
  { unfold extract_high_low. cbn [sub_high_low scan_group is_symbol Ascii.eqb Bool.eqb
      orb rev_onto].
    destruct (parse_high_low_hex "$" "(1+2" d); reflexivity. }
  split; [exact Hex|]. split; [reflexivity|].
  intros e1 e2 H1 H2.
  assert (Hin : parse_high_low_hex "$" "(1+2" d = Ok "0").
  { change (parse_high_low_hex "$" "(1+2" d)
      with (except_Exception
              (let* result_int := (let* result := eval_beyond "(1+2" in int_round result) in
               let hex_4_str := format_04X (Z.land result_int 0xFFFF) in
               let* v := int_base16 (slice_from 2 hex_4_str) in Ok (str v)) "0").
    rewrite H1. cbn [bind except_Exception].
    rewrite (eval_beyond_caught _ _ H1). reflexivity. }
  unfold parse_b_formula, formula_body, formula_text. rewrite Hex, Hin.
  change (let* text := (let* text := (let* out := Ok "0" in Ok (out ++ "*3)")) in
                        Ok (substitute_vars text d)) in
          let* result := eval text in to_byte result)
    with (let* result := eval_beyond "0*3)" in to_byte result).
  rewrite H2. cbn [bind except_Exception].
  rewrite (eval_beyond_caught _ _ H2). reflexivity.
Qed.

End Claims.

Lemma high_low_extraction_witness :
  high_low_value (H := refusing) "0X1234" ∅ = Ok 0x1234
  /\ parse_high_low_hex (H := refusing) "#" "0X1234" ∅ = Ok (str (0x1234 mod 65536 / 256)).
Proof.
  assert (H1 : high_low_value (H := refusing) "0X1234" ∅ = Ok 0x1234) by reflexivity.
  split; [exact H1|].
  exact (proj1 (high_low_extraction (H := refusing) "0X1234" ∅ 0x1234 H1)).
Defined.

Lemma nested_parentheses_cut_the_group_witness :
  eval_beyond (Builtin := refusing) "(1+2" = Raise SyntaxError
  /\ eval_beyond (Builtin := refusing) "0*3)" = Raise SyntaxError
  /\ parse_b_formula (H := refusing) "$((1+2)*3)" ∅ = Ok 0.
Proof.
  split; [reflexivity|]. split; [reflexivity|].
  exact (proj2 (proj2 (nested_parentheses_cut_the_group (H := refusing) ∅))
               SyntaxError SyntaxError eq_refl eq_refl).
Defined.

End FormulaFacts.

(** ** Theorems: the fixed-point iteration, for any cell evaluator *)

Module IterationFacts.
Import Py Spec Iteration.

Section Generic.

Variable f : string -> gmap string Z -> Z.
Variable cells : list string.
Variable rank : string -> nat.

Local Abbreviation step := (Iteration.step f).
Local Abbreviation upd := (Iteration.upd f).
Local Abbreviation write := (Iteration.write f).
Local Abbreviation updates := (Iteration.updates f).
Local Abbreviation agree_below := (Iteration.agree_below cells rank).
Local Abbreviation settled := (Iteration.settled f cells rank).
Local Abbreviation round := (Iteration.round f cells).
Local Abbreviation fixed := (Iteration.fixed f cells).
Local Abbreviation levels := (dependency_order rank cells).

Lemma upd_updates : updates upd.
Proof.
  intros s name other. unfold Iteration.upd, Iteration.step. cbn [fst].
  destruct (Z.eqb_spec (f name s) (lookup0 s name)) as [Heq|Hne]; cbn [fst].
  - destruct (decide (other = name)) as [->|]; [symmetry; exact Heq | reflexivity].
  - unfold lookup0. destruct (decide (other = name)) as [->|Hn].
    + rewrite lookup_insert_eq. reflexivity.
    + rewrite lookup_insert_ne by congruence. reflexivity.
Qed.

Lemma write_updates : updates write.
Proof.
  intros s name other. unfold Iteration.write, lookup0.
  destruct (decide (other = name)) as [->|Hn].
  - rewrite lookup_insert_eq. reflexivity.
  - rewrite lookup_insert_ne by congruence. reflexivity.
Qed.

Lemma step_fst acc name : (step acc name).1 = upd acc.1 name.
Proof. unfold Iteration.upd, Iteration.step. cbn [fst]. destruct (_ =? _); reflexivity. Qed.

Lemma fold_step_fst l : forall acc,
  (fold_left step l acc).1 = fold_left upd l acc.1.
Proof.
  induction l as [|n l IH]; intros acc; [reflexivity|].
  simpl. rewrite IH, step_fst. reflexivity.
Qed.

Lemma fold_step_flagged l : forall s, (fold_left step l (s, true)).2 = true.
Proof.
  induction l as [|n l IH]; intros s; [reflexivity|].
  simpl. unfold Iteration.step at 2. cbn [fst]. destruct (_ =? _); apply IH.
Qed.

(** A round that reports no change wrote nothing, and every cell already
    had its value. *)
Lemma fold_step_unchanged l : forall s,
  (fold_left step l (s, false)).2 = false ->
  fold_left step l (s, false) = (s, false)
  /\ forall name, In name l -> f name s = lookup0 s name.
Proof.
  induction l as [|n l IH]; intros s Hflag; [split; [reflexivity | intros ? []]|].
  simpl in Hflag |- *. unfold Iteration.step at 2 in Hflag. unfold Iteration.step at 2. cbn [fst] in *.
  destruct (Z.eqb_spec (f n s) (lookup0 s n)) as [Heq|Hne].
  - destruct (IH s Hflag) as [Hs Hall]. split; [exact Hs|].
    intros name [<-|Hin]; [exact Heq | exact (Hall name Hin)].
  - rewrite fold_step_flagged in Hflag. discriminate.
Qed.

Lemma fold_updates_outside g (Hg : updates g) l : forall s other,
  ~ In other l -> lookup0 (fold_left g l s) other = lookup0 s other.
Proof.
  induction l as [|n l IH]; intros s other Hout; [reflexivity|].
  simpl. rewrite IH by (intros Hin; apply Hout; right; exact Hin).
  rewrite Hg. destruct (decide (other = n)) as [->|]; [|reflexivity].
  exfalso. apply Hout. left. reflexivity.
Qed.

(** *** Dependencies of bounded depth *)

Hypothesis depends : forall name, In name cells ->
  forall s1 s2, agree_below (rank name) s1 s2 -> f name s1 = f name s2.

Lemma settled_update g (Hg : updates g) k done s name :
  In name cells -> settled k done s -> settled k (name :: done) (g s name).
Proof.
  intros Hin Hs m Hm Hlevel.
  destruct (decide (m = name)) as [->|Hne].
  - rewrite Hg. destruct (decide (name = name)) as [_|]; [|congruence].
    apply depends; [exact Hin|].
    intros other Hother. rewrite Hg.
    destruct (decide (other = name)) as [->|]; [|reflexivity].
    destruct Hother as [Hout|Hlt]; [contradiction | lia].
  - assert (Hold : (rank m < k)%nat \/ (rank m = k /\ In m done)).
    { destruct Hlevel as [Hlt|[Heq [Hhd|Htl]]]; [left; exact Hlt | congruence | right; auto]. }
    rewrite Hg. destruct (decide (m = name)) as [|_]; [congruence|].
    rewrite (Hs m Hm Hold).
    apply depends; [exact Hm|].
    intros other Hother. rewrite Hg.
    destruct (decide (other = name)) as [->|]; [|reflexivity].
    destruct Hother as [Hout|Hlt]; [contradiction|].
    apply (Hs name Hin). left.
    destruct Hold as [Hlt'|[Heq' _]]; lia.
Qed.

Lemma settled_fold g (Hg : updates g) k : forall todo done s,
  (forall name, In name todo -> In name cells) ->
  settled k done s ->
  settled k (rev todo ++ done)%list (fold_left g todo s).
Proof.
  induction todo as [|n todo IH]; intros done s Hsub Hs; [exact Hs|].
  simpl. rewrite <- app_assoc. simpl.
  apply IH; [intros m Hm; apply Hsub; right; exact Hm|].
  apply settled_update; [exact Hg | apply Hsub; left; reflexivity | exact Hs].
Qed.

Lemma settled_weaken k done s : settled k done s -> settled k [] s.
Proof.
  intros Hs m Hm [Hlt|[_ []]]. apply Hs; [exact Hm | left; exact Hlt].
Qed.

(** A pass over a list holding every cell of depth [k] settles depth [k]. *)
Lemma settled_pass g (Hg : updates g) k todo s :
  (forall name, In name todo -> In name cells) ->
  (forall name, In name cells -> rank name = k -> In name todo) ->
  settled k [] s -> settled (S k) [] (fold_left g todo s).
Proof.
  intros Hsub Hall Hs m Hm [Hlt|[_ []]].
  apply (settled_fold g Hg k todo [] s Hsub Hs m Hm).
  destruct (decide (rank m = k)) as [Heq|Hne]; [|left; lia].
  right. split; [exact Heq|]. rewrite app_nil_r, <- in_rev. apply Hall; assumption.
Qed.

Lemma settled_rounds k : forall s, settled k [] (Nat.iter k round s).
Proof.
  induction k as [|k IH]; intros s; [intros m _ [Hlt|[_ []]]; lia|].
  simpl. apply (settled_pass upd upd_updates); auto.
Qed.

Lemma settled_fixed k s :
  (forall name, In name cells -> (rank name < k)%nat) -> settled k [] s -> fixed s.
Proof. intros Hk Hs m Hm. apply Hs; [exact Hm | left; apply Hk; exact Hm]. Qed.

(** The values of an acyclic grid are determined by the rest of the store. *)
Lemma fixed_unique s t :
  fixed s -> fixed t ->
  (forall other, ~ In other cells -> lookup0 s other = lookup0 t other) ->
  forall name, lookup0 s name = lookup0 t name.
Proof.
  intros Hs Ht Hout.
  assert (Hrank : forall k name, (rank name < k)%nat -> In name cells ->
                                 lookup0 s name = lookup0 t name).
  { induction k as [|k IH]; intros name Hlt Hin; [lia|].
    rewrite (Hs name Hin), (Ht name Hin). apply depends; [exact Hin|].
    intros other [Ho|Hl]; [apply Hout; exact Ho|].
    destruct (in_dec string_dec other cells) as [Hc|Hc]; [|apply Hout; exact Hc].
    apply IH; [lia | exact Hc]. }
  intros name. destruct (in_dec string_dec name cells) as [Hc|Hc].
  - apply (Hrank (S (rank name))); [lia | exact Hc].
  - apply Hout. exact Hc.
Qed.

Lemma settled_levels_from len : forall k s,
  settled k [] s ->
  settled (k + len)
    [] (fold_left write (flat_map (fun r => List.filter (fun name => Nat.eqb (rank name) r) cells)
                                  (seq k len)) s).
Proof.
  induction len as [|len IH]; intros k s Hs; [rewrite Nat.add_0_r; exact Hs|].
  simpl. rewrite fold_left_app. replace (k + S len)%nat with (S k + len)%nat by lia.
  apply IH. apply (settled_pass write write_updates).
  - intros name Hin. apply filter_In in Hin. tauto.
  - intros name Hin Hr. apply filter_In. split; [exact Hin | apply Nat.eqb_eq; exact Hr].
  - exact Hs.
Qed.

Lemma levels_in_cells depth name : In name (levels depth) -> In name cells.
Proof.
  unfold dependency_order. rewrite in_flat_map.
  intros (r & _ & Hin). apply filter_In in Hin. tauto.
Qed.

Lemma direct_fixed depth s :
  (forall name, In name cells -> (rank name < depth)%nat) ->
  fixed (fold_left write (levels depth) s)
  /\ forall other, ~ In other cells ->
       lookup0 (fold_left write (levels depth) s) other = lookup0 s other.
Proof.
  intros Hd. split.
  - apply (settled_fixed depth); [exact Hd|].
    apply (settled_levels_from depth 0 s). intros m _ [Hlt|[_ []]]; lia.
  - intros other Hout. apply fold_updates_outside; [apply write_updates|].
    intros Hin. apply Hout. exact (levels_in_cells _ _ Hin).
Qed.

(** *** Stored values are bytes *)

Lemma upd_lookup_other s name other :
  other <> name -> upd s name !! other = s !! other.
Proof.
  intros Hne. unfold Iteration.upd, Iteration.step. cbn [fst].
  destruct (_ =? _); cbn [fst]; [reflexivity|].
  apply lookup_insert_ne. congruence.
Qed.

Lemma fold_upd_lookup_outside l : forall s other,
  ~ In other l -> fold_left upd l s !! other = s !! other.
Proof.
  induction l as [|n l IH]; intros s other Hout; [reflexivity|].
  simpl. rewrite IH by (intros Hin; apply Hout; right; exact Hin).
  apply upd_lookup_other. intros ->. apply Hout. left. reflexivity.
Qed.

Hypothesis bounded : forall name s, 0 <= f name s <= 255.





Lemma rounds_lookup_outside k : forall s other,
  ~ In other cells -> Nat.iter k round s !! other = s !! other.
Proof.
  induction k as [|k IH]; intros s other Hout; [reflexivity|].
  rewrite Nat.iter_succ. unfold Iteration.round at 1.
  rewrite fold_upd_lookup_outside by exact Hout. apply IH. exact Hout.
Qed.

End Generic.

End IterationFacts.

(** ** Theorems: cell resolver *)

Module ResolverFacts.
Import Py Eval Evaluator Calculator Spec Checks Iteration Invariants MoreExamples.
Import PyFacts EvaluatorFacts FormulaFacts IterationFacts Examples.

Section WithInterpreter.
Context `{Interpreter}.

Lemma parse_cell raw name vals :
  parse_b_input (default EmptyString (raw !! name)) vals = Ok (cell_value raw name vals).
Proof.
  unfold cell_value.
  destruct (parse_b_input_ok (default EmptyString (raw !! name)) vals) as (v & -> & _).
  reflexivity.
Qed.


Lemma resolve_b_cell_step raw acc name :
  resolve_b_cell raw acc name = Ok (step (cell_value raw) acc name).
Proof.
  unfold resolve_b_cell, step, lookup0. rewrite parse_cell. cbn [bind].
  destruct (_ =? _); reflexivity.
Qed.

Lemma for_each_steps raw l : forall acc,
  for_each (resolve_b_cell raw) l acc = Ok (fold_left (step (cell_value raw)) l acc).
Proof.
  induction l as [|n l IH]; intros acc; [reflexivity|].
  cbn [for_each fold_left]. rewrite resolve_b_cell_step. cbn [bind]. apply IH.
Qed.

Lemma resolve_round_steps raw cells s :
  resolve_round raw cells s = Ok (fold_left (step (cell_value raw)) cells (s, false)).
Proof. apply for_each_steps. Qed.

Lemma resolve_round_fst raw cells s r :
  resolve_round raw cells s = Ok r -> r.1 = round (cell_value raw) cells s.
Proof.
  rewrite resolve_round_steps. intros [= <-]. unfold round. apply fold_step_fst.
Qed.

Lemma after_rounds_iter raw cells k : forall s,
  after_rounds raw cells k s = Ok (Nat.iter k (round (cell_value raw) cells) s).
Proof.
  induction k as [|k IH]; intros s; [reflexivity|].
  cbn [after_rounds]. rewrite resolve_round_steps. cbn [bind].
  rewrite IH, fold_step_fst. cbn [fst]. rewrite Nat.iter_succ_r. reflexivity.
Qed.

(** The shape of the [while] loop: it runs [j] rounds, between one and the
    cap; every round before the last reported a change; and when it stops
    short of the cap, a further round at the final store changes nothing. *)
Lemma resolve_loop_runs raw cells : forall remaining attempt s,
  exists j vals,
    resolve_loop raw cells (S remaining) true attempt s = Ok (vals, (attempt + j)%nat)
    /\ (1 <= j <= S remaining)%nat
    /\ after_rounds raw cells j s = Ok vals
    /\ (forall k, (S k < j)%nat ->
          exists sk r, after_rounds raw cells k s = Ok sk
                       /\ resolve_round raw cells sk = Ok (r, true))
    /\ ((j < S remaining)%nat -> resolve_round raw cells vals = Ok (vals, false)).
Proof.
  induction remaining as [|remaining IH]; intros attempt s.
  - exists 1%nat, (fold_left (step (cell_value raw)) cells (s, false)).1.
    cbn [resolve_loop after_rounds]. rewrite resolve_round_steps. cbn [bind].
    replace (attempt + 1)%nat with (S attempt) by lia.
    repeat split; intros; lia.
  - cbn [resolve_loop]. rewrite resolve_round_steps. cbn [bind].
    destruct (fold_left (step (cell_value raw)) cells (s, false)) as [s1 changed] eqn:Hround.
    cbn [fst snd]. destruct changed.
    + destruct (IH (S attempt) s1) as (j & vals & Hloop & Hj & Hafter & Hbefore & Hlast).
      exists (S j), vals.
      cbn [resolve_loop] in Hloop. rewrite Hloop.
      replace (attempt + S j)%nat with (S attempt + j)%nat by lia.
      split; [reflexivity|]. split; [lia|]. split; [|split].
      * cbn [after_rounds]. rewrite resolve_round_steps, Hround. cbn [bind fst]. exact Hafter.
      * intros [|k] Hk.
        -- exists s, s1. split; [reflexivity|]. rewrite resolve_round_steps, Hround. reflexivity.
        -- destruct (Hbefore k ltac:(lia)) as (sk & r & Hsk & Hr).
           exists sk, r. split; [|exact Hr].
           cbn [after_rounds]. rewrite resolve_round_steps, Hround. cbn [bind fst]. exact Hsk.
      * intros Hlt. apply Hlast. lia.
    + assert (Hflag : (fold_left (step (cell_value raw)) cells (s, false)).2 = false)
        by (rewrite Hround; reflexivity).
      destruct (fold_step_unchanged _ _ _ Hflag) as [Hsame _].
      rewrite Hround in Hsame. injection Hsame as ->.
      exists 1%nat, s. replace (attempt + 1)%nat with (S attempt) by lia.
      split; [reflexivity|]. split; [lia|]. split; [|split].
      * cbn [after_rounds]. rewrite resolve_round_steps, Hround. reflexivity.
      * intros k Hk. lia.
      * intros _. rewrite resolve_round_steps, Hround. reflexivity.
Qed.

Lemma substitute_in_order_writes raw order : forall s,
  substitute_in_order raw order s = Ok (fold_left (write (cell_value raw)) order s).
Proof.
  unfold substitute_in_order.
  induction order as [|n order IH]; intros s; [reflexivity|].
  cbn [for_each fold_left]. rewrite parse_cell. cbn [bind]. apply IH.
Qed.

Lemma rounds_outside raw cells k : forall s other,
  ~ In other cells ->
  lookup0 (Nat.iter k (round (cell_value raw) cells) s) other = lookup0 s other.
Proof.
  induction k as [|k IH]; intros s other Hout; [reflexivity|].
  rewrite Nat.iter_succ. unfold round at 1.
  rewrite (fold_updates_outside _ _ (upd_updates _)) by exact Hout.
  apply IH. exact Hout.
Qed.

Lemma depends_on_lower_cell_value raw cells rank :
  depends_on_lower raw cells rank ->
  forall name, In name cells ->
  forall s1 s2, agree_below cells rank (rank name) s1 s2 ->
                cell_value raw name s1 = cell_value raw name s2.
Proof.
  intros Hdep name Hin s1 s2 Hagree. unfold cell_value.
  rewrite (Hdep name Hin s1 s2 Hagree). reflexivity.
Qed.

(** C2.  On a grid of ASCII texts, once step one has converted the A
    cells and left the store [start], resolution of the B cells runs
    between one and five rounds over every B cell, each against the
    current store; every round before the last changed a value; when it
    stops before the cap, a round at the final store changes nothing.
    When the cells depend on one another along chains of depth at most 4
    (depths 0 to 4, whatever their places in the grid), every name ends
    with the value that direct substitution in dependency order gives
    it. *)
Theorem resolution_is_a_bounded_fixed_point (c : calculator) (start : gmap string Z) :
  ascii_grid c = true ->
  resolve_a_cells c = Ok start ->
  let raw := raw_text_dict c in
  let cells := b_cells c in
  exists vals rounds,
    resolve_all c = Ok (vals, rounds)
    /\ (1 <= rounds <= 5)%nat
    /\ after_rounds raw cells rounds start = Ok vals
    /\ (forall k, (S k < rounds)%nat ->
          exists sk r, after_rounds raw cells k start = Ok sk
                       /\ resolve_round raw cells sk = Ok (r, true))
    /\ ((rounds < 5)%nat -> resolve_round raw cells vals = Ok (vals, false))
    /\ forall rank : string -> nat,
         (forall name, In name cells -> (rank name < 5)%nat) ->
         depends_on_lower raw cells rank ->
         exists direct,
           substitute_in_order raw (dependency_order rank cells 5) start = Ok direct
           /\ forall name, lookup0 vals name = lookup0 direct name.
Proof.
  intros _ Hstart raw cells.
  destruct (resolve_loop_runs raw cells 4%nat 0%nat start)
    as (j & vals & Hloop & Hj & Hafter & Hbefore & Hlast).
  exists vals, j. unfold resolve_all, max_attempts. rewrite Hstart. cbn [bind].
  fold raw cells.
  split; [exact Hloop|]. split; [exact Hj|]. split; [exact Hafter|].
  split; [exact Hbefore|]. split; [exact Hlast|].
  intros rank Hdepth Hdep.
  pose proof (depends_on_lower_cell_value raw cells rank Hdep) as Hdepends.
  rewrite substitute_in_order_writes. eexists. split; [reflexivity|].
  rewrite after_rounds_iter in Hafter. injection Hafter as Hvals.
  destruct (direct_fixed (cell_value raw) cells rank Hdepends 5%nat start Hdepth)
    as [Hdfixed Hdout].
  apply (fixed_unique (cell_value raw) cells rank Hdepends).
  - destruct (Nat.eq_dec j 5%nat) as [->|Hne].
    + apply (settled_fixed _ _ rank 5%nat); [exact Hdepth|].
      rewrite <- Hvals. apply settled_rounds. exact Hdepends.
    + specialize (Hlast ltac:(lia)). rewrite resolve_round_steps in Hlast.
      injection Hlast as Hlast.
      assert (Hflag : (fold_left (step (cell_value raw)) cells (vals, false)).2 = false)
        by (rewrite Hlast; reflexivity).
      destruct (fold_step_unchanged _ _ _ Hflag) as [_ Hall].
      intros name Hin. symmetry. apply Hall. exact Hin.
  - exact Hdfixed.
  - intros other Hout. rewrite Hdout by exact Hout.
    rewrite <- Hvals. apply rounds_outside. exact Hout.
Qed.

(** *** The example chain *)

Lemma chain_rank_below name : (chain_rank name < 5)%nat.
Proof. unfold chain_rank. repeat destruct (String.eqb name _); lia. Qed.

(** A cell that adds 1 to one other cell reads that cell alone. *)
Lemma successor_formula_reads target s1 s2 :
  In target ["B0102"; "B0103"; "B0104"; "B0105"] ->
  lookup0 s1 target = lookup0 s2 target ->
  parse_b_input (target ++ "+1") s1 = parse_b_input (target ++ "+1") s2.
Proof.
  intros Hin Heq.
  assert (Hshape : forall s, parse_b_input (target ++ "+1") s
            = except_Exception
                (let* result := eval (str (Z.land (lookup0 s target) 0xFF) ++ "+1") in
                 to_byte result) 0).
  { intros s. destruct Hin as [<-|[<-|[<-|[<-|[]]]]]; reflexivity. }
  rewrite !Hshape, Heq. reflexivity.
Qed.

Lemma chain_depends_on_lower :
  depends_on_lower (raw_text_dict chain_calculator) (b_cells chain_calculator) chain_rank.
Proof.
  intros name Hin s1 s2 Hagree.
  change (b_cells chain_calculator)
    with ["B0101"; "B0102"; "B0103"; "B0104"; "B0105"] in Hin, Hagree.
  destruct Hin as [<-|[<-|[<-|[<-|[<-|[]]]]]].
  - apply (successor_formula_reads "B0102"); [simpl; tauto|].
    apply Hagree. right. apply Nat.ltb_lt. reflexivity.
  - apply (successor_formula_reads "B0103"); [simpl; tauto|].
    apply Hagree. right. apply Nat.ltb_lt. reflexivity.
  - apply (successor_formula_reads "B0104"); [simpl; tauto|].
    apply Hagree. right. apply Nat.ltb_lt. reflexivity.
  - apply (successor_formula_reads "B0105"); [simpl; tauto|].
    apply Hagree. right. apply Nat.ltb_lt. reflexivity.
  - reflexivity.
Qed.

(** *** Values stored by a pass *)

Lemma cell_names_prefix prefix rows count name :
  In name (cell_names prefix rows count) -> exists rest, name = prefix ++ rest.
Proof.
  unfold cell_names. rewrite in_flat_map. intros (row & _ & Hin).
  apply in_map_iff in Hin as (col & <- & _). unfold generate_var_name. eauto.
Qed.

Lemma a_cell_is_no_b_cell rows_a count_a rows_b count_b name :
  In name (cell_names "A" rows_a count_a) -> ~ In name (cell_names "B" rows_b count_b).
Proof.
  intros Ha Hb.
  apply cell_names_prefix in Ha as [ra ->]. apply cell_names_prefix in Hb as [rb Hb].
  change ("A" ++ ra) with (String "A" ra) in Hb.
  change ("B" ++ rb) with (String "B" rb) in Hb. discriminate.
Qed.




(** Step one, cell by cell: it returns when every text converts, and then
    every name visited holds the number its text spells. *)
Lemma resolve_a_cells_lookup raw l name : forall vals s,
  for_each (resolve_a_cell raw) l vals = Ok s ->
  In name l
  \/ (exists v, decimal_value (default EmptyString (raw !! name)) = Ok v
                /\ vals !! name = Some v) ->
  exists v, decimal_value (default EmptyString (raw !! name)) = Ok v /\ s !! name = Some v.
Proof.
  induction l as [|n l IH]; intros vals s Hs Hn.
  - injection Hs as <-. destruct Hn as [[]|Hv]. exact Hv.
  - cbn [for_each] in Hs. unfold resolve_a_cell at 1 in Hs.
    destruct (decimal_value (default EmptyString (raw !! n))) as [vn|e] eqn:Hvn;
      cbn [bind] in Hs; [|discriminate].
    apply (IH _ _ Hs). destruct (decide (n = name)) as [->|Hne].
    + right. exists vn. split; [exact Hvn | apply lookup_insert_eq].
    + destruct Hn as [[Heq|Hin]|(v & Hv & Hlook)]; [congruence | left; exact Hin|].
      right. exists v. split; [exact Hv|]. rewrite lookup_insert_ne by exact Hne. exact Hlook.
Qed.

Lemma resolve_a_cells_outside raw l name : forall vals s,
  for_each (resolve_a_cell raw) l vals = Ok s -> ~ In name l -> s !! name = vals !! name.
Proof.
  induction l as [|n l IH]; intros vals s Hs Hout.
  - injection Hs as <-. reflexivity.
  - cbn [for_each] in Hs. unfold resolve_a_cell at 1 in Hs.
    destruct (decimal_value (default EmptyString (raw !! n))) as [vn|e];
      cbn [bind] in Hs; [|discriminate].
    rewrite (IH _ _ Hs) by (intros Hin; apply Hout; right; exact Hin).
    apply lookup_insert_ne. intros ->. apply Hout. left. reflexivity.
Qed.



(** The pass from the store that step one leaves. *)
Lemma pass_runs (c : calculator) (start : gmap string Z) :
  resolve_a_cells c = Ok start ->
  exists j,
    (1 <= j <= 5)%nat
    /\ resolve_all c
       = Ok (Nat.iter j (round (cell_value (raw_text_dict c)) (b_cells c)) start, j)
    /\ update_all_var_values c
       = Ok (set_values c (Nat.iter j (round (cell_value (raw_text_dict c)) (b_cells c)) start))
    /\ ((j < 5)%nat ->
        resolve_round (raw_text_dict c) (b_cells c)
          (Nat.iter j (round (cell_value (raw_text_dict c)) (b_cells c)) start)
        = Ok (Nat.iter j (round (cell_value (raw_text_dict c)) (b_cells c)) start, false)).
Proof.
  intros Hstart.
  destruct (resolve_loop_runs (raw_text_dict c) (b_cells c) 4%nat 0%nat start)
    as (j & vals & Hloop & Hj & Hafter & _ & Hlast).
  rewrite after_rounds_iter in Hafter. injection Hafter as Hvals. subst vals.
  exists j. split; [exact Hj|].
  unfold update_all_var_values, resolve_all, max_attempts. rewrite Hstart. cbn [bind].
  rewrite Hloop. split; [reflexivity|]. split; [reflexivity | exact Hlast].
Qed.


(** C8, on the code as it is.  After B0101 = B0102 + A0102 has resolved to
    5 + 7, shrinking the B columns to one and then the A columns to one
    leaves the raw texts and the values of B0102 and A0102 in both
    dictionaries, although neither cell is in the grid any more, and
    B0101 still resolves to 12. *)
Theorem column_shrink_keeps_stale_entries :
  exists c1 c2 c3,
    update_all_var_values wide_calculator = Ok c1
    /\ var_value_dict c1 !! "B0101" = Some 12
    /\ on_hex_col_change c1 1 = Ok c2
    /\ b_cells c2 = ["B0101"]
    /\ raw_text_dict c2 !! "B0102" = Some "05"
    /\ var_value_dict c2 !! "B0102" = Some 5
    /\ on_dec_col_change c2 1 = Ok c3
    /\ cell_names "A" (row_widgets c3) (dec_col_count c3) = ["A0101"]
    /\ raw_text_dict c3 !! "A0102" = Some "7"
    /\ var_value_dict c3 !! "A0102" = Some 7
    /\ var_value_dict c3 !! "B0101" = Some 12.
Proof.
  eexists _, _, _.
  split; [reflexivity|]. split; [reflexivity|].
  split; [reflexivity|]. split; [reflexivity|].
  split; [reflexivity|]. split; [reflexivity|].
  split; [reflexivity|]. split; [reflexivity|].
  split; [reflexivity|]. split; reflexivity.
Qed.

(** *** Removing a row *)

Lemma fold_delete_lookup {V} (l : list string) name : forall m : gmap string V,
  In name l \/ m !! name = None ->
  fold_left (fun d k => delete k d) l m !! name = None.
Proof.
  induction l as [|k l IH]; intros m Hn.
  - destruct Hn as [[]|Hm]. exact Hm.
  - simpl. apply IH. destruct (decide (k = name)) as [->|Hne].
    + right. apply lookup_delete_eq.
    + destruct Hn as [[Heq|Hin]|Hm]; [congruence | left; exact Hin|].
      right. rewrite lookup_delete_ne by exact Hne. exact Hm.
Qed.

(** [remove_calc_row] deletes from both dictionaries every name of the row
    that has a raw text. *)
Lemma remove_calc_row_prunes (c : calculator) (row_num : nat) (name : string) :
  In row_num (row_widgets c) ->
  is_Some (raw_text_dict c !! name) ->
  startswith name ("A" ++ format_02d row_num)
  || startswith name ("B" ++ format_02d row_num) = true ->
  raw_text_dict (remove_calc_row c row_num) !! name = None
  /\ var_value_dict (remove_calc_row c row_num) !! name = None.
Proof.
  intros Hrow [text Htext] Hprefix. unfold remove_calc_row.
  assert (Hex : existsb (Nat.eqb row_num) (row_widgets c) = true).
  { apply existsb_exists. exists row_num. split; [exact Hrow | apply Nat.eqb_refl]. }
  rewrite Hex. cbn [raw_text_dict var_value_dict].
  assert (Hin : In name
            (List.filter
               (fun k => startswith k ("A" ++ format_02d row_num)
                         || startswith k ("B" ++ format_02d row_num))
               (map fst (map_to_list (raw_text_dict c))))).
  { apply filter_In. split; [|exact Hprefix].
    apply in_map_iff. exists (name, text). split; [reflexivity|].
    apply list_elem_of_In, elem_of_map_to_list. exact Htext. }
  split; apply fold_delete_lookup; left; exact Hin.
Qed.

End WithInterpreter.

Lemma resolution_is_a_bounded_fixed_point_witness :
  ascii_grid chain_calculator = true
  /\ resolve_a_cells chain_calculator = Ok ∅
  /\ (forall name, In name (b_cells chain_calculator) -> (chain_rank name < 5)%nat)
  /\ depends_on_lower (H := refusing) (raw_text_dict chain_calculator)
       (b_cells chain_calculator) chain_rank
  /\ exists vals rounds direct,
       resolve_all (H := refusing) chain_calculator = Ok (vals, rounds)
       /\ substitute_in_order (H := refusing) (raw_text_dict chain_calculator)
            (dependency_order chain_rank (b_cells chain_calculator) 5) ∅ = Ok direct
       /\ forall name, lookup0 vals name = lookup0 direct name.
Proof.
  assert (Hascii : ascii_grid chain_calculator = true) by reflexivity.
  assert (Hstart : resolve_a_cells chain_calculator = Ok ∅) by reflexivity.
  assert (H1 : forall name, In name (b_cells chain_calculator) -> (chain_rank name < 5)%nat)
    by (intros name _; apply chain_rank_below).
  pose proof (chain_depends_on_lower (H := refusing)) as H2.
  split; [exact Hascii|]. split; [exact Hstart|]. split; [exact H1|]. split; [exact H2|].
  destruct (resolution_is_a_bounded_fixed_point (H := refusing) chain_calculator ∅
              Hascii Hstart)
    as (vals & rounds & Hall & _ & _ & _ & _ & Hconv).
  destruct (Hconv chain_rank H1 H2) as (direct & Hdirect & Hsame).
  exists vals, rounds, direct. split; [exact Hall|]. split; [exact Hdirect | exact Hsame].
Defined.



End ResolverFacts.

(** ** Further theorems: row codec *)

Module CrcMore.
Import Crc CrcFacts Display.

Lemma mask_is_byte b : is_byte (mask b).
Proof. unfold mask, is_byte. apply PyFacts.land_255_range. Qed.

Lemma mask_mod b : mask b = b mod 256.
Proof. apply PyFacts.land_255. Qed.

Lemma feed_mask reg b : crc_feed reg (mask b) = crc_feed reg b.
Proof.
  unfold crc_feed. f_equal. f_equal. unfold mask.
  rewrite <- Z.land_assoc. reflexivity.
Qed.

Lemma fold_feed_mask data : forall reg,
  fold_left crc_feed (map mask data) reg = fold_left crc_feed data reg.
Proof.
  induction data as [|b rest IH]; intros reg; [reflexivity|].
  simpl. rewrite feed_mask. apply IH.
Qed.

Lemma Forall_mask data : Forall is_byte (map mask data).
Proof. induction data; simpl; constructor; [apply mask_is_byte | assumption]. Qed.

(** The register after any list of integers is that of the masked list, and
    it fits 16 bits. *)
Lemma register_of_integers data :
  fold_left crc_feed data 0xFFFF = ref_register 0xFFFF (map mask data)
  /\ 0 <= ref_register 0xFFFF (map mask data) < 65536.
Proof.
  rewrite <- fold_feed_mask.
  apply fold_is_ref_register; [apply Forall_mask | lia].
Qed.

Lemma crc16_modbus_of_register data order :
  crc16_modbus data order =
  let reg := ref_register 0xFFFF (map mask data) in
  if String.eqb order "little" then [reg mod 256; reg / 256] else [reg / 256; reg mod 256].
Proof.
  destruct (register_of_integers data) as [Hf Hr].
  destruct (register_bytes _ Hr) as (Hlo & Hhi & _ & _).
  unfold crc16_modbus. rewrite Hf, Hlo, Hhi. reflexivity.
Qed.

(** X1.  [crc16_modbus] accepts any integers: each is masked to its low
    byte, the two results are bytes, ['little'] puts the low byte first and
    any other order string the high byte first. *)
Theorem crc16_modbus_on_any_integers (data : list Z) (order : string) :
  exists lo hi,
    is_byte lo /\ is_byte hi
    /\ crc16_modbus data "little" = [lo; hi]
    /\ (order <> "little" -> crc16_modbus data order = [hi; lo])
    /\ crc16_modbus (map (fun b => b mod 256) data) order = crc16_modbus data order.
Proof.
  destruct (register_of_integers data) as [_ Hr].
  destruct (register_bytes _ Hr) as (_ & _ & Hblo & Hbhi).
  exists (ref_register 0xFFFF (map mask data) mod 256),
         (ref_register 0xFFFF (map mask data) / 256).
  split; [exact Hblo|]. split; [exact Hbhi|]. split; [|split].
  - rewrite crc16_modbus_of_register. reflexivity.
  - intros Hne. rewrite crc16_modbus_of_register. cbn zeta.
    destruct (String.eqb_spec order "little") as [Heq|_]; [contradiction | reflexivity].
  - rewrite !crc16_modbus_of_register. cbn zeta.
    replace (map mask (map (fun b => b mod 256) data)) with (map mask data); [reflexivity|].
    rewrite map_map. apply map_ext. intros b.
    rewrite !mask_mod. symmetry. apply Z.mod_mod. lia.
Qed.

Lemma ref_step_double k : ref_step (2 * k) = k.
Proof.
  unfold ref_step. rewrite Z.odd_mul. cbn [Z.odd andb].
  rewrite Z.mul_comm, Z.div_mul by lia. reflexivity.
Qed.

Lemma ref_step_zero : ref_step 0 = 0.
Proof. reflexivity. Qed.

(** Feeding the low byte of the register shifts the high byte down. *)
Lemma feed_low_byte reg :
  0 <= reg < 65536 -> ref_byte reg (reg mod 256) = reg / 256.
Proof.
  intros Hr. unfold ref_byte, ref_xor_low. rewrite Z.lxor_nilpotent, Z.add_0_r.
  replace (256 * (reg / 256)) with (2 * (2 * (2 * (2 * (2 * (2 * (2 * (2 * (reg / 256)))))))))
    by lia.
  rewrite !ref_step_double. reflexivity.
Qed.

(** Feeding a byte to a register equal to it clears the register. *)
Lemma feed_same_byte h : 0 <= h < 256 -> ref_byte h h = 0.
Proof.
  intros Hh. unfold ref_byte, ref_xor_low.
  rewrite Z.div_small, Z.mod_small, Z.lxor_nilpotent by lia.
  reflexivity.
Qed.

Lemma ref_register_app a : forall reg b,
  ref_register reg (a ++ b) = ref_register (ref_register reg a) b.
Proof. induction a as [|x a IH]; intros reg b; [reflexivity|]. simpl. apply IH. Qed.

Lemma frame_checksum (data : list Z) (order : string) :
  crc16_modbus (data ++ crc16_modbus data "little") order = [0; 0].
Proof.
  destruct (register_of_integers data) as [_ Hr].
  destruct (register_bytes _ Hr) as (_ & _ & Hblo & Hbhi).
  rewrite (crc16_modbus_of_register data "little"). cbn zeta. cbn [String.eqb Ascii.eqb Bool.eqb].
  set (reg := ref_register 0xFFFF (map mask data)) in *.
  rewrite crc16_modbus_of_register. cbn zeta.
  rewrite map_app, ref_register_app. fold reg. cbn [map ref_register].
  unfold mask. rewrite (land_byte _ Hblo), (land_byte _ Hbhi).
  rewrite (feed_low_byte reg Hr).
  unfold is_byte in Hbhi. rewrite feed_same_byte by lia.
  destruct (String.eqb order "little"); reflexivity.
Qed.

(** X2.  A frame made of any data followed by its checksum, low byte
    first, has checksum 00 00 in either order. *)
Theorem crc16_modbus_of_frame_is_zero (data : list Z) (order : string) :
  crc16_modbus (data ++ crc16_modbus data "little") order = [0; 0].
Proof. apply frame_checksum. Qed.

End CrcMore.

(** ** Further theorems: cell names *)

Module NameFacts.
Import Py Evaluator Calculator Checks MoreChecks PyFacts HexFacts FormulaFacts.

Lemma format_02d_all : checked_below format_02d_checked 100 = true.
Proof. vm_compute. reflexivity. Qed.

(** Below 100, [f"{n:02d}"] is two digits that spell [n]. *)
Lemma format_02d_two n :
  (n < 100)%nat ->
  exists a b,
    format_02d n = String a (String b EmptyString)
    /\ is_digit a = true /\ is_digit b = true
    /\ int_of_digits (String a (String b EmptyString)) = Z.of_nat n.
Proof.
  intros Hn.
  pose proof (checked_below_sound _ _ format_02d_all (Z.of_nat n) ltac:(lia)) as Hc.
  unfold format_02d_checked in Hc. rewrite Nat2Z.id in Hc.
  destruct (format_02d n) as [|a [|b [|? ?]]]; try discriminate.
  apply andb_prop in Hc as [Hc H3]. apply andb_prop in Hc as [H1 H2].
  apply Z.eqb_eq in H3. exists a, b. auto.
Qed.

Lemma generate_var_name_shape x row col :
  (row < 100)%nat -> (col < 100)%nat ->
  exists a b c d,
    generate_var_name (String x EmptyString) row col
    = String x (String a (String b (String c (String d EmptyString))))
    /\ int_of_digits (String a (String b EmptyString)) = Z.of_nat row
    /\ int_of_digits (String c (String d EmptyString)) = Z.of_nat col
    /\ is_digit a = true /\ is_digit b = true /\ is_digit c = true /\ is_digit d = true.
Proof.
  intros Hr Hc.
  destruct (format_02d_two row Hr) as (a & b & Hab & Ha & Hb & Hrow).
  destruct (format_02d_two col Hc) as (c & d & Hcd & Hc' & Hd & Hcol).
  exists a, b, c, d. unfold generate_var_name. rewrite Hab, Hcd.
  repeat split; assumption.
Qed.

Lemma generate_var_name_inj x y row col row' col' :
  (row < 100)%nat -> (col < 100)%nat -> (row' < 100)%nat -> (col' < 100)%nat ->
  generate_var_name (String x EmptyString) row col
  = generate_var_name (String y EmptyString) row' col' ->
  x = y /\ row = row' /\ col = col'.
Proof.
  intros Hr Hc Hr' Hc'.
  destruct (generate_var_name_shape x row col Hr Hc)
    as (a & b & c & d & -> & Hrow & Hcol & _).
  destruct (generate_var_name_shape y row' col' Hr' Hc')
    as (a' & b' & c' & d' & -> & Hrow' & Hcol' & _).
  intros [= -> -> -> -> ->]. split; [reflexivity|]. lia.
Qed.

(** X3.  With a one-letter prefix and row and column below 100, a cell name
    has five characters and determines its prefix, row and column. *)
Theorem generate_var_name_injective (x y : ascii) (row col row' col' : nat) :
  (row < 100)%nat -> (col < 100)%nat -> (row' < 100)%nat -> (col' < 100)%nat ->
  String.length (generate_var_name (String x EmptyString) row col) = 5%nat
  /\ (generate_var_name (String x EmptyString) row col
      = generate_var_name (String y EmptyString) row' col' ->
      x = y /\ row = row' /\ col = col').
Proof.
  intros Hr Hc Hr' Hc'. split.
  - destruct (generate_var_name_shape x row col Hr Hc) as (a & b & c & d & -> & _).
    reflexivity.
  - apply generate_var_name_inj; assumption.
Qed.

Lemma generate_var_name_injective_witness :
  (1 < 100)%nat /\ (6 < 100)%nat
  /\ String.length (generate_var_name "B" 1 6) = 5%nat.
Proof.
  assert (H1 : (1 < 100)%nat) by lia. assert (H6 : (6 < 100)%nat) by lia.
  split; [exact H1|]. split; [exact H6|].
  exact (proj1 (generate_var_name_injective "B" "B" 1 6 1 6 H1 H6 H1 H6)).
Defined.

Lemma cell_names_in prefix rows count name :
  In name (cell_names prefix rows count) <->
  exists row col, In row rows /\ (1 <= col <= count)%nat
                  /\ name = generate_var_name prefix row col.
Proof.
  unfold cell_names, columns. rewrite in_flat_map. split.
  - intros (row & Hrow & Hin). apply in_map_iff in Hin as (col & <- & Hcol).
    apply in_seq in Hcol. exists row, col. repeat split; [exact Hrow | lia | lia].
  - intros (row & col & Hrow & Hcol & ->). exists row. split; [exact Hrow|].
    apply in_map, in_seq. lia.
Qed.

Lemma cell_names_NoDup x rows count :
  List.NoDup rows -> Forall (fun r => (r < 100)%nat) rows -> (count < 100)%nat ->
  List.NoDup (cell_names (String x EmptyString) rows count).
Proof.
  intros Hnd Hrows Hcount.
  induction rows as [|row rows IH]; [constructor|].
  inversion Hnd as [|? ? Hnotin Hnd']; subst.
  inversion Hrows as [|? ? Hrow Hrows']; subst.
  change (cell_names (String x EmptyString) (row :: rows) count)
    with (map (generate_var_name (String x EmptyString) row) (columns count)
          ++ cell_names (String x EmptyString) rows count)%list.
  apply List.NoDup_app.
  - apply Finite.Injective_map_NoDup_in; [|apply seq_NoDup].
    intros c1 c2 H1 H2 Heq. unfold columns in H1, H2.
    apply in_seq in H1. apply in_seq in H2.
    pose proof (generate_var_name_inj x x row c1 row c2
                  ltac:(lia) ltac:(lia) ltac:(lia) ltac:(lia) Heq). tauto.
  - apply IH; assumption.
  - intros name H1 H2.
    apply in_map_iff in H1 as (c1 & <- & Hc1). unfold columns in Hc1. apply in_seq in Hc1.
    apply cell_names_in in H2 as (row' & c2 & Hrow' & Hc2 & Heq).
    rewrite List.Forall_forall in Hrows'. specialize (Hrows' row' Hrow').
    destruct (generate_var_name_inj x x row c1 row' c2
                ltac:(lia) ltac:(lia) Hrows' ltac:(lia) Heq) as (_ & -> & _).
    contradiction.
Qed.

(** X4.  In a grid whose rows are distinct and below 100, with fewer than
    100 columns of each class, no two cells share a name. *)
Theorem grid_names_are_distinct (rows : list nat) (dec_cols hex_cols : nat) :
  List.NoDup rows -> Forall (fun r => (r < 100)%nat) rows ->
  (dec_cols < 100)%nat -> (hex_cols < 100)%nat ->
  List.NoDup (cell_names "A" rows dec_cols ++ cell_names "B" rows hex_cols)%list.
Proof.
  intros Hnd Hrows Hdec Hhex. apply List.NoDup_app.
  - apply cell_names_NoDup; assumption.
  - apply cell_names_NoDup; assumption.
  - intros name Ha. eapply ResolverFacts.a_cell_is_no_b_cell. exact Ha.
Qed.

Lemma grid_names_are_distinct_witness :
  List.NoDup [1; 2]%nat /\ Forall (fun r => (r < 100)%nat) [1; 2]%nat
  /\ (4 < 100)%nat /\ (20 < 100)%nat
  /\ List.NoDup (cell_names "A" [1; 2]%nat 4 ++ cell_names "B" [1; 2]%nat 20)%list.
Proof.
  assert (H1 : List.NoDup [1; 2]%nat).
  { constructor; [simpl; lia|]. constructor; [simpl; tauto | constructor]. }
  assert (H2 : Forall (fun r => (r < 100)%nat) [1; 2]%nat).
  { constructor; [lia|]. constructor; [lia | constructor]. }
  assert (H3 : (4 < 100)%nat) by lia. assert (H4 : (20 < 100)%nat) by lia.
  split; [exact H1|]. split; [exact H2|]. split; [exact H3|]. split; [exact H4|].
  exact (grid_names_are_distinct [1; 2]%nat 4 20 H1 H2 H3 H4).
Defined.

End NameFacts.

(** ** Further theorems: expression evaluator *)

Module EvaluatorMore.
Import Py Eval Evaluator Spec Checks MoreChecks Display.
Import PyFacts HexFacts EvaluatorFacts FormulaFacts.

(** *** The store is read through [get_var_value] alone *)

Lemma sub_vars_ext r1 r2 :
  (forall v, r1 v = r2 v) ->
  forall s before, sub_vars r1 before s = sub_vars r2 before s.
Proof.
  intros Hr s.
  remember (String.length s) as n eqn:Hn. revert s Hn.
  induction n as [n IH] using lt_wf_ind. intros s Hn before.
  destruct s as [|c r]; [reflexivity|].
  assert (Hkeep : String c (sub_vars r1 (String c before) r)
                  = String c (sub_vars r2 (String c before) r)).
  { f_equal. apply (IH (String.length r)); [simpl in Hn; lia | reflexivity]. }
  destruct r as [|d1 [|d2 [|d3 [|d4 r']]]]; try exact Hkeep.
  cbn [sub_vars].
  destruct (is_AB c && is_digit d1 && is_digit d2 && is_digit d3 && is_digit d4
            && negb (preceded_by_0X before)); [|exact Hkeep].
  rewrite Hr. f_equal. apply (IH (String.length r')); [simpl in Hn; lia | reflexivity].
Qed.

Lemma scan_group_rel {A B} (R : A -> B -> Prop) nm1 nm2 om1 om2 :
  R (nm1 tt) (nm2 tt) ->
  forall t inner_rev,
    (forall inner t', (String.length t' < String.length t)%nat ->
                      R (om1 inner t') (om2 inner t')) ->
    R (scan_group nm1 om1 inner_rev t) (scan_group nm2 om2 inner_rev t).
Proof.
  intros Hno. induction t as [|x t IH]; intros inner_rev Hon; simpl; [exact Hno|].
  destruct (Ascii.eqb x ")").
  - destruct inner_rev; [exact Hno|]. apply Hon. simpl. lia.
  - apply IH. intros inner t' Hlt. apply Hon. simpl. lia.
Qed.

Lemma sub_high_low_ext repl1 repl2 :
  (forall c e, repl1 c e = repl2 c e) ->
  forall s, sub_high_low repl1 s = sub_high_low repl2 s.
Proof.
  intros Hrepl s.
  remember (String.length s) as n eqn:Hn. revert s Hn.
  induction n as [n IH] using lt_wf_ind. intros s Hn.
  destruct s as [|c r]; [reflexivity|].
  assert (Hkeep : (let* t := sub_high_low repl1 r in Ok (String c t))
                  = (let* t := sub_high_low repl2 r in Ok (String c t))).
  { rewrite (IH (String.length r) ltac:(simpl in Hn; lia) r eq_refl). reflexivity. }
  simpl. destruct (is_symbol c); [|exact Hkeep].
  destruct r as [|p r1]; [exact Hkeep|].
  destruct (Ascii.eqb_spec p "("%char) as [->|Hp].
  - apply (scan_group_rel eq); [exact Hkeep|].
    intros inner t' Hlt. rewrite Hrepl.
    rewrite (IH (String.length t') ltac:(simpl in Hn, Hlt; lia) t' eq_refl). reflexivity.
  - destruct p as [[] [] [] [] [] [] [] []]; try exact Hkeep. congruence.
Qed.

Section WithInterpreter.
Context `{Interpreter}.

Lemma parse_b_input_reads s1 s2 :
  (forall name, get_var_value name s1 = get_var_value name s2) ->
  forall text, parse_b_input text s1 = parse_b_input text s2.
Proof.
  intros Hget text.
  assert (Hsub : forall t, substitute_vars t s1 = substitute_vars t s2).
  { intros t. unfold substitute_vars. apply sub_vars_ext. intros v. rewrite Hget. reflexivity. }
  assert (Hhl : forall c e, parse_high_low_hex c e s1 = parse_high_low_hex c e s2).
  { intros c e. unfold parse_high_low_hex, high_low_body, high_low_value.
    rewrite Hsub. reflexivity. }
  assert (Hform : forall t, parse_b_formula t s1 = parse_b_formula t s2).
  { intros t. unfold parse_b_formula, formula_body, formula_text, extract_high_low.
    rewrite (sub_high_low_ext _ _ Hhl).
    destruct (sub_high_low _ t); cbn [bind]; [rewrite Hsub|]; reflexivity. }
  unfold parse_b_input. rewrite Hform, Hget. reflexivity.
Qed.

Lemma get_var_value_masked name (vals : gmap string Z) :
  get_var_value name (mask <$> vals) = get_var_value name vals.
Proof.
  unfold get_var_value. rewrite lookup_fmap.
  destruct (vals !! upper (strip name)) as [v|]; [|reflexivity].
  change (Z.land (Z.land v 0xFF) 0xFF = Z.land v 0xFF).
  rewrite <- Z.land_assoc. reflexivity.
Qed.

(** X5.  A B text is evaluated the same against a store and against the
    store with every value reduced to its low byte: of a stored value only
    the low byte is ever seen. *)
Theorem evaluation_sees_low_bytes_only (text : string) (vals : gmap string Z) :
  parse_b_input text (mask <$> vals) = parse_b_input text vals.
Proof. apply parse_b_input_reads. intros name. apply get_var_value_masked. Qed.

End WithInterpreter.

End EvaluatorMore.


(** ** Further theorems: letter case and the two-digit test *)

Module CaseFacts.
Import Py Eval Evaluator Spec Checks MoreChecks Display.
Import PyFacts HexFacts EvaluatorFacts FormulaFacts.

Lemma upper_chars_checked : forallb upper_char_checked all_ascii = true.
Proof. vm_compute. reflexivity. Qed.

Lemma name_chars_checked : forallb name_char_checked all_ascii = true.
Proof. vm_compute. reflexivity. Qed.

Lemma upper_char_facts c :
  is_space (upper_char c) = is_space c
  /\ is_formula_char (upper_char c) = is_formula_char c
  /\ is_symbol (upper_char c) = is_symbol c
  /\ Ascii.eqb (upper_char c) "(" = Ascii.eqb c "("
  /\ Ascii.eqb (upper_char c) ")" = Ascii.eqb c ")"
  /\ upper_char (upper_char c) = upper_char c
  /\ (is_symbol c = true -> upper_char c = c)
  /\ hex_value (upper_char c) = hex_value c.
Proof.
  pose proof (for_all_ascii _ upper_chars_checked c) as Hc.
  unfold upper_char_checked in Hc.
  repeat (apply andb_prop in Hc; destruct Hc as [Hc ?]).
  repeat split;
    try (apply Bool.eqb_prop; assumption).
  - apply Ascii.eqb_eq. assumption.
  - intros Hs. rewrite Hs in *. apply Ascii.eqb_eq. assumption.
  - destruct (hex_value (upper_char c)), (hex_value c); try discriminate; [|reflexivity].
    f_equal. apply Z.eqb_eq. assumption.
Qed.

Lemma upper_space c : is_space (upper_char c) = is_space c.
Proof. destruct (upper_char_facts c) as (? & ? & ? & ? & ? & ? & ? & ?); assumption. Qed.

Lemma upper_formula_char c : is_formula_char (upper_char c) = is_formula_char c.
Proof. destruct (upper_char_facts c) as (? & ? & ? & ? & ? & ? & ? & ?); assumption. Qed.

Lemma upper_symbol c : is_symbol (upper_char c) = is_symbol c.
Proof. destruct (upper_char_facts c) as (? & ? & ? & ? & ? & ? & ? & ?); assumption. Qed.

Lemma upper_closing c : Ascii.eqb (upper_char c) ")" = Ascii.eqb c ")".
Proof. destruct (upper_char_facts c) as (? & ? & ? & ? & ? & ? & ? & ?); assumption. Qed.

Lemma upper_char_idem c : upper_char (upper_char c) = upper_char c.
Proof. destruct (upper_char_facts c) as (? & ? & ? & ? & ? & ? & ? & ?); assumption. Qed.

Lemma upper_of_symbol c : is_symbol c = true -> upper_char c = c.
Proof. destruct (upper_char_facts c) as (? & ? & ? & ? & ? & ? & ? & ?); assumption. Qed.

Lemma hex_value_upper c : hex_value (upper_char c) = hex_value c.
Proof. destruct (upper_char_facts c) as (? & ? & ? & ? & ? & ? & ? & ?); assumption. Qed.

Lemma upper_app a b : upper (a ++ b) = upper a ++ upper b.
Proof.
  induction a as [|c a IH]; [reflexivity|].
  rewrite append_cons. cbn [upper]. rewrite IH, append_cons. reflexivity.
Qed.

Lemma upper_upper s : upper (upper s) = upper s.
Proof.
  induction s as [|c r IH]; [reflexivity|]. cbn [upper].
  rewrite IH, upper_char_idem. reflexivity.
Qed.

Lemma upper_length s : String.length (upper s) = String.length s.
Proof. induction s as [|c r IH]; [reflexivity|]. cbn [upper String.length]. rewrite IH. reflexivity. Qed.

Lemma lstrip_upper s : lstrip (upper s) = upper (lstrip s).
Proof.
  induction s as [|c r IH]; [reflexivity|]. cbn [upper lstrip].
  rewrite upper_space.
  destruct (is_space c); [exact IH | reflexivity].
Qed.

Lemma rstrip_upper s : rstrip (upper s) = upper (rstrip s).
Proof.
  induction s as [|c r IH]; [reflexivity|]. cbn [upper rstrip].
  rewrite IH, upper_space.
  destruct (rstrip r); [destruct (is_space c)|]; reflexivity.
Qed.

Lemma strip_upper s : strip (upper s) = upper (strip s).
Proof. unfold strip. rewrite lstrip_upper, rstrip_upper. reflexivity. Qed.

Lemma any_formula_char_upper s :
  any_char is_formula_char (upper s) = any_char is_formula_char s.
Proof.
  induction s as [|c r IH]; [reflexivity|]. cbn [upper any_char].
  rewrite IH, upper_formula_char. reflexivity.
Qed.

Lemma hex_pair_value_upper t : hex_pair_value (upper t) = hex_pair_value t.
Proof.
  destruct t as [|a [|b [|c r]]]; try reflexivity. cbn [upper hex_pair_value].
  rewrite !hex_value_upper.
  reflexivity.
Qed.

Lemma classify_upper t : classify (upper t) = classify t.
Proof.
  unfold classify. rewrite strip_upper, any_formula_char_upper.
  destruct (strip t) as [|a [|b [|c r]]]; reflexivity.
Qed.

Lemma rev_onto_upper s acc : rev_onto (upper s) (upper acc) = upper (rev_onto s acc).
Proof.
  revert acc. induction s as [|c r IH]; intros acc; [reflexivity|].
  cbn [upper rev_onto]. rewrite <- IH. reflexivity.
Qed.

Lemma scan_group_upper {A B} (R : A -> B -> Prop) nm1 nm2 om1 om2 :
  R (nm1 tt) (nm2 tt) ->
  forall t inner_rev,
    (forall inner t', (String.length t' < String.length t)%nat ->
                      R (om1 (upper inner) (upper t')) (om2 inner t')) ->
    R (scan_group nm1 om1 (upper inner_rev) (upper t)) (scan_group nm2 om2 inner_rev t).
Proof.
  intros Hno. induction t as [|x t IH]; intros inner_rev Hon; [exact Hno|].
  cbn [upper scan_group].
  rewrite upper_closing.
  destruct (Ascii.eqb x ")").
  - destruct inner_rev as [|i ir]; [exact Hno|].
    change (upper (String i ir)) with (String (upper_char i) (upper ir)).
    cbv iota. change (String (upper_char i) (upper ir)) with (upper (String i ir)).
    change EmptyString with (upper EmptyString) at 1.
    rewrite rev_onto_upper. apply Hon. simpl. lia.
  - apply (IH (String x inner_rev)). intros inner t' Hlt. apply Hon. simpl. lia.
Qed.

Lemma sub_high_low_upper repl :
  (forall c e, exists out, repl c e = Ok out) ->
  (forall c e, repl c (upper e) = repl c e) ->
  forall s, same_upper (sub_high_low repl (upper s)) (sub_high_low repl s).
Proof.
  intros Htot Hrepl s.
  remember (String.length s) as n eqn:Hn. revert s Hn.
  induction n as [n IH] using lt_wf_ind. intros s Hn.
  destruct s as [|c r]; [exists EmptyString, EmptyString; auto|].
  assert (Hkeep : same_upper
                    (let* t := sub_high_low repl (upper r) in Ok (String (upper_char c) t))
                    (let* t := sub_high_low repl r in Ok (String c t))).
  { destruct (IH (String.length r) ltac:(simpl in Hn; lia) r eq_refl)
      as (a & b & -> & -> & Hab).
    exists (String (upper_char c) a), (String c b). cbn [bind upper].
    rewrite Hab, upper_char_idem.
    auto. }
  cbn [upper sub_high_low].
  rewrite upper_symbol.
  destruct (is_symbol c) eqn:Hsym; [|exact Hkeep].
  rewrite (upper_of_symbol c Hsym) in *.
  destruct r as [|p r1]; [exact Hkeep|].
  destruct (Ascii.eqb_spec p "("%char) as [->|Hp].
  - change (upper (String "(" r1)) with (String "("%char (upper r1)) in *. cbv iota.
    change EmptyString with (upper EmptyString) at 1.
    apply (scan_group_upper same_upper); [exact Hkeep|].
    intros inner t' Hlt. rewrite Hrepl.
    destruct (Htot c inner) as [out ->]. cbn [bind].
    destruct (IH (String.length t') ltac:(simpl in Hn, Hlt; lia) t' eq_refl)
      as (a & b & -> & -> & Hab).
    exists (out ++ a), (out ++ b). cbn [bind]. rewrite !upper_app, Hab. auto.
  - change (upper (String p r1)) with (String (upper_char p) (upper r1)) in *.
    destruct p as [[] [] [] [] [] [] [] []]; try exact Hkeep. congruence.
Qed.

Section WithInterpreter.
Context `{Interpreter}.

Lemma substitute_vars_upper t d : substitute_vars (upper t) d = substitute_vars t d.
Proof. unfold substitute_vars. rewrite upper_upper. reflexivity. Qed.

Lemma parse_high_low_hex_upper c e d :
  parse_high_low_hex c (upper e) d = parse_high_low_hex c e d.
Proof.
  unfold parse_high_low_hex, high_low_body, high_low_value.
  rewrite substitute_vars_upper. reflexivity.
Qed.

Lemma parse_b_formula_upper t d : parse_b_formula (upper t) d = parse_b_formula t d.
Proof.
  unfold parse_b_formula, formula_body, formula_text, extract_high_low.
  destruct (sub_high_low_upper
              (fun symbol expr => parse_high_low_hex symbol expr d)
              (fun c e => parse_high_low_hex_ok c e d)
              (fun c e => parse_high_low_hex_upper c e d) t)
    as (a & b & -> & -> & Hab).
  cbn [bind]. unfold substitute_vars. rewrite Hab. reflexivity.
Qed.

Lemma parse_b_input_upper text d : parse_b_input (upper text) d = parse_b_input text d.
Proof.
  rewrite !parse_b_input_classified, classify_upper, strip_upper.
  rewrite parse_b_formula_upper, hex_pair_value_upper, upper_upper. reflexivity.
Qed.

Lemma parse_b_input_strip text d : parse_b_input (strip text) d = parse_b_input text d.
Proof. unfold parse_b_input. rewrite strip_strip. reflexivity. Qed.

(** X6.  On ASCII text the value of a B cell does not depend on letter
    case nor on surrounding whitespace: the upper-cased text and the
    stripped text evaluate as the text itself does, as a formula, as a
    hexadecimal byte or as a cell name. *)
Theorem parse_b_input_ignores_case_and_margins (text : string) (vals : gmap string Z) :
  ascii_text text = true ->
  parse_b_input (upper text) vals = parse_b_input text vals
  /\ parse_b_input (strip text) vals = parse_b_input text vals.
Proof.
  intros _. split; [apply parse_b_input_upper | apply parse_b_input_strip].
Qed.

End WithInterpreter.

Lemma parse_b_input_ignores_case_and_margins_witness :
  ascii_text " #(b0101*0x10)+0xa " = true
  /\ parse_b_input (H := refusing) (upper " #(b0101*0x10)+0xa ") {["B0101" := 255]}
     = parse_b_input (H := refusing) " #(b0101*0x10)+0xa " {["B0101" := 255]}.
Proof.
  assert (H1 : ascii_text " #(b0101*0x10)+0xa " = true) by reflexivity.
  split; [exact H1|].
  exact (proj1 (parse_b_input_ignores_case_and_margins (H := refusing)
                  " #(b0101*0x10)+0xa " {["B0101" := 255]} H1)).
Defined.

(** *** [is_two_hex_char] *)

Lemma rstrip_last s : forall r c, rstrip s = r ++ String c EmptyString -> is_space c = false.
Proof.
  induction s as [|x s IH]; intros r c Heq.
  - destruct r; discriminate.
  - cbn [rstrip] in Heq. destruct (rstrip s) as [|y r0] eqn:Hr.
    + destruct (is_space x) eqn:Hx.
      * destruct r; discriminate.
      * destruct r as [|z r]; [injection Heq as <-; exact Hx|].
        rewrite append_cons in Heq. injection Heq as _ Heq. destruct r; discriminate.
    + destruct r as [|z r].
      * discriminate.
      * rewrite append_cons in Heq. injection Heq as _ Heq. exact (IH r c Heq).
Qed.

Lemma hex_digit_class c :
  is_upper_hex (upper_char c) = match hex_value c with Some _ => true | None => false end.
Proof.
  pose proof (for_all_ascii _ name_chars_checked c) as Hc. unfold name_char_checked in Hc.
  apply andb_prop in Hc. destruct Hc as [Hc _].
  apply Bool.eqb_prop. exact Hc.
Qed.

Lemma hex_digit_plain c v :
  hex_value c = Some v -> is_formula_char c = false /\ is_space c = false.
Proof.
  intros Hv.
  pose proof (for_all_ascii _ name_chars_checked c) as Hc. unfold name_char_checked in Hc.
  apply andb_prop in Hc. destruct Hc as [_ Hc]. rewrite Hv in Hc. cbn [implb] in Hc.
  apply andb_prop in Hc. destruct Hc as [H1 H2].
  split; apply Bool.negb_true_iff; assumption.
Qed.

Lemma matches_two_hex_stripped text :
  is_two_hex_char text = true <->
  exists a b x y, strip text = String a (String b EmptyString)
                  /\ hex_value a = Some x /\ hex_value b = Some y.
Proof.
  unfold is_two_hex_char. pose proof (rstrip_last (lstrip text)) as Hlast.
  fold (strip text) in Hlast.
  destruct (strip text) as [|a [|b rest]] eqn:Hs.
  - split; [discriminate | intros (a & b & x & y & Heq & _); discriminate].
  - split; [discriminate | intros (a' & b & x & y & Heq & _); discriminate].
  - cbn [upper matches_two_hex]. rewrite !hex_digit_class.
    destruct rest as [|c [|c' rest]].
    + destruct (hex_value a) as [x|] eqn:Ha, (hex_value b) as [y|] eqn:Hb; cbn [andb upper];
        (split; [try discriminate; intros _; eauto 8
                | intros (a' & b' & x' & y' & [= <- <-] & Ha' & Hb'); congruence]).
    + split; [|intros (a' & b' & x' & y' & Heq & _); discriminate].
      cbn [upper]. intros Hm.
      apply andb_prop in Hm. destruct Hm as [_ Hm]. apply Ascii.eqb_eq in Hm.
      pose proof (Hlast (String a (String b EmptyString)) c eq_refl) as Hc.
      assert (Hlf : c = ascii_of_nat 10).
      { revert Hm. unfold upper_char. destruct (is_lower c) eqn:Hl; [|auto].
        intros Hm. exfalso. revert Hl Hm.
        destruct c as [[] [] [] [] [] [] [] []]; vm_compute; congruence. }
      rewrite Hlf in Hc. discriminate.
    + split; [|intros (a' & b' & x' & y' & Heq & _); discriminate].
      cbn [upper andb]. rewrite Bool.andb_false_r. discriminate.
Qed.

Section TwoHex.
Context `{Interpreter}.

(** X7.  On ASCII text [is_two_hex_char] accepts a text exactly when its
    stripped form is two hexadecimal digits in either case, and
    [parse_b_input] then reads the text as that byte; a two-character text
    it rejects, when it is no formula, is read as 0. *)
Theorem is_two_hex_char_is_the_byte_input (text : string) (vals : gmap string Z) :
  ascii_text text = true ->
  (is_two_hex_char text = true <->
   exists a b x y, strip text = String a (String b EmptyString)
                   /\ hex_value a = Some x /\ hex_value b = Some y
                   /\ parse_b_input text vals = Ok (16 * x + y))
  /\ (is_two_hex_char text = false -> classify text = HexByte ->
      parse_b_input text vals = Ok 0).
Proof.
  intros _. split; [split|].
  - intros Hm. apply matches_two_hex_stripped in Hm.
    destruct Hm as (a & b & x & y & Hs & Ha & Hb).
    exists a, b, x, y. repeat (split; [assumption|]).
    rewrite parse_b_input_classified. unfold classify. rewrite Hs.
    cbn [any_char]. rewrite (proj1 (hex_digit_plain a x Ha)), (proj1 (hex_digit_plain b y Hb)).
    cbn [orb hex_pair_value]. rewrite Ha, Hb. reflexivity.
  - intros (a & b & x & y & Hs & Ha & Hb & _).
    apply matches_two_hex_stripped. eauto 8.
  - intros Hm Hc. rewrite parse_b_input_classified, Hc. f_equal.
    unfold classify in Hc.
    destruct (strip text) as [|a [|b [|c r]]] eqn:Hs; try reflexivity.
    cbn [hex_pair_value].
    destruct (hex_value a) as [x|] eqn:Ha; [|reflexivity].
    destruct (hex_value b) as [y|] eqn:Hb; [|reflexivity].
    assert (Ht : is_two_hex_char text = true).
    { apply matches_two_hex_stripped. eauto 8. }
    congruence.
Qed.

End TwoHex.

Lemma is_two_hex_char_is_the_byte_input_witness :
  ascii_text " 0a " = true
  /\ is_two_hex_char " 0a " = true
  /\ exists a b x y, strip " 0a " = String a (String b EmptyString)
                     /\ hex_value a = Some x /\ hex_value b = Some y
                     /\ parse_b_input (H := refusing) " 0a " ∅ = Ok (16 * x + y).
Proof.
  assert (H0 : ascii_text " 0a " = true) by reflexivity.
  assert (H1 : is_two_hex_char " 0a " = true) by reflexivity.
  split; [exact H0|]. split; [exact H1|].
  exact (proj1 (proj1 (is_two_hex_char_is_the_byte_input (H := refusing) " 0a " ∅ H0)) H1).
Defined.

End CaseFacts.


(** ** Further theorems: the resolution pass *)

Module ResolverMore.
Import Py Eval Evaluator Calculator Spec Checks Iteration Display Invariants.
Import PyFacts EvaluatorFacts FormulaFacts IterationFacts ResolverFacts Examples MoreExamples.

Section WithInterpreter.
Context `{Interpreter}.

(** *** What the rounds keep *)

Lemma fold_upd_keeps (f : string -> gmap string Z -> Z) (P : gmap string Z -> Prop)
    (cells : list string) :
  (forall s n, In n cells -> P s -> P (upd f s n)) ->
  forall l s, incl l cells -> P s -> P (fold_left (upd f) l s).
Proof.
  intros Hkeep. induction l as [|n l IH]; intros s Hincl Hs; [exact Hs|].
  simpl. apply IH.
  - intros x Hx. apply Hincl. right. exact Hx.
  - apply Hkeep; [apply Hincl; left; reflexivity | exact Hs].
Qed.

Lemma rounds_keep (f : string -> gmap string Z -> Z) (P : gmap string Z -> Prop)
    (cells : list string) :
  (forall s n, In n cells -> P s -> P (upd f s n)) ->
  forall k s, P s -> P (Nat.iter k (round f cells) s).
Proof.
  intros Hkeep. induction k as [|k IH]; intros s Hs; [exact Hs|].
  rewrite Nat.iter_succ. unfold round at 1.
  apply (fold_upd_keeps f P cells Hkeep); [apply incl_refl | apply IH; exact Hs].
Qed.

(** A cell whose value is [v] against every store that satisfies [P] holds
    [v] once a round has visited it. *)
Lemma fold_upd_constant (f : string -> gmap string Z -> Z) (P : gmap string Z -> Prop)
    (cells : list string) name v :
  (forall s n, In n cells -> P s -> P (upd f s n)) ->
  (forall s, P s -> f name s = v) ->
  forall l s, incl l cells -> P s ->
    In name l \/ lookup0 s name = v ->
    lookup0 (fold_left (upd f) l s) name = v.
Proof.
  intros Hkeep Hconst. induction l as [|n l IH]; intros s Hincl Hs Hn.
  - destruct Hn as [[]|Hv]. exact Hv.
  - simpl. apply IH.
    + intros x Hx. apply Hincl. right. exact Hx.
    + apply Hkeep; [apply Hincl; left; reflexivity | exact Hs].
    + rewrite (upd_updates f s n name).
      destruct (decide (name = n)) as [->|Hne].
      * right. apply Hconst. exact Hs.
      * destruct Hn as [[Heq|Hin]|Hv]; [congruence | left; exact Hin | right; exact Hv].
Qed.

Lemma rounds_constant (f : string -> gmap string Z -> Z) (P : gmap string Z -> Prop)
    (cells : list string) name v :
  (forall s n, In n cells -> P s -> P (upd f s n)) ->
  (forall s, P s -> f name s = v) ->
  In name cells ->
  forall k s, (1 <= k)%nat -> P s ->
    lookup0 (Nat.iter k (round f cells) s) name = v.
Proof.
  intros Hkeep Hconst Hin k s Hk Hs. destruct k as [|k]; [lia|].
  rewrite Nat.iter_succ. unfold round at 1.
  apply (fold_upd_constant f P cells name v Hkeep Hconst);
    [apply incl_refl | apply rounds_keep; assumption | left; exact Hin].
Qed.

Lemma a_cells_set_start c start : resolve_a_cells c = Ok start -> a_cells_set c start.
Proof. intros Hs a Ha. exact (resolve_a_cells_lookup _ _ a _ _ Hs (or_introl Ha)). Qed.

Lemma a_cells_set_kept c f s n :
  In n (b_cells c) -> a_cells_set c s -> a_cells_set c (upd f s n).
Proof.
  intros Hn Hs a Ha. destruct (Hs a Ha) as (v & Hv & Hlook).
  exists v. split; [exact Hv|]. rewrite upd_lookup_other; [exact Hlook|].
  intros ->. exact (a_cell_is_no_b_cell _ _ _ _ _ Ha Hn).
Qed.

Lemma resolve_a_cells_settled raw l : forall vals,
  (forall a, In a l ->
     exists v, decimal_value (default EmptyString (raw !! a)) = Ok v /\ vals !! a = Some v) ->
  for_each (resolve_a_cell raw) l vals = Ok vals.
Proof.
  induction l as [|a l IH]; intros vals Hl; [reflexivity|].
  cbn [for_each]. unfold resolve_a_cell at 1.
  destruct (Hl a (or_introl eq_refl)) as (v & -> & Hlook). cbn [bind].
  rewrite insert_id by exact Hlook.
  apply IH. intros b Hb. apply Hl. right. exact Hb.
Qed.

Lemma a_cells_set_after c start k :
  resolve_a_cells c = Ok start ->
  a_cells_set c (Nat.iter k (round (cell_value (raw_text_dict c)) (b_cells c)) start).
Proof.
  intros Hstart.
  apply (rounds_keep _ (a_cells_set c)); [|apply a_cells_set_start; exact Hstart].
  intros s n Hn Hs. apply a_cells_set_kept; assumption.
Qed.

(** X8.  A pass that stops before the cap of five rounds leaves a store on
    which the next pass changes nothing: step one rewrites the A cells with
    the values they have, one round over the B cells finds every value
    unchanged, and the pass returns after that round with the same
    store. *)
Theorem resolved_grid_is_stable (c : calculator) (vals : gmap string Z) (rounds : nat) :
  resolve_all c = Ok (vals, rounds) ->
  (rounds < 5)%nat ->
  resolve_a_cells (set_values c vals) = Ok vals
  /\ resolve_all (set_values c vals) = Ok (vals, 1%nat)
  /\ update_all_var_values (set_values c vals) = Ok (set_values c vals).
Proof.
  intros Hall Hlt.
  destruct (resolve_a_cells c) as [start|e] eqn:Hstart;
    [|unfold resolve_all in Hall; rewrite Hstart in Hall; discriminate].
  destruct (pass_runs c start Hstart) as (j & Hj & Hrun & _ & Hlast).
  rewrite Hrun in Hall. injection Hall as Hvals Hrounds. subst rounds.
  specialize (Hlast Hlt). rewrite Hvals in Hlast.
  assert (Hagain : resolve_a_cells (set_values c vals) = Ok vals).
  { unfold resolve_a_cells. cbn [set_values set_dicts raw_text_dict var_value_dict
                                 row_widgets dec_col_count].
    apply resolve_a_cells_settled. rewrite <- Hvals.
    apply a_cells_set_after. exact Hstart. }
  assert (Hpass : resolve_all (set_values c vals) = Ok (vals, 1%nat)).
  { unfold resolve_all. rewrite Hagain. cbn [bind].
    change (b_cells (set_values c vals)) with (b_cells c).
    change (raw_text_dict (set_values c vals)) with (raw_text_dict c).
    unfold max_attempts. cbn [resolve_loop]. rewrite Hlast. reflexivity. }
  split; [exact Hagain|]. split; [exact Hpass|].
  unfold update_all_var_values. rewrite Hpass. reflexivity.
Qed.

(** X9.  On a grid of ASCII texts whose A texts step one converts, a B
    cell of the grid whose text does not depend on other B cells has its
    value after the pass, whatever the store held before: 0 for a blank
    text, the byte for a two-character text, and for the name of an A cell
    of the grid the number that cell's text spells, modulo 256. *)
Theorem literal_cells_resolve_in_any_pass
    (c : calculator) (start : gmap string Z) (name : string) :
  ascii_grid c = true ->
  resolve_a_cells c = Ok start ->
  In name (b_cells c) ->
  let text := default EmptyString (raw_text_dict c !! name) in
  exists c',
    update_all_var_values c = Ok c'
    /\ (classify text = Blank -> lookup0 (var_value_dict c') name = 0)
    /\ (classify text = HexByte ->
        lookup0 (var_value_dict c') name = hex_pair_value (strip text))
    /\ (classify text = Reference ->
        In (upper (strip text)) (cell_names "A" (row_widgets c) (dec_col_count c)) ->
        exists v,
          decimal_value (default EmptyString (raw_text_dict c !! upper (strip text))) = Ok v
          /\ lookup0 (var_value_dict c') name = v mod 256).
Proof.
  intros _ Hstart Hin text.
  destruct (pass_runs c start Hstart) as (j & Hj & _ & Hrun & _).
  eexists. split; [exact Hrun|].
  cbn [set_values set_dicts var_value_dict].
  assert (Hconst : forall v,
            (forall s, a_cells_set c s -> cell_value (raw_text_dict c) name s = v) ->
            lookup0 (Nat.iter j (round (cell_value (raw_text_dict c)) (b_cells c)) start)
                    name = v).
  { intros v Hv.
    apply (rounds_constant _ (a_cells_set c) (b_cells c) name v);
      [| exact Hv | exact Hin | lia | apply a_cells_set_start; exact Hstart].
    intros s n Hn Hs. apply a_cells_set_kept; assumption. }
  split; [|split].
  - intros Hc. apply Hconst. intros s _. unfold cell_value. fold text.
    rewrite parse_b_input_classified, Hc. reflexivity.
  - intros Hc. apply Hconst. intros s _. unfold cell_value. fold text.
    rewrite parse_b_input_classified, Hc. reflexivity.
  - intros Hc Ha.
    destruct (a_cells_set_start c start Hstart _ Ha) as (v & Hv & _).
    exists v. split; [exact Hv|].
    apply Hconst. intros s Hs. unfold cell_value. fold text.
    rewrite parse_b_input_classified, Hc. unfold lookup0.
    destruct (Hs _ Ha) as (v' & Hv' & ->). rewrite Hv in Hv'. injection Hv' as <-.
    reflexivity.
Qed.

(** *** What a pass leaves alone *)

Lemma pass_frame (c : calculator) (start : gmap string Z) :
  resolve_a_cells c = Ok start ->
  exists c',
    update_all_var_values c = Ok c'
    /\ total_rows c' = total_rows c
    /\ dec_col_count c' = dec_col_count c
    /\ hex_col_count c' = hex_col_count c
    /\ crc_order c' = crc_order c
    /\ row_widgets c' = row_widgets c
    /\ raw_text_dict c' = raw_text_dict c
    /\ forall name, ~ in_grid c name ->
                    var_value_dict c' !! name = var_value_dict c !! name.
Proof.
  intros Hstart.
  destruct (pass_runs c start Hstart) as (j & Hj & _ & Hrun & _).
  eexists. split; [exact Hrun|].
  repeat (split; [reflexivity|]).
  intros name Hout. cbn [set_values set_dicts var_value_dict].
  rewrite rounds_lookup_outside by (intros Hb; apply Hout; right; exact Hb).
  apply (resolve_a_cells_outside _ _ name _ _ Hstart).
  intros Ha. apply Hout. left. exact Ha.
Qed.

(** X10.  On a grid of ASCII texts whose A texts step one converts, the
    pass returns and touches nothing but the values of the grid: the
    counts, the byte order, the rows and the raw texts are as before, and
    so is the value of every name that is no A or B cell of the grid. *)
Theorem update_all_var_values_frame (c : calculator) (start : gmap string Z) :
  ascii_grid c = true ->
  resolve_a_cells c = Ok start ->
  exists c',
    update_all_var_values c = Ok c'
    /\ total_rows c' = total_rows c
    /\ dec_col_count c' = dec_col_count c
    /\ hex_col_count c' = hex_col_count c
    /\ crc_order c' = crc_order c
    /\ row_widgets c' = row_widgets c
    /\ raw_text_dict c' = raw_text_dict c
    /\ forall name, ~ in_grid c name ->
                    var_value_dict c' !! name = var_value_dict c !! name.
Proof. intros _. apply pass_frame. Qed.

(** *** Texts that step one converts *)

Lemma lstrip_length s : (String.length (lstrip s) <= String.length s)%nat.
Proof.
  induction s as [|c r IH]; [reflexivity|]. cbn [lstrip].
  destruct (is_space c); cbn [String.length]; lia.
Qed.

Lemma rstrip_length s : (String.length (rstrip s) <= String.length s)%nat.
Proof.
  induction s as [|c r IH]; [reflexivity|]. cbn [rstrip].
  destruct (rstrip r); [destruct (is_space c)|]; cbn [String.length] in *; lia.
Qed.

Lemma all_chars_lstrip p s : all_chars p s = true -> all_chars p (lstrip s) = true.
Proof.
  induction s as [|c r IH]; [reflexivity|]. cbn [lstrip all_chars]. intros Hs.
  apply andb_prop in Hs as [Hc Hr].
  destruct (is_space c); [exact (IH Hr)|]. cbn [all_chars]. rewrite Hc, Hr. reflexivity.
Qed.

Lemma all_chars_rstrip p s : all_chars p s = true -> all_chars p (rstrip s) = true.
Proof.
  induction s as [|c r IH]; [reflexivity|]. cbn [rstrip all_chars]. intros Hs.
  apply andb_prop in Hs as [Hc Hr]. specialize (IH Hr).
  destruct (rstrip r) as [|x r'].
  - destruct (is_space c); [reflexivity|]. cbn [all_chars]. rewrite Hc. reflexivity.
  - cbn [all_chars] in *. rewrite Hc, IH. reflexivity.
Qed.

Lemma plain_text_strip text : plain_text text = true -> plain_text (strip text) = true.
Proof.
  unfold plain_text, ascii_text, strip. intros Ht. apply andb_prop in Ht as [Ha Hl].
  apply andb_true_intro. split.
  - apply all_chars_rstrip, all_chars_lstrip. exact Ha.
  - apply Z.leb_le in Hl. apply Z.leb_le.
    pose proof (rstrip_length (lstrip text)). pose proof (lstrip_length text). lia.
Qed.

Lemma plain_grid_lookup c name text :
  plain_grid c = true -> raw_text_dict c !! name = Some text -> plain_text text = true.
Proof.
  unfold plain_grid. rewrite forallb_forall. intros Hall Htext.
  apply (Hall (name, text)). apply list_elem_of_In, elem_of_map_to_list. exact Htext.
Qed.

Lemma plain_text_converts text : plain_text text = true -> exists v, decimal_value text = Ok v.
Proof.
  unfold plain_text, decimal_value, int_of_text. intros Ht.
  apply andb_prop in Ht as [_ Hl]. apply Z.leb_le in Hl.
  destruct (isdigit text); [|eauto].
  destruct (Z.ltb_spec int_max_str_digits (Z.of_nat (String.length text))); [lia | eauto].
Qed.

(** Step one returns on plain texts, whatever the rows and the columns. *)
Lemma plain_texts_convert raw l :
  (forall name text, raw !! name = Some text -> plain_text text = true) ->
  forall vals, exists s, for_each (resolve_a_cell raw) l vals = Ok s.
Proof.
  intros Hplain. induction l as [|n l IH]; intros vals; [cbn; eauto|].
  cbn [for_each]. unfold resolve_a_cell at 1.
  assert (Hn : exists v, decimal_value (default EmptyString (raw !! n)) = Ok v).
  { destruct (raw !! n) as [text|] eqn:Htext.
    - apply plain_text_converts. exact (Hplain _ _ Htext).
    - exists 0. reflexivity. }
  destruct Hn as [v ->]. cbn [bind]. apply IH.
Qed.

Lemma pass_frame_plain (c : calculator) :
  (forall name text, raw_text_dict c !! name = Some text -> plain_text text = true) ->
  exists c',
    update_all_var_values c = Ok c'
    /\ total_rows c' = total_rows c
    /\ dec_col_count c' = dec_col_count c
    /\ hex_col_count c' = hex_col_count c
    /\ crc_order c' = crc_order c
    /\ row_widgets c' = row_widgets c
    /\ raw_text_dict c' = raw_text_dict c
    /\ forall name, ~ in_grid c name ->
                    var_value_dict c' !! name = var_value_dict c !! name.
Proof.
  intros Hplain.
  destruct (plain_texts_convert (raw_text_dict c)
              (cell_names "A" (row_widgets c) (dec_col_count c)) Hplain (var_value_dict c))
    as [start Hstart].
  exact (pass_frame c start Hstart).
Qed.

End WithInterpreter.

Lemma resolved_grid_is_stable_witness :
  exists vals,
    resolve_all (H := refusing) wide_calculator = Ok (vals, 3%nat)
    /\ (3 < 5)%nat
    /\ update_all_var_values (H := refusing) (set_values wide_calculator vals)
       = Ok (set_values wide_calculator vals).
Proof.
  assert (Hrun : exists vals, resolve_all (H := refusing) wide_calculator = Ok (vals, 3%nat))
    by (eexists; reflexivity).
  destruct Hrun as [vals H1]. exists vals.
  assert (H2 : (3 < 5)%nat) by lia.
  split; [exact H1|]. split; [exact H2|].
  exact (proj2 (proj2 (resolved_grid_is_stable (H := refusing) wide_calculator vals 3%nat
                         H1 H2))).
Defined.

Lemma literal_cells_resolve_in_any_pass_witness :
  ascii_grid reference_calculator = true
  /\ resolve_a_cells reference_calculator = Ok {["A0101" := 4000]}
  /\ In "B0101" (b_cells reference_calculator)
  /\ exists c',
       update_all_var_values (H := refusing) reference_calculator = Ok c'
       /\ lookup0 (var_value_dict c') "B0101" = 160.
Proof.
  assert (H0 : ascii_grid reference_calculator = true) by reflexivity.
  assert (Hs : resolve_a_cells reference_calculator = Ok {["A0101" := 4000]})
    by reflexivity.
  assert (H1 : In "B0101" (b_cells reference_calculator)) by (left; reflexivity).
  split; [exact H0|]. split; [exact Hs|]. split; [exact H1|].
  destruct (literal_cells_resolve_in_any_pass (H := refusing) reference_calculator _
              "B0101" H0 Hs H1)
    as (c' & Hc & _ & _ & Href).
  exists c'. split; [exact Hc|].
  destruct (Href eq_refl (or_introl eq_refl)) as (v & Hv & Hlook).
  change (Ok 4000 = Ok v) in Hv. injection Hv as <-. exact Hlook.
Defined.

Lemma update_all_var_values_frame_witness :
  ascii_grid reference_calculator = true
  /\ resolve_a_cells reference_calculator = Ok {["A0101" := 4000]}
  /\ exists c',
       update_all_var_values (H := refusing) reference_calculator = Ok c'
       /\ raw_text_dict c' = raw_text_dict reference_calculator.
Proof.
  assert (H0 : ascii_grid reference_calculator = true) by reflexivity.
  assert (Hs : resolve_a_cells reference_calculator = Ok {["A0101" := 4000]})
    by reflexivity.
  split; [exact H0|]. split; [exact Hs|].
  destruct (update_all_var_values_frame (H := refusing) reference_calculator _ H0 Hs)
    as (c' & Hc & _ & _ & _ & _ & _ & Hraw & _).
  exists c'. split; [exact Hc | exact Hraw].
Defined.

End ResolverMore.


(** ** Further theorems: rows and columns of the grid *)

Module GridFacts.
Import Py Eval Evaluator Calculator Spec Checks Iteration Display Invariants.
Import PyFacts EvaluatorFacts FormulaFacts IterationFacts ResolverFacts NameFacts ResolverMore.
Import Examples MoreExamples.

(** *** Removing a row *)

Lemma filter_all {A} (p : A -> bool) (l : list A) :
  (forall x, In x l -> p x = true) -> List.filter p l = l.
Proof.
  induction l as [|x l IH]; intros Hl; [reflexivity|].
  simpl. rewrite (Hl x (or_introl eq_refl)), IH; [reflexivity|].
  intros y Hy. apply Hl. right. exact Hy.
Qed.

Lemma row_shown c row_num :
  existsb (Nat.eqb row_num) (row_widgets c) = true <-> In row_num (row_widgets c).
Proof.
  rewrite existsb_exists. split.
  - intros (x & Hx & Heq). apply Nat.eqb_eq in Heq. subst. exact Hx.
  - intros Hin. exists row_num. split; [exact Hin | apply Nat.eqb_refl].
Qed.

Lemma remove_calc_row_rows c row_num :
  row_widgets (remove_calc_row c row_num)
  = List.filter (fun r => negb (Nat.eqb r row_num)) (row_widgets c).
Proof.
  unfold remove_calc_row.
  destruct (existsb (Nat.eqb row_num) (row_widgets c)) eqn:Hex; [reflexivity|].
  symmetry. apply filter_all. intros x Hx.
  apply Bool.negb_true_iff, Nat.eqb_neq. intros ->.
  apply row_shown in Hx. congruence.
Qed.

Lemma fold_delete_other {V} (l : list string) name : forall m : gmap string V,
  ~ In name l -> fold_left (fun d k => delete k d) l m !! name = m !! name.
Proof.
  induction l as [|k l IH]; intros m Hout; [reflexivity|].
  simpl. rewrite IH by (intros Hin; apply Hout; right; exact Hin).
  apply lookup_delete_ne. intros ->. apply Hout. left. reflexivity.
Qed.

Lemma deleted_names c row_num name :
  In name (List.filter
             (fun k => startswith k ("A" ++ format_02d row_num)
                       || startswith k ("B" ++ format_02d row_num))
             (map fst (map_to_list (raw_text_dict c))))
  <-> is_Some (raw_text_dict c !! name) /\ in_row row_num name = true.
Proof.
  rewrite filter_In, in_map_iff. unfold in_row. split.
  - intros [([k text] & Hk & Hin) Hp]. simpl in Hk. subst k. split; [|exact Hp].
    apply list_elem_of_In, elem_of_map_to_list in Hin. eauto.
  - intros [[text Htext] Hp]. split; [|exact Hp].
    exists (name, text). split; [reflexivity|].
    apply list_elem_of_In, elem_of_map_to_list. exact Htext.
Qed.

(** X11.  Removing a row that is shown takes it off the screen and leaves
    the other rows; no name with one of the row's two prefixes has a raw
    text afterwards, and those that had one have no value either; every
    other name keeps its raw text and its value.  A value stored under a
    name that has no raw text stays, also when the name is of the removed
    row.  Removing a row that is not shown does nothing. *)
Theorem remove_calc_row_effect (c : calculator) (row_num : nat) :
  (In row_num (row_widgets c) ->
   let c' := remove_calc_row c row_num in
   ~ In row_num (row_widgets c')
   /\ (forall r, r <> row_num -> In r (row_widgets c') <-> In r (row_widgets c))
   /\ (forall name, in_row row_num name = true ->
         raw_text_dict c' !! name = None
         /\ (is_Some (raw_text_dict c !! name) -> var_value_dict c' !! name = None))
   /\ (forall name, in_row row_num name = false ->
         raw_text_dict c' !! name = raw_text_dict c !! name
         /\ var_value_dict c' !! name = var_value_dict c !! name)
   /\ (forall name, raw_text_dict c !! name = None ->
         var_value_dict c' !! name = var_value_dict c !! name))
  /\ (~ In row_num (row_widgets c) -> remove_calc_row c row_num = c).
Proof.
  split.
  - intros Hrow c'.
    assert (Hrows : row_widgets c'
                    = List.filter (fun r => negb (Nat.eqb r row_num)) (row_widgets c))
      by apply remove_calc_row_rows.
    assert (Hraw : forall name,
              raw_text_dict c' !! name
              = fold_left (fun d k => delete k d)
                  (List.filter
                     (fun k => startswith k ("A" ++ format_02d row_num)
                               || startswith k ("B" ++ format_02d row_num))
                     (map fst (map_to_list (raw_text_dict c))))
                  (raw_text_dict c) !! name).
    { intros name. unfold c', remove_calc_row.
      rewrite (proj2 (row_shown c row_num) Hrow). reflexivity. }
    assert (Hval : forall name,
              var_value_dict c' !! name
              = fold_left (fun d k => delete k d)
                  (List.filter
                     (fun k => startswith k ("A" ++ format_02d row_num)
                               || startswith k ("B" ++ format_02d row_num))
                     (map fst (map_to_list (raw_text_dict c))))
                  (var_value_dict c) !! name).
    { intros name. unfold c', remove_calc_row.
      rewrite (proj2 (row_shown c row_num) Hrow). reflexivity. }
    split; [|split; [|split; [|split]]].
    + rewrite Hrows, filter_In. intros [_ Hne].
      rewrite Nat.eqb_refl in Hne. discriminate.
    + intros r Hr. rewrite Hrows, filter_In. split; [tauto|].
      intros Hin. split; [exact Hin|]. apply Bool.negb_true_iff, Nat.eqb_neq. exact Hr.
    + intros name Hp. split.
      * rewrite Hraw. destruct (raw_text_dict c !! name) as [text|] eqn:Htext.
        -- apply fold_delete_lookup. left. apply deleted_names. eauto.
        -- apply fold_delete_lookup. right. exact Htext.
      * intros Hsome. rewrite Hval. apply fold_delete_lookup. left.
        apply deleted_names. auto.
    + intros name Hp.
      assert (Hout : ~ In name
                (List.filter
                   (fun k => startswith k ("A" ++ format_02d row_num)
                             || startswith k ("B" ++ format_02d row_num))
                   (map fst (map_to_list (raw_text_dict c))))).
      { rewrite deleted_names. intros [_ Hin]. congruence. }
      rewrite Hraw, Hval. split; apply fold_delete_other; exact Hout.
    + intros name Hnone. rewrite Hval. apply fold_delete_other.
      rewrite deleted_names. intros [[text Htext] _]. congruence.
  - intros Hrow. unfold remove_calc_row.
    destruct (existsb (Nat.eqb row_num) (row_widgets c)) eqn:Hex; [|reflexivity].
    apply row_shown in Hex. contradiction.
Qed.

(** Below 100 the prefixes of two rows tell them apart. *)
Lemma other_row_name x row_num r col :
  (row_num < 100)%nat -> (r < 100)%nat -> r <> row_num ->
  in_row row_num (generate_var_name (String x EmptyString) r col) = false.
Proof.
  intros Hrow Hr Hne.
  destruct (format_02d_two row_num Hrow) as (a & b & Hab & _ & _ & Hn).
  destruct (format_02d_two r Hr) as (a' & b' & Hab' & _ & _ & Hn').
  unfold in_row, generate_var_name, startswith. rewrite Hab, Hab'.
  change ("A" ++ String a (String b EmptyString)) with (String "A" (String a (String b EmptyString))).
  change ("B" ++ String a (String b EmptyString)) with (String "B" (String a (String b EmptyString))).
  change (String x EmptyString ++ String a' (String b' EmptyString) ++ format_02d col)
    with (String x (String a' (String b' (format_02d col)))).
  assert (Hdiff : forall q, String.prefix (String q (String a (String b EmptyString)))
                              (String x (String a' (String b' (format_02d col)))) = false).
  { intros q. cbn [String.prefix].
    destruct (ascii_dec q x); [|reflexivity].
    destruct (ascii_dec a a') as [->|]; [|reflexivity].
    destruct (ascii_dec b b') as [->|]; [|reflexivity].
    exfalso. apply Hne. lia. }
  rewrite !Hdiff. reflexivity.
Qed.

(** X12.  With row numbers below 100, removing a row touches no cell of
    another row: the raw text and the value of every generated name of a
    different row are as before. *)
Theorem remove_calc_row_spares_other_rows
    (c : calculator) (row_num r col : nat) (x : ascii) :
  (row_num < 100)%nat -> (r < 100)%nat -> r <> row_num ->
  let name := generate_var_name (String x EmptyString) r col in
  raw_text_dict (remove_calc_row c row_num) !! name = raw_text_dict c !! name
  /\ var_value_dict (remove_calc_row c row_num) !! name = var_value_dict c !! name.
Proof.
  intros Hrow Hr Hne name.
  pose proof (other_row_name x row_num r col Hrow Hr Hne) as Hout. fold name in Hout.
  unfold remove_calc_row.
  destruct (existsb (Nat.eqb row_num) (row_widgets c)); [|split; reflexivity].
  cbn [raw_text_dict var_value_dict].
  assert (Hnot : ~ In name
            (List.filter
               (fun k => startswith k ("A" ++ format_02d row_num)
                         || startswith k ("B" ++ format_02d row_num))
               (map fst (map_to_list (raw_text_dict c))))).
  { rewrite deleted_names. intros [_ Hin]. congruence. }
  split; apply fold_delete_other; exact Hnot.
Qed.

(** *** Changing the number of rows *)

Lemma texts_kept_refl raw : texts_kept raw raw.
Proof. intros name text Ht. left. exact Ht. Qed.

Lemma texts_kept_trans r1 r2 r3 : texts_kept r1 r2 -> texts_kept r2 r3 -> texts_kept r1 r3.
Proof.
  intros H12 H23 name text Ht.
  destruct (H12 name text Ht) as [H2|H2]; destruct (H23 name _ H2) as [H3|H3]; auto.
  right. rewrite H3, strip_strip. reflexivity.
Qed.

Lemma fold_texts_kept {A} (g : gmap string string -> A -> gmap string string) :
  (forall raw x, texts_kept raw (g raw x)) ->
  forall l raw, texts_kept raw (fold_left g l raw).
Proof.
  intros Hg. induction l as [|x l IH]; intros raw; [apply texts_kept_refl|].
  simpl. eapply texts_kept_trans; [apply Hg | apply IH].
Qed.

Lemma refresh_inputs_kept prefix count raw row_num :
  texts_kept raw (refresh_inputs prefix count raw row_num).
Proof.
  unfold refresh_inputs. revert raw. apply fold_texts_kept. intros raw col name text Ht.
  destruct (raw !! generate_var_name prefix row_num col) as [shown|] eqn:Hshown;
    [|left; exact Ht].
  unfold update_raw_text.
  destruct (decide (name = generate_var_name prefix row_num col)) as [->|Hne].
  - right. rewrite lookup_insert_eq. congruence.
  - left. rewrite lookup_insert_ne by congruence. exact Ht.
Qed.

Lemma add_calc_row_fields c row_num :
  let c' := add_calc_row c row_num in
  row_widgets c' = (row_widgets c ++ [row_num])%list
  /\ dec_col_count c' = dec_col_count c /\ hex_col_count c' = hex_col_count c
  /\ crc_order c' = crc_order c
  /\ var_value_dict c' = var_value_dict c
  /\ texts_kept (raw_text_dict c) (raw_text_dict c').
Proof.
  cbn zeta. unfold add_calc_row. cbn [row_widgets dec_col_count hex_col_count crc_order
                                       var_value_dict raw_text_dict].
  repeat (split; [reflexivity|]).
  eapply texts_kept_trans; apply refresh_inputs_kept.
Qed.

Lemma fold_add_calc_row l : forall c,
  let c' := fold_left add_calc_row l c in
  row_widgets c' = (row_widgets c ++ l)%list
  /\ dec_col_count c' = dec_col_count c /\ hex_col_count c' = hex_col_count c
  /\ crc_order c' = crc_order c
  /\ var_value_dict c' = var_value_dict c
  /\ texts_kept (raw_text_dict c) (raw_text_dict c').
Proof.
  induction l as [|r l IH]; intros c; cbn zeta.
  - rewrite app_nil_r. repeat (split; [reflexivity|]). apply texts_kept_refl.
  - simpl. destruct (IH (add_calc_row c r)) as (H1 & H2 & H3 & H4 & H5 & H6).
    destruct (add_calc_row_fields c r) as (G1 & G2 & G3 & G4 & G5 & G6).
    rewrite H1, H2, H3, H4, H5, G1, G2, G3, G4, G5, <- app_assoc.
    repeat (split; [reflexivity|]).
    eapply texts_kept_trans; [exact G6 | exact H6].
Qed.

Lemma remove_calc_row_fields c row_num :
  let c' := remove_calc_row c row_num in
  dec_col_count c' = dec_col_count c /\ hex_col_count c' = hex_col_count c
  /\ crc_order c' = crc_order c.
Proof.
  cbn zeta. unfold remove_calc_row.
  destruct (existsb (Nat.eqb row_num) (row_widgets c)); repeat split; reflexivity.
Qed.

Lemma fold_remove_calc_row_fields l : forall c,
  let c' := fold_left remove_calc_row l c in
  dec_col_count c' = dec_col_count c /\ hex_col_count c' = hex_col_count c
  /\ crc_order c' = crc_order c.
Proof.
  induction l as [|r l IH]; intros c; cbn zeta; [repeat split; reflexivity|].
  simpl. destruct (IH (remove_calc_row c r)) as (H1 & H2 & H3).
  destruct (remove_calc_row_fields c r) as (G1 & G2 & G3).
  rewrite H1, H2, H3, G1, G2, G3. repeat split; reflexivity.
Qed.

Lemma remove_last_row n c :
  row_widgets c = seq 1 (S n) ->
  row_widgets (remove_calc_row c (S n)) = seq 1 n.
Proof.
  intros Hrows. rewrite remove_calc_row_rows, Hrows, seq_S, List.filter_app.
  cbn [List.filter Nat.add]. rewrite Nat.eqb_refl. cbn [negb].
  rewrite app_nil_r. apply filter_all. intros x Hx. apply in_seq in Hx.
  apply Bool.negb_true_iff, Nat.eqb_neq. lia.
Qed.

Lemma fold_remove_rows new : forall d c,
  row_widgets c = seq 1 (new + d) ->
  row_widgets (fold_left remove_calc_row (rows_down (new + d) new) c) = seq 1 new.
Proof.
  unfold rows_down.
  induction d as [|d IH]; intros c Hrows.
  - replace (new + 0 - new)%nat with 0%nat by lia. simpl.
    rewrite Hrows. f_equal. lia.
  - replace (new + S d - new)%nat with (S d) by lia.
    rewrite seq_S, rev_app_distr. cbn [rev app fold_left].
    replace (S new + d)%nat with (S (new + d)) by lia.
    specialize (IH (remove_calc_row c (S (new + d)))).
    replace (new + d - new)%nat with d in IH by lia.
    apply IH. apply remove_last_row. rewrite Hrows. f_equal. lia.
Qed.

(** *** Where the raw texts come from *)

Lemma texts_from_refl raw : texts_from raw raw.
Proof. intros name text Ht. exists text. auto. Qed.

Lemma texts_from_trans r1 r2 r3 : texts_from r1 r2 -> texts_from r2 r3 -> texts_from r1 r3.
Proof.
  intros H12 H23 name t3 H3.
  destruct (H23 name t3 H3) as (t2 & H2 & Hc2).
  destruct (H12 name t2 H2) as (t1 & H1 & Hc1).
  exists t1. split; [exact H1|].
  destruct Hc2 as [->| ->], Hc1 as [->| ->]; auto.
  right. apply strip_strip.
Qed.

Lemma fold_texts_from {A} (g : gmap string string -> A -> gmap string string) :
  (forall raw x, texts_from raw (g raw x)) ->
  forall l raw, texts_from raw (fold_left g l raw).
Proof.
  intros Hg. induction l as [|x l IH]; intros raw; [apply texts_from_refl|].
  simpl. eapply texts_from_trans; [apply Hg | apply IH].
Qed.

Lemma refresh_inputs_from prefix count raw row_num :
  texts_from raw (refresh_inputs prefix count raw row_num).
Proof.
  unfold refresh_inputs. revert raw. apply fold_texts_from. intros raw col name text' Ht.
  destruct (raw !! generate_var_name prefix row_num col) as [shown|] eqn:Hshown;
    [|exists text'; auto].
  unfold update_raw_text in Ht.
  destruct (decide (name = generate_var_name prefix row_num col)) as [->|Hne].
  - rewrite lookup_insert_eq in Ht. injection Ht as <-. exists shown. auto.
  - rewrite lookup_insert_ne in Ht by congruence. exists text'. auto.
Qed.

Lemma fold_add_calc_row_from l : forall c,
  texts_from (raw_text_dict c) (raw_text_dict (fold_left add_calc_row l c)).
Proof.
  induction l as [|r l IH]; intros c; [apply texts_from_refl|].
  simpl. eapply texts_from_trans; [|apply IH].
  unfold add_calc_row. cbn [raw_text_dict].
  eapply texts_from_trans; apply refresh_inputs_from.
Qed.

Lemma fold_delete_from {V} (l : list string) name x : forall m : gmap string V,
  fold_left (fun d k => delete k d) l m !! name = Some x -> m !! name = Some x.
Proof.
  induction l as [|k l IH]; intros m Hm; [exact Hm|].
  simpl in Hm. apply IH in Hm. apply lookup_delete_Some in Hm. tauto.
Qed.

Lemma fold_remove_calc_row_from l : forall c,
  texts_from (raw_text_dict c) (raw_text_dict (fold_left remove_calc_row l c)).
Proof.
  induction l as [|r l IH]; intros c; [apply texts_from_refl|].
  simpl. eapply texts_from_trans; [|apply IH].
  intros name text' Ht. exists text'. split; [|auto].
  unfold remove_calc_row in Ht.
  destruct (existsb (Nat.eqb r) (row_widgets c)); [|exact Ht].
  cbn [raw_text_dict] in Ht. exact (fold_delete_from _ _ _ _ Ht).
Qed.

Lemma plain_from raw raw' :
  texts_from raw raw' ->
  (forall name text, raw !! name = Some text -> plain_text text = true) ->
  forall name text, raw' !! name = Some text -> plain_text text = true.
Proof.
  intros Hfrom Hplain name text' Ht.
  destruct (Hfrom name text' Ht) as (text & Hraw & [->| ->]).
  - exact (Hplain _ _ Hraw).
  - apply plain_text_strip. exact (Hplain _ _ Hraw).
Qed.

Section WithInterpreter.
Context `{Interpreter}.

(** X13.  On a grid of plain texts, changing the number of rows keeps the
    rows on screen equal to 1 .. [total_rows]: from such a state
    [on_row_count_change] returns a state with [total_rows = value] and
    rows 1 .. [value], and the column counts and the byte order are as
    before.  When the number does not shrink, every raw text is still
    stored, as it was or stripped. *)
Theorem on_row_count_change_keeps_rows_in_order (c : calculator) (value : nat) :
  plain_grid c = true ->
  rows_in_order c ->
  exists c',
    on_row_count_change c value = Ok c'
    /\ total_rows c' = value
    /\ rows_in_order c'
    /\ dec_col_count c' = dec_col_count c
    /\ hex_col_count c' = hex_col_count c
    /\ crc_order c' = crc_order c
    /\ ((total_rows c <= value)%nat ->
        texts_kept (raw_text_dict c) (raw_text_dict c')).
Proof.
  unfold rows_in_order. intros Hplain Hrows. unfold on_row_count_change, calc_all_rows.
  set (old := total_rows c) in *.
  set (c1 := fold_left add_calc_row (seq (S old) (value - old)) c).
  set (c2 := fold_left remove_calc_row (rows_down old value) c1).
  destruct (fold_add_calc_row (seq (S old) (value - old)) c)
    as (A1 & A2 & A3 & A4 & _ & A6).
  fold c1 in A1, A2, A3, A4, A6.
  destruct (fold_remove_calc_row_fields (rows_down old value) c1) as (R2 & R3 & R4).
  fold c2 in R2, R3, R4.
  assert (Hc2 : row_widgets c2 = seq 1 value).
  { destruct (Nat.le_gt_cases old value) as [Hle|Hgt].
    - unfold c2, rows_down. replace (old - value)%nat with 0%nat by lia. simpl.
      rewrite A1, Hrows, <- seq_app. f_equal. lia.
    - assert (Hc1 : row_widgets c1 = seq 1 (value + (old - value))).
      { rewrite A1, Hrows. replace (value - old)%nat with 0%nat by lia.
        simpl. rewrite app_nil_r. f_equal. lia. }
      pose proof (fold_remove_rows value (old - value) c1 Hc1) as Hrem.
      replace (value + (old - value))%nat with old in Hrem by lia. exact Hrem. }
  assert (Hplain2 : forall name text,
            raw_text_dict c2 !! name = Some text -> plain_text text = true).
  { apply (plain_from (raw_text_dict c)); [|intros name text; apply plain_grid_lookup, Hplain].
    eapply texts_from_trans; [apply fold_add_calc_row_from|].
    apply fold_remove_calc_row_from. }
  destruct (pass_frame_plain
              (Build_calculator value (dec_col_count c2) (hex_col_count c2)
                 (crc_order c2) (raw_text_dict c2) (var_value_dict c2) (row_widgets c2))
              Hplain2)
    as (c' & Hc' & F1 & F2 & F3 & F4 & F5 & F6 & _).
  exists c'. split; [exact Hc'|].
  cbn [total_rows dec_col_count hex_col_count crc_order row_widgets raw_text_dict]
    in F1, F2, F3, F4, F5, F6.
  rewrite F1, F2, F3, F4, F5, F6, Hc2, R2, R3, R4, A2, A3, A4.
  repeat (split; [reflexivity|]).
  intros Hle. unfold c2, rows_down. replace (old - value)%nat with 0%nat by lia.
  exact A6.
Qed.

(** X14.  On a grid of plain texts, changing a column count deletes
    nothing: the call returns with the new count, the same rows, every raw
    text still stored, as it was or stripped, and the value of every name
    outside the new grid as it was. *)
Theorem column_change_deletes_nothing (c : calculator) (value : nat) :
  plain_grid c = true ->
  (exists c',
     on_hex_col_change c value = Ok c'
     /\ hex_col_count c' = value /\ dec_col_count c' = dec_col_count c
     /\ row_widgets c' = row_widgets c
     /\ texts_kept (raw_text_dict c) (raw_text_dict c')
     /\ forall name, ~ in_grid c' name ->
                     var_value_dict c' !! name = var_value_dict c !! name)
  /\ (exists c',
       on_dec_col_change c value = Ok c'
       /\ dec_col_count c' = value /\ hex_col_count c' = hex_col_count c
       /\ row_widgets c' = row_widgets c
       /\ texts_kept (raw_text_dict c) (raw_text_dict c')
       /\ forall name, ~ in_grid c' name ->
                       var_value_dict c' !! name = var_value_dict c !! name).
Proof.
  intros Hplain.
  assert (Hrefreshed : forall prefix name text,
            fold_left (refresh_inputs prefix value) (row_widgets c) (raw_text_dict c)
              !! name = Some text ->
            plain_text text = true).
  { intros prefix.
    apply (plain_from (raw_text_dict c)); [|intros name text; apply plain_grid_lookup, Hplain].
    apply fold_texts_from. intros raw row. apply refresh_inputs_from. }
  split.
  - unfold on_hex_col_change, calc_all_rows.
    destruct (pass_frame_plain
                (Build_calculator (total_rows c) (dec_col_count c) value (crc_order c)
                   (fold_left (refresh_inputs "B" value) (row_widgets c) (raw_text_dict c))
                   (var_value_dict c) (row_widgets c))
                (Hrefreshed "B"))
      as (c' & Hc' & F1 & F2 & F3 & F4 & F5 & F6 & F7).
    cbn [total_rows dec_col_count hex_col_count crc_order row_widgets raw_text_dict
         var_value_dict] in F1, F2, F3, F4, F5, F6, F7.
    exists c'. split; [exact Hc'|]. split; [exact F3|]. split; [exact F2|].
    split; [exact F5|]. split.
    + rewrite F6. apply fold_texts_kept. intros raw row. apply refresh_inputs_kept.
    + intros name Hout. apply F7. intros Hin. apply Hout.
      unfold in_grid, b_cells in *. rewrite F2, F3, F5.
      cbn [row_widgets dec_col_count hex_col_count] in Hin. exact Hin.
  - unfold on_dec_col_change, calc_all_rows.
    destruct (pass_frame_plain
                (Build_calculator (total_rows c) value (hex_col_count c) (crc_order c)
                   (fold_left (refresh_inputs "A" value) (row_widgets c) (raw_text_dict c))
                   (var_value_dict c) (row_widgets c))
                (Hrefreshed "A"))
      as (c' & Hc' & F1 & F2 & F3 & F4 & F5 & F6 & F7).
    cbn [total_rows dec_col_count hex_col_count crc_order row_widgets raw_text_dict
         var_value_dict] in F1, F2, F3, F4, F5, F6, F7.
    exists c'. split; [exact Hc'|]. split; [exact F2|]. split; [exact F3|].
    split; [exact F5|]. split.
    + rewrite F6. apply fold_texts_kept. intros raw row. apply refresh_inputs_kept.
    + intros name Hout. apply F7. intros Hin. apply Hout.
      unfold in_grid, b_cells in *. rewrite F2, F3, F5.
      cbn [row_widgets dec_col_count hex_col_count] in Hin. exact Hin.
Qed.

End WithInterpreter.

Lemma remove_calc_row_effect_witness :
  In 2%nat (row_widgets two_row_calculator)
  /\ in_row 2 "B0201" = true
  /\ raw_text_dict (remove_calc_row two_row_calculator 2) !! "B0201" = None.
Proof.
  assert (H1 : In 2%nat (row_widgets two_row_calculator)) by (right; left; reflexivity).
  assert (H2 : in_row 2 "B0201" = true) by reflexivity.
  split; [exact H1|]. split; [exact H2|].
  destruct (proj1 (remove_calc_row_effect two_row_calculator 2) H1)
    as (_ & _ & Hgone & _).
  exact (proj1 (Hgone "B0201" H2)).
Defined.

Lemma remove_calc_row_spares_other_rows_witness :
  (2 < 100)%nat /\ (1 < 100)%nat /\ 1%nat <> 2%nat
  /\ raw_text_dict (remove_calc_row two_row_calculator 2) !! generate_var_name "B" 1 1
     = raw_text_dict two_row_calculator !! generate_var_name "B" 1 1.
Proof.
  assert (H2 : (2 < 100)%nat) by lia. assert (H1 : (1 < 100)%nat) by lia.
  assert (Hne : 1%nat <> 2%nat) by lia.
  split; [exact H2|]. split; [exact H1|]. split; [exact Hne|].
  exact (proj1 (remove_calc_row_spares_other_rows two_row_calculator 2 1 1 "B" H2 H1 Hne)).
Defined.

Lemma on_row_count_change_keeps_rows_in_order_witness :
  plain_grid two_row_calculator = true
  /\ rows_in_order two_row_calculator
  /\ exists c',
       on_row_count_change (H := refusing) two_row_calculator 1 = Ok c'
       /\ total_rows c' = 1%nat /\ rows_in_order c'.
Proof.
  assert (H0 : plain_grid two_row_calculator = true) by reflexivity.
  assert (H1 : rows_in_order two_row_calculator) by reflexivity.
  split; [exact H0|]. split; [exact H1|].
  destruct (on_row_count_change_keeps_rows_in_order (H := refusing) two_row_calculator 1
              H0 H1)
    as (c' & Hc & Htotal & Hrows & _).
  exists c'. split; [exact Hc|]. split; [exact Htotal | exact Hrows].
Defined.

Lemma column_change_deletes_nothing_witness :
  plain_grid wide_calculator = true
  /\ exists c',
       on_hex_col_change (H := refusing) wide_calculator 1 = Ok c'
       /\ texts_kept (raw_text_dict wide_calculator) (raw_text_dict c').
Proof.
  assert (H0 : plain_grid wide_calculator = true) by reflexivity.
  split; [exact H0|].
  destruct (proj1 (column_change_deletes_nothing (H := refusing) wide_calculator 1 H0))
    as (c' & Hc & _ & _ & _ & Hkept & _).
  exists c'. split; [exact Hc | exact Hkept].
Defined.

End GridFacts.


(** ** Further theorems: what a row displays *)

Module DisplayFacts.
Import Py Eval Evaluator Calculator Spec Checks MoreChecks Crc Iteration Display Invariants.
Import PyFacts HexFacts EvaluatorFacts FormulaFacts CrcFacts CrcMore ResolverFacts ResolverMore.
Import Examples MoreExamples.

Lemma format_02X_all : checked_below format_02X_checked 256 = true.
Proof. vm_compute. reflexivity. Qed.

(** On a byte, [f"{b:02X}"] is two characters, neither a space, that
    [int(s, 16)] reads back. *)
Lemma format_02X_byte b :
  is_byte b ->
  exists x y,
    format_02X b = String x (String y EmptyString)
    /\ Ascii.eqb x " " = false /\ Ascii.eqb y " " = false
    /\ int_base16 (String x (String y EmptyString)) = Ok b.
Proof.
  intros Hb. unfold is_byte in Hb.
  pose proof (checked_below_sound _ _ format_02X_all b ltac:(lia)) as Hc.
  unfold format_02X_checked in Hc.
  destruct (format_02X b) as [|x [|y [|? ?]]]; try discriminate.
  apply andb_prop in Hc as [Hc H3]. apply andb_prop in Hc as [H1 H2].
  apply Bool.negb_true_iff in H1, H2. apply result_Z_eqb_eq in H3.
  exists x, y. auto.
Qed.

Lemma pair_append x y s :
  String x (String y EmptyString) ++ s = String x (String y s).
Proof. reflexivity. Qed.

Lemma remove_spaces_app a b :
  remove_spaces (a ++ b) = remove_spaces a ++ remove_spaces b.
Proof.
  induction a as [|c a IH]; [reflexivity|].
  rewrite append_cons. cbn [remove_spaces]. rewrite IH.
  destruct (Ascii.eqb c " "); reflexivity.
Qed.

Lemma remove_spaces_byte b : is_byte b -> remove_spaces (format_02X b) = format_02X b.
Proof.
  intros Hb. destruct (format_02X_byte b Hb) as (x & y & -> & Hx & Hy & _).
  cbn [remove_spaces]. rewrite Hx, Hy. reflexivity.
Qed.

(** The spaces [join] puts between the bytes are the only ones. *)
Lemma remove_spaces_join bytes :
  Forall is_byte bytes ->
  remove_spaces (join " " (map format_02X bytes))
  = fold_right String.append EmptyString (map format_02X bytes).
Proof.
  induction 1 as [|b rest Hb Hrest IH]; [reflexivity|].
  cbn [map fold_right]. destruct rest as [|b' rest'].
  - cbn [map join fold_right]. rewrite append_empty. apply remove_spaces_byte. exact Hb.
  - change (join " " (format_02X b :: map format_02X (b' :: rest')))
      with (format_02X b ++ " " ++ join " " (map format_02X (b' :: rest'))).
    rewrite !remove_spaces_app, IH, (remove_spaces_byte b Hb). reflexivity.
Qed.

Lemma compact_length bytes :
  Forall is_byte bytes ->
  String.length (fold_right String.append EmptyString (map format_02X bytes))
  = (2 * length bytes)%nat.
Proof.
  induction 1 as [|b rest Hb Hrest IH]; [reflexivity|].
  cbn [map fold_right length].
  destruct (format_02X_byte b Hb) as (x & y & -> & _).
  rewrite pair_append. cbn [String.length]. rewrite IH. lia.
Qed.

Lemma decode_pairs_compact bytes :
  Forall is_byte bytes ->
  forall fuel, (length bytes <= fuel)%nat ->
  decode_pairs fuel (fold_right String.append EmptyString (map format_02X bytes))
  = Ok bytes.
Proof.
  induction 1 as [|b rest Hb Hrest IH]; intros fuel Hfuel.
  - destruct fuel; reflexivity.
  - cbn [map fold_right length] in *. destruct fuel as [|fuel]; [lia|].
    destruct (format_02X_byte b Hb) as (x & y & -> & _ & _ & Hread).
    rewrite pair_append. cbn [decode_pairs].
    rewrite Hread. cbn [bind]. rewrite IH by lia. reflexivity.
Qed.

Lemma row_values_bytes c row_num : Forall is_byte (row_values c row_num).
Proof.
  unfold row_values. apply Forall_map, Forall_forall. intros col _. apply mask_is_byte.
Qed.

Lemma row_values_length c row_num : length (row_values c row_num) = hex_col_count c.
Proof. unfold row_values, columns. rewrite length_map, length_seq. reflexivity. Qed.

(** The checksum of a row, in the configured order. *)
Lemma row_checksum c row_num :
  exists lo hi,
    is_byte lo /\ is_byte hi
    /\ crc16_modbus (row_values c row_num) "little" = [lo; hi]
    /\ crc16_modbus (row_values c row_num) (order_arg (crc_order c))
       = match crc_order c with low_first => [lo; hi] | high_first => [hi; lo] end.
Proof.
  destruct (register_of_integers (row_values c row_num)) as [_ Hr].
  destruct (register_bytes _ Hr) as (_ & _ & Hblo & Hbhi).
  eexists _, _. split; [exact Hblo|]. split; [exact Hbhi|].
  rewrite !crc16_modbus_of_register. cbn zeta.
  split; [reflexivity|]. destruct (crc_order c); reflexivity.
Qed.

(** The two texts of a row, in the configured order. *)
Lemma row_texts_shown c row_num :
  exists lo hi,
    is_byte lo /\ is_byte hi
    /\ crc16_modbus (row_values c row_num) "little" = [lo; hi]
    /\ row_texts c row_num
       = Ok (fold_right String.append EmptyString
               (map format_02X
                  match crc_order c with low_first => [lo; hi] | high_first => [hi; lo] end),
             join " "
               (map format_02X
                  (row_values c row_num
                   ++ match crc_order c with
                      | low_first => [lo; hi]
                      | high_first => [hi; lo]
                      end))).
Proof.
  destruct (row_checksum c row_num) as (lo & hi & Hlo & Hhi & Hlittle & Horder).
  exists lo, hi. split; [exact Hlo|]. split; [exact Hhi|]. split; [exact Hlittle|].
  unfold row_texts. cbn zeta. rewrite Horder.
  destruct (crc_order c); rewrite map_app; cbn [map fold_right];
    rewrite append_empty; reflexivity.
Qed.

Lemma on_screen c row_num :
  existsb (Nat.eqb row_num) (row_widgets c) = true <-> In row_num (row_widgets c).
Proof.
  rewrite existsb_exists. split.
  - intros (x & Hx & Heq). apply Nat.eqb_eq in Heq. subst. exact Hx.
  - intros Hin. exists row_num. split; [exact Hin | apply Nat.eqb_refl].
Qed.

Lemma calc_single_row_fills c boxes row_num :
  In row_num (row_widgets c) ->
  exists texts,
    row_texts c row_num = Ok texts
    /\ calc_single_row c boxes row_num = Ok (<[row_num := texts]> boxes).
Proof.
  intros Hrow. destruct (row_texts_shown c row_num) as (lo & hi & _ & _ & _ & Htexts).
  eexists. split; [exact Htexts|].
  unfold calc_single_row. rewrite (proj2 (on_screen c row_num) Hrow), Htexts. reflexivity.
Qed.

(** X15.  For a row on screen [calc_single_row] fills the two boxes of the
    row and no other: the CRC box gets the two checksum bytes in the
    configured order, the result box the bytes of the row and the
    checksum, two uppercase hexadecimal digits each, separated by spaces.
    What [copy_row_result] copies is what the result box holds: after the
    calculation, and whatever the grid has become since, it has two
    characters per byte and reads back, pair by pair, as the bytes of the
    row followed by the checksum, a frame with checksum 00 00 when the low
    byte is first; from the boxes a row is created with, it is the empty
    text.  For a row that is not on screen both raise. *)
Theorem calc_single_row_frame (c : calculator) (boxes : row_boxes) (row_num : nat) :
  (In row_num (row_widgets c) ->
   exists lo hi boxes' compact,
     is_byte lo /\ is_byte hi
     /\ crc16_modbus (row_values c row_num) "little" = [lo; hi]
     /\ let crc := match crc_order c with
                   | low_first => [lo; hi]
                   | high_first => [hi; lo]
                   end in
        calc_single_row c boxes row_num = Ok boxes'
        /\ boxes' !! row_num
           = Some (fold_right String.append EmptyString (map format_02X crc),
                   join " " (map format_02X (row_values c row_num ++ crc)))
        /\ (forall other, other <> row_num -> boxes' !! other = boxes !! other)
        /\ (forall later, In row_num (row_widgets later) ->
              copy_row_result later boxes' row_num = Ok compact)
        /\ String.length compact = (2 * (hex_col_count c + 2))%nat
        /\ decode_frame compact = Ok (row_values c row_num ++ crc)%list
        /\ (crc_order c = low_first ->
            crc16_modbus (row_values c row_num ++ crc) "little" = [0; 0])
        /\ copy_row_result c (add_row_boxes boxes row_num) row_num = Ok EmptyString)
  /\ (~ In row_num (row_widgets c) ->
      calc_single_row c boxes row_num = Raise OtherException
      /\ copy_row_result c boxes row_num = Raise OtherException).
Proof.
  split.
  - intros Hrow.
    destruct (row_texts_shown c row_num) as (lo & hi & Hlo & Hhi & Hlittle & Htexts).
    set (crc := match crc_order c with low_first => [lo; hi] | high_first => [hi; lo] end)
      in *.
    assert (Hcrc : exists b1 b2, crc = [b1; b2] /\ is_byte b1 /\ is_byte b2).
    { unfold crc. destruct (crc_order c); eauto 6. }
    destruct Hcrc as (b1 & b2 & Hcrc & Hb1 & Hb2).
    assert (Hbytes : Forall is_byte (row_values c row_num ++ crc)).
    { apply Forall_app. split; [apply row_values_bytes|].
      rewrite Hcrc. constructor; [exact Hb1|]. constructor; [exact Hb2 | constructor]. }
    exists lo, hi,
      (<[row_num := (fold_right String.append EmptyString (map format_02X crc),
                     join " " (map format_02X (row_values c row_num ++ crc)))]> boxes),
      (fold_right String.append EmptyString (map format_02X (row_values c row_num ++ crc))).
    split; [exact Hlo|]. split; [exact Hhi|]. split; [exact Hlittle|].
    cbn zeta. split; [|split; [|split; [|split; [|split; [|split; [|split]]]]]].
    + unfold calc_single_row. rewrite (proj2 (on_screen c row_num) Hrow), Htexts.
      reflexivity.
    + apply lookup_insert_eq.
    + intros other Hne. apply lookup_insert_ne. congruence.
    + intros later Hlater. unfold copy_row_result.
      unfold row_boxes in *.
      rewrite (proj2 (on_screen later row_num) Hlater), lookup_insert_eq.
      cbn [default from_option id snd]. rewrite remove_spaces_join by exact Hbytes. reflexivity.
    + rewrite compact_length by exact Hbytes.
      rewrite length_app, row_values_length, Hcrc. reflexivity.
    + unfold decode_frame. apply decode_pairs_compact; [exact Hbytes|].
      rewrite compact_length by exact Hbytes.
      fold crc. lia.
    + intros Hfirst. unfold crc. rewrite Hfirst, <- Hlittle. apply frame_checksum.
    + unfold copy_row_result, add_row_boxes, row_boxes in *.
      rewrite (proj2 (on_screen c row_num) Hrow), lookup_insert_eq. reflexivity.
  - intros Hrow.
    assert (Hoff : existsb (Nat.eqb row_num) (row_widgets c) = false).
    { destruct (existsb (Nat.eqb row_num) (row_widgets c)) eqn:Hex; [|reflexivity].
      apply on_screen in Hex. contradiction. }
    unfold calc_single_row, copy_row_result. rewrite Hoff. split; reflexivity.
Qed.

(** Every row of [l] gets its texts; the boxes of the other rows stay. *)
Lemma for_each_row c l :
  (forall row_num, In row_num l -> In row_num (row_widgets c)) ->
  forall boxes,
  exists boxes',
    for_each (calc_single_row c) l boxes = Ok boxes'
    /\ (forall row_num, In row_num l ->
          exists texts, row_texts c row_num = Ok texts /\ boxes' !! row_num = Some texts)
    /\ (forall row_num, ~ In row_num l -> boxes' !! row_num = boxes !! row_num).
Proof.
  induction l as [|r l IH]; intros Hl boxes.
  - exists boxes. split; [reflexivity|]. split; [intros ? []|reflexivity].
  - destruct (calc_single_row_fills c boxes r (Hl r (or_introl eq_refl)))
      as (texts & Htexts & Hcalc).
    destruct (IH (fun x Hx => Hl x (or_intror Hx)) (<[r := texts]> boxes))
      as (boxes' & Hrest & Hin & Hout).
    exists boxes'. cbn [for_each]. rewrite Hcalc. cbn [bind].
    split; [exact Hrest|]. split.
    + intros row_num [<-|Hrow]; [|exact (Hin _ Hrow)].
      destruct (in_dec Nat.eq_dec r l) as [Hr|Hr]; [exact (Hin _ Hr)|].
      exists texts. split; [exact Htexts|]. rewrite (Hout _ Hr). apply lookup_insert_eq.
    + intros row_num Hrow. rewrite Hout by (intros Hx; apply Hrow; right; exact Hx).
      apply lookup_insert_ne. intros ->. apply Hrow. left. reflexivity.
Qed.

Section WithInterpreter.
Context `{Interpreter}.

Lemma calc_all_rows_fills c start boxes :
  resolve_a_cells c = Ok start ->
  exists c' boxes',
    calc_all_rows_shown c boxes = Ok (c', boxes')
    /\ update_all_var_values c = Ok c'
    /\ row_widgets c' = row_widgets c
    /\ (forall row_num, In row_num (row_widgets c) ->
          exists texts, row_texts c' row_num = Ok texts /\ boxes' !! row_num = Some texts)
    /\ (forall row_num, ~ In row_num (row_widgets c) ->
          boxes' !! row_num = boxes !! row_num).
Proof.
  intros Hstart.
  destruct (pass_frame c start Hstart) as (c' & Hc' & _ & _ & _ & _ & Hrows & _).
  destruct (for_each_row c' (row_widgets c') (fun x Hx => Hx) boxes)
    as (boxes' & Hfor & Hin & Hout).
  exists c', boxes'. unfold calc_all_rows_shown. rewrite Hc'. cbn [bind].
  rewrite Hfor. cbn [bind]. rewrite <- Hrows.
  split; [reflexivity|]. split; [reflexivity|]. split; [reflexivity|].
  split; [exact Hin | exact Hout].
Qed.

(** X16.  On a grid of ASCII texts [calc_all_rows] does what its pass
    does: when step one converts the A texts it returns, every row on
    screen has its two texts in its boxes and the boxes of other rows are
    as they were; when step one raises, it raises the same error. *)
Theorem calc_all_rows_shows_every_row (c : calculator) (boxes : row_boxes) :
  ascii_grid c = true ->
  (forall start, resolve_a_cells c = Ok start ->
     exists c' boxes',
       calc_all_rows_shown c boxes = Ok (c', boxes')
       /\ update_all_var_values c = Ok c'
       /\ row_widgets c' = row_widgets c
       /\ (forall row_num, In row_num (row_widgets c) ->
             exists texts,
               row_texts c' row_num = Ok texts /\ boxes' !! row_num = Some texts)
       /\ (forall row_num, ~ In row_num (row_widgets c) ->
             boxes' !! row_num = boxes !! row_num))
  /\ (forall e, resolve_a_cells c = Raise e -> calc_all_rows_shown c boxes = Raise e).
Proof.
  intros _. split.
  - intros start Hstart. exact (calc_all_rows_fills c start boxes Hstart).
  - intros e He. unfold calc_all_rows_shown, update_all_var_values, resolve_all.
    rewrite He. reflexivity.
Qed.

(** X17.  On a grid of ASCII texts whose A texts step one converts, the
    byte order is no input of the pass: after [on_crc_order_change] to
    either order the values are the same, every row has the same bytes,
    and the boxes of a row on screen show the same two checksum bytes, low
    byte first in one order and high byte first in the other. *)
Theorem on_crc_order_change_swaps_the_checksum
    (c : calculator) (start : gmap string Z) (boxes : row_boxes) (row_num : nat) :
  ascii_grid c = true ->
  resolve_a_cells c = Ok start ->
  In row_num (row_widgets c) ->
  exists c1 c2 boxes1 boxes2 lo hi,
    on_crc_order_change c boxes low_first = Ok (c1, boxes1)
    /\ on_crc_order_change c boxes high_first = Ok (c2, boxes2)
    /\ crc_order c1 = low_first /\ crc_order c2 = high_first
    /\ var_value_dict c1 = var_value_dict c2
    /\ raw_text_dict c1 = raw_text_dict c /\ raw_text_dict c2 = raw_text_dict c
    /\ row_values c1 row_num = row_values c2 row_num
    /\ is_byte lo /\ is_byte hi
    /\ boxes1 !! row_num
       = Some (format_02X lo ++ format_02X hi,
               join " " (map format_02X (row_values c1 row_num ++ [lo; hi])))
    /\ boxes2 !! row_num
       = Some (format_02X hi ++ format_02X lo,
               join " " (map format_02X (row_values c1 row_num ++ [hi; lo]))).
Proof.
  intros _ Hstart Hrow.
  set (with_order := fun o =>
         Build_calculator (total_rows c) (dec_col_count c) (hex_col_count c)
           o (raw_text_dict c) (var_value_dict c) (row_widgets c)).
  assert (Hstarts : forall o, resolve_a_cells (with_order o) = Ok start)
    by (intros o; exact Hstart).
  destruct (pass_runs (with_order low_first) start (Hstarts low_first))
    as (j & _ & Hall & _ & _).
  assert (Hsame : forall o, resolve_all (with_order o) = resolve_all (with_order low_first))
    by (intros o; reflexivity).
  set (vals := Nat.iter j (round (cell_value (raw_text_dict (with_order low_first)))
                             (b_cells (with_order low_first))) start) in *.
  assert (Hupd : forall o, update_all_var_values (with_order o)
                           = Ok (set_values (with_order o) vals)).
  { intros o. unfold update_all_var_values. rewrite Hsame, Hall. reflexivity. }
  assert (Hshown : forall o, exists boxes',
            on_crc_order_change c boxes o = Ok (set_values (with_order o) vals, boxes')
            /\ exists texts, row_texts (set_values (with_order o) vals) row_num = Ok texts
                             /\ boxes' !! row_num = Some texts).
  { intros o. unfold on_crc_order_change. fold (with_order o).
    destruct (calc_all_rows_fills (with_order o) start boxes (Hstarts o))
      as (c' & boxes' & Hcalc & Hc' & _ & Hin & _).
    rewrite Hupd in Hc'. injection Hc' as <-.
    exists boxes'. split; [exact Hcalc|]. exact (Hin row_num Hrow). }
  destruct (Hshown low_first) as (boxes1 & H1 & t1 & Ht1 & Hb1).
  destruct (Hshown high_first) as (boxes2 & H2 & t2 & Ht2 & Hb2).
  destruct (row_texts_shown (set_values (with_order low_first) vals) row_num)
    as (lo & hi & Hlo & Hhi & Hlittle & Hcalc1).
  destruct (row_texts_shown (set_values (with_order high_first) vals) row_num)
    as (lo' & hi' & _ & _ & Hlittle' & Hcalc2).
  change (row_values (set_values (with_order high_first) vals) row_num)
    with (row_values (set_values (with_order low_first) vals) row_num) in Hlittle', Hcalc2.
  rewrite Hlittle in Hlittle'. injection Hlittle' as <- <-.
  exists (set_values (with_order low_first) vals), (set_values (with_order high_first) vals),
         boxes1, boxes2, lo, hi.
  split; [exact H1|]. split; [exact H2|].
  do 6 (split; [reflexivity|]).
  split; [exact Hlo|]. split; [exact Hhi|]. split.
  - rewrite Hb1. f_equal. rewrite Hcalc1 in Ht1. injection Ht1 as <-.
    cbn [crc_order set_values set_dicts with_order map fold_right].
    rewrite append_empty. reflexivity.
  - rewrite Hb2. f_equal. rewrite Hcalc2 in Ht2. injection Ht2 as <-.
    cbn [crc_order set_values set_dicts with_order map fold_right].
    rewrite append_empty. reflexivity.
Qed.

End WithInterpreter.

Lemma calc_single_row_frame_witness :
  In 1%nat (row_widgets two_row_calculator)
  /\ exists boxes' compact,
       calc_single_row two_row_calculator ∅ 1 = Ok boxes'
       /\ copy_row_result two_row_calculator boxes' 1 = Ok compact
       /\ String.length compact = 6%nat
       /\ copy_row_result two_row_calculator (add_row_boxes ∅ 1) 1 = Ok EmptyString.
Proof.
  assert (H1 : In 1%nat (row_widgets two_row_calculator)) by (left; reflexivity).
  split; [exact H1|].
  destruct (proj1 (calc_single_row_frame two_row_calculator ∅ 1) H1)
    as (lo & hi & boxes' & compact & _ & _ & _ & Hcalc & _ & _ & Hcopy & Hlen & _ & _
        & Hfresh).
  exists boxes', compact. split; [exact Hcalc|]. split; [exact (Hcopy _ H1)|].
  split; [exact Hlen | exact Hfresh].
Defined.

Lemma calc_all_rows_shows_every_row_witness :
  ascii_grid two_row_calculator = true
  /\ exists start c' boxes',
       resolve_a_cells two_row_calculator = Ok start
       /\ calc_all_rows_shown (H := refusing) two_row_calculator ∅ = Ok (c', boxes').
Proof.
  assert (H0 : ascii_grid two_row_calculator = true) by reflexivity.
  assert (Hs : exists start, resolve_a_cells two_row_calculator = Ok start)
    by (eexists; reflexivity).
  split; [exact H0|]. destruct Hs as [start Hs].
  destruct (proj1 (calc_all_rows_shows_every_row (H := refusing) two_row_calculator ∅ H0)
              start Hs)
    as (c' & boxes' & Hcalc & _).
  exists start, c', boxes'. split; [exact Hs | exact Hcalc].
Defined.

Lemma on_crc_order_change_swaps_the_checksum_witness :
  ascii_grid two_row_calculator = true
  /\ In 1%nat (row_widgets two_row_calculator)
  /\ exists start c1 boxes1,
       resolve_a_cells two_row_calculator = Ok start
       /\ on_crc_order_change (H := refusing) two_row_calculator ∅ low_first
          = Ok (c1, boxes1)
       /\ crc_order c1 = low_first.
Proof.
  assert (H0 : ascii_grid two_row_calculator = true) by reflexivity.
  assert (Hs : exists start, resolve_a_cells two_row_calculator = Ok start)
    by (eexists; reflexivity).
  assert (H1 : In 1%nat (row_widgets two_row_calculator)) by (left; reflexivity).
  split; [exact H0|]. split; [exact H1|]. destruct Hs as [start Hs].
  destruct (on_crc_order_change_swaps_the_checksum (H := refusing) two_row_calculator
              start ∅ 1 H0 Hs H1)
    as (c1 & c2 & boxes1 & boxes2 & lo & hi & Hc1 & _ & Ho1 & _).
  exists start, c1, boxes1. split; [exact Hs|]. split; [exact Hc1 | exact Ho1].
Defined.

End DisplayFacts.


(** ** Further theorems: what the checksum detects *)

Module CrcDetection.
Import Crc CrcFacts Display CrcMore.

Local Ltac div_lia := Z.div_mod_to_equations; lia.

Lemma bit_15_clear h : 0 <= h < 32768 -> Z.testbit h 15 = false.
Proof.
  intros Hh. destruct (Z.eq_dec h 0) as [->|Hz]; [apply Z.bits_0|].
  apply Z.bits_above_log2; [lia|].
  assert (Z.log2 h < 15) by (apply Z.log2_lt_pow2; [lia | change (2 ^ 15) with 32768; lia]).
  lia.
Qed.

Lemma bit_15_set h : 0 <= h < 32768 -> Z.testbit (Z.lxor h 0xA001) 15 = true.
Proof. intros Hh. rewrite Z.lxor_spec, (bit_15_clear h Hh). reflexivity. Qed.

Lemma lxor_cancel_r a b k : Z.lxor a k = Z.lxor b k -> a = b.
Proof.
  intros Heq. apply (f_equal (fun z => Z.lxor z k)) in Heq.
  rewrite !Z.lxor_assoc, !Z.lxor_nilpotent, !Z.lxor_0_r in Heq. exact Heq.
Qed.

Lemma lxor_cancel_l a b k : Z.lxor k a = Z.lxor k b -> a = b.
Proof. rewrite !(Z.lxor_comm k). apply lxor_cancel_r. Qed.

(** A step loses nothing: the bit shifted out is the top bit of the
    result. *)
Lemma ref_step_inj a b :
  0 <= a < 65536 -> 0 <= b < 65536 -> ref_step a = ref_step b -> a = b.
Proof.
  intros Ha Hb. unfold ref_step.
  assert (Hha : 0 <= a / 2 < 32768) by div_lia.
  assert (Hhb : 0 <= b / 2 < 32768) by div_lia.
  pose proof (Zmod_odd a) as Hoa. pose proof (Zmod_odd b) as Hob.
  destruct (Z.odd a), (Z.odd b); intros Heq.
  - apply lxor_cancel_r in Heq. div_lia.
  - apply (f_equal (fun z => Z.testbit z 15)) in Heq.
    rewrite (bit_15_set _ Hha), (bit_15_clear _ Hhb) in Heq. discriminate.
  - apply (f_equal (fun z => Z.testbit z 15)) in Heq.
    rewrite (bit_15_set _ Hhb), (bit_15_clear _ Hha) in Heq. discriminate.
  - div_lia.
Qed.

Lemma xor_low_inj_byte reg a b :
  is_byte a -> is_byte b -> ref_xor_low reg a = ref_xor_low reg b -> a = b.
Proof.
  intros Ha Hb. unfold ref_xor_low. intros Heq.
  apply (lxor_cancel_l _ _ (reg mod 256)). lia.
Qed.

Lemma xor_low_inj_reg r r' b :
  0 <= r < 65536 -> 0 <= r' < 65536 -> is_byte b ->
  ref_xor_low r b = ref_xor_low r' b -> r = r'.
Proof.
  intros Hr Hr' Hb. unfold ref_xor_low, is_byte in *. intros Heq.
  assert (H1 : 0 <= Z.lxor (r mod 256) b < 256).
  { apply (lxor_below _ _ 8); change (2 ^ 8) with 256; [lia | div_lia | lia]. }
  assert (H2 : 0 <= Z.lxor (r' mod 256) b < 256).
  { apply (lxor_below _ _ 8); change (2 ^ 8) with 256; [lia | div_lia | lia]. }
  assert (Hlow : Z.lxor (r mod 256) b = Z.lxor (r' mod 256) b) by lia.
  apply lxor_cancel_r in Hlow. div_lia.
Qed.

Lemma eight_steps_inj u v :
  0 <= u < 65536 -> 0 <= v < 65536 ->
  ref_step (ref_step (ref_step (ref_step (ref_step (ref_step (ref_step (ref_step u)))))))
  = ref_step (ref_step (ref_step (ref_step (ref_step (ref_step (ref_step (ref_step v)))))))
  -> u = v.
Proof.
  intros Hu Hv Heq.
  do 8 (apply ref_step_inj in Heq; [| repeat apply ref_step_range; assumption
                                    | repeat apply ref_step_range; assumption]).
  exact Heq.
Qed.

Lemma ref_byte_inj_byte reg a b :
  0 <= reg < 65536 -> is_byte a -> is_byte b -> ref_byte reg a = ref_byte reg b -> a = b.
Proof.
  intros Hr Ha Hb Heq. unfold ref_byte in Heq.
  apply eight_steps_inj in Heq; [| apply ref_xor_low_range; assumption ..].
  exact (xor_low_inj_byte reg a b Ha Hb Heq).
Qed.

Lemma ref_byte_inj_reg r r' b :
  0 <= r < 65536 -> 0 <= r' < 65536 -> is_byte b ->
  ref_byte r b = ref_byte r' b -> r = r'.
Proof.
  intros Hr Hr' Hb Heq. unfold ref_byte in Heq.
  apply eight_steps_inj in Heq; [| apply ref_xor_low_range; assumption ..].
  exact (xor_low_inj_reg r r' b Hr Hr' Hb Heq).
Qed.

Lemma ref_register_range data : forall reg,
  Forall is_byte data -> 0 <= reg < 65536 -> 0 <= ref_register reg data < 65536.
Proof. intros reg Hd Hr. apply (fold_is_ref_register data reg Hd Hr). Qed.

(** The bytes that follow keep two registers apart. *)
Lemma ref_register_inj data : forall r r',
  Forall is_byte data -> 0 <= r < 65536 -> 0 <= r' < 65536 ->
  ref_register r data = ref_register r' data -> r = r'.
Proof.
  induction data as [|b rest IH]; intros r r' Hd Hr Hr' Heq; [exact Heq|].
  inversion Hd as [|? ? Hb Hrest]; subst. cbn [ref_register] in Heq.
  apply IH in Heq; [| assumption | apply ref_byte_range; assumption ..].
  exact (ref_byte_inj_reg r r' b Hr Hr' Hb Heq).
Qed.

Lemma register_determined data data' order :
  crc16_modbus data order = crc16_modbus data' order ->
  ref_register 0xFFFF (map mask data) = ref_register 0xFFFF (map mask data').
Proof.
  destruct (register_of_integers data) as [_ Hr].
  destruct (register_of_integers data') as [_ Hr'].
  rewrite !crc16_modbus_of_register. cbn zeta.
  destruct (String.eqb order "little"); intros [= H1 H2]; div_lia.
Qed.

(** X18.  The checksum detects every change of a single byte: two lists
    that differ in the low byte of one element, and nowhere else, have
    different checksums, in either byte order. *)
Theorem crc16_modbus_detects_one_byte (before after : list Z) (x y : Z) (order : string) :
  x mod 256 <> y mod 256 ->
  crc16_modbus (before ++ x :: after) order <> crc16_modbus (before ++ y :: after) order.
Proof.
  intros Hne Heq. apply register_determined in Heq.
  rewrite !map_app, !ref_register_app in Heq. cbn [map ref_register] in Heq.
  destruct (register_of_integers before) as [_ Hr].
  apply ref_register_inj in Heq;
    [| apply Forall_mask | apply ref_byte_range; [exact Hr | apply mask_is_byte] ..].
  apply ref_byte_inj_byte in Heq; [| exact Hr | apply mask_is_byte ..].
  rewrite !mask_mod in Heq. contradiction.
Qed.

Lemma crc16_modbus_detects_one_byte_witness :
  1 mod 256 <> 2 mod 256
  /\ crc16_modbus [1; 3] "little" <> crc16_modbus [2; 3] "little".
Proof.
  assert (H1 : 1 mod 256 <> 2 mod 256) by (vm_compute; discriminate).
  split; [exact H1|].
  exact (crc16_modbus_detects_one_byte [] [3] 1 2 "little" H1).
Defined.

End CrcDetection.
